(** * nb-translate: a shallow embedding of the notebook translator

    The Python sources embedded here are [cell_processors.py],
    [llm_client.py], [notebook_io.py], [workflow.py], [config.py] and
    [state.py].  Python values are modelled as follows.

    - [str] is a sequence of Unicode code points ([list N]); the string
      methods the program calls ([strip], [startswith], [endswith],
      [split], [join], slices) are written out on that representation.
    - A cell's [source] is either one text blob or a list of lines, as
      [isinstance(original_source, list)] distinguishes them.
    - Every call that leaves the process (chat completion, HTTP fetch, file
      system, notebook reader and writer) is a node of an interaction tree
      [IO]; the answer of the outside world is the argument of the
      continuation, so nothing is assumed about it.
    - The scheduler that runs the graph of [workflow.py] is a library
      outside these sources.  It is modelled from the specification, which
      has the context passed by value through each step: [workflow.step]
      says what that means for a node and for the router.  How the library
      counts its steps against [recursion_limit] is in neither, and is a
      parameter.
    - [print] calls are not modelled. *)

From Stdlib Require Import String Ascii List ZArith NArith Bool Lia.
Import ListNotations.

(** ** Python strings *)

Module Py.

Definition char := N.
Definition str := list char.

(** UTF-8 decoding of a literal of this file into code points. *)
Fixpoint utf8 (bs : list N) : str :=
  match bs with
  | [] => []
  | b0 :: t0 =>
    if (b0 <? 128)%N then b0 :: utf8 t0 else
    match t0 with
    | [] => [b0]
    | b1 :: t1 =>
      if (b0 <? 224)%N then ((b0 mod 32) * 64 + b1 mod 64)%N :: utf8 t1 else
      match t1 with
      | [] => [b0; b1]
      | b2 :: t2 =>
        if (b0 <? 240)%N
        then ((b0 mod 16) * 4096 + (b1 mod 64) * 64 + b2 mod 64)%N :: utf8 t2
        else
        match t2 with
        | [] => [b0; b1; b2]
        | b3 :: t3 =>
          ((b0 mod 8) * 262144 + (b1 mod 64) * 4096
           + (b2 mod 64) * 64 + b3 mod 64)%N :: utf8 t3
        end
      end
    end
  end.

Definition lit (s : string) : str :=
  utf8 (map N_of_ascii (list_ascii_of_string s)).

Definition NL : char := 10%N.

Definition char_eqb : char -> char -> bool := N.eqb.

Fixpoint str_eqb (a b : str) : bool :=
  match a, b with
  | [], [] => true
  | x :: a', y :: b' => char_eqb x y && str_eqb a' b'
  | _, _ => false
  end.

(** [str.isspace] on one code point: the characters [str.strip()] removes. *)
Definition isspace (c : char) : bool :=
  ((9 <=? c) && (c <=? 13) || (28 <=? c) && (c <=? 32)
   || (c =? 133) || (c =? 160) || (c =? 5760)
   || (8192 <=? c) && (c <=? 8202)
   || (c =? 8232) || (c =? 8233) || (c =? 8239) || (c =? 8287)
   || (c =? 12288))%N.

Fixpoint lstrip (s : str) : str :=
  match s with
  | [] => []
  | c :: t => if isspace c then lstrip t else s
  end.

Fixpoint rstrip (s : str) : str :=
  match s with
  | [] => []
  | c :: t =>
    match rstrip t with
    | [] => if isspace c then [] else [c]
    | t' => c :: t'
    end
  end.

(** [s.strip()] *)
Definition strip (s : str) : str := rstrip (lstrip s).

(** [s.startswith(p)] *)
Fixpoint startswith (p s : str) : bool :=
  match p, s with
  | [], _ => true
  | _ :: _, [] => false
  | x :: p', y :: s' => char_eqb x y && startswith p' s'
  end.

(** [s.endswith(p)] *)
Definition endswith (p s : str) : bool := startswith (rev p) (rev s).

(** [s[n:]] for a literal [n >= 0] *)
Definition slice_from (n : nat) (s : str) : str := skipn n s.

(** [s[:-n]] for a literal [n > 0]: the bounds are clamped as Python does *)
Definition slice_to_neg (n : nat) (s : str) : str :=
  firstn (length s - n) s.

(** [s.split(sep)] for a one-character separator: never the empty list *)
Fixpoint split (sep : char) (s : str) : list str :=
  match s with
  | [] => [[]]
  | c :: t =>
    if char_eqb c sep then [] :: split sep t
    else match split sep t with
         | [] => [[c]]
         | l :: ls => (c :: l) :: ls
         end
  end.

(** [sep.join(parts)] *)
Fixpoint join (sep : str) (parts : list str) : str :=
  match parts with
  | [] => []
  | [p] => p
  | p :: ps => p ++ sep ++ join sep ps
  end.

(** [bool(s)] for a string *)
Definition truthy (s : str) : bool :=
  match s with [] => false | _ => true end.

(** [x[i]] on a list: a negative index counts from the end, an index out of
    range raises [IndexError] ([None]). *)
Definition getitem {A} (l : list A) (i : Z) : option A :=
  let n := Z.of_nat (length l) in
  if (i <? 0)%Z
  then (if (i + n <? 0)%Z then None else nth_error l (Z.to_nat (i + n)))
  else nth_error l (Z.to_nat i).

End Py.

Import Py.

(** ** [cell_processors.py], [process_code_cell], lines 171-179: the clean-up
    of a code-block wrapping around the gateway's answer. *)

Definition strip_code_fences (enhanced_code : str) : str :=
  let enhanced_code := strip enhanced_code in
  let enhanced_code :=
    if startswith (lit "```python") enhanced_code
    then slice_from 9 enhanced_code
    else if startswith (lit "```") enhanced_code
         then slice_from 3 enhanced_code
         else enhanced_code in
  let enhanced_code :=
    if endswith (lit "```") enhanced_code
    then slice_to_neg 3 enhanced_code
    else enhanced_code in
  strip enhanced_code.

(** ** Exceptions and results *)

Inductive exn_kind :=
| IndexError | KeyError | FileNotFoundError | HTTPError
| GraphRecursionError | OtherError.

(** An exception value; [exn_msg] is [str(e)]. *)
Record exn := Exn { exn_kind_of : exn_kind; exn_msg : str }.

Inductive result (A : Type) : Type :=
| Ok (a : A)
| Raise (e : exn).
Arguments Ok {A} a.
Arguments Raise {A} e.

Definition bytes := list N.

(** ** The notebook document ([nbformat], version 4) *)

(** [cell["source"]]: one string, or a list of strings. *)
Inductive Source :=
| SrcStr (s : str)
| SrcList (l : list str).

(** A cell: its two required fields and the remaining, untouched ones
    ([metadata], [outputs], [execution_count], ...). *)
Record Cell := {
  cell_type : str;
  source : Source;
  cell_rest : list (str * str)
}.

Definition set_source (c : Cell) (s : Source) : Cell :=
  {| cell_type := cell_type c; source := s; cell_rest := cell_rest c |}.

Record Notebook := {
  cells : list Cell;
  nb_rest : list (str * str)
}.

Definition set_cells (nb : Notebook) (cs : list Cell) : Notebook :=
  {| cells := cs; nb_rest := nb_rest nb |}.

(** ** [state.py]: [AgentState].  [notebook_content] is [None] for the empty
    dict [{}] the run starts from. *)

Record AgentState := {
  input_path : str;
  output_path : str;
  notebook_content : option Notebook;
  processed_cells : list Cell;
  target_language : str;
  current_cell_index : Z;
  total_cells : Z;
  error_message : option str
}.

Definition set_error_message (s : AgentState) (m : option str) : AgentState :=
  {| input_path := input_path s; output_path := output_path s;
     notebook_content := notebook_content s;
     processed_cells := processed_cells s;
     target_language := target_language s;
     current_cell_index := current_cell_index s;
     total_cells := total_cells s; error_message := m |}.

(** [state["processed_cells"].append(cell)] followed by
    [state["current_cell_index"] += 1] *)
Definition append_and_advance (s : AgentState) (cell : Cell) : AgentState :=
  {| input_path := input_path s; output_path := output_path s;
     notebook_content := notebook_content s;
     processed_cells := processed_cells s ++ [cell];
     target_language := target_language s;
     current_cell_index := (current_cell_index s + 1)%Z;
     total_cells := total_cells s; error_message := error_message s |}.

(** [if state.get("error_message")]: [None] and the empty string are false. *)
Definition error_recorded (s : AgentState) : bool :=
  match error_message s with
  | None => false
  | Some m => truthy m
  end.

(** [state["notebook_content"]["cells"]]: [KeyError] on the empty dict. *)
Definition state_cells (s : AgentState) : result (list Cell) :=
  match notebook_content s with
  | None => Raise (Exn KeyError (lit "'cells'"))
  | Some nb => Ok (cells nb)
  end.

(** [cells[i]] *)
Definition cell_at (cs : list Cell) (i : Z) : result Cell :=
  match getitem cs i with
  | None => Raise (Exn IndexError (lit "list index out of range"))
  | Some c => Ok c
  end.

(** ** The outside world *)

Inductive message_part :=
| TextPart (text : str)
| ImageUrlPart (url : str).

Inductive message_content :=
| Text (s : str)
| Parts (ps : list message_part).

Record message := { role : str; content : message_content }.

(** The arguments of [client.chat.completions.create]; the temperature is
    the constant 0.3 in every call, kept in tenths. *)
Record chat_request := {
  model : str;
  messages : list message;
  temperature_tenths : Z
}.

Record http_response := { status_code : Z; response_content : bytes }.

(** One constructor per call that leaves the process, indexed by the type of
    its answer. *)
Inductive Eff : Type -> Type :=
(** [client.chat.completions.create(...)] then
    [response.choices[0].message.content]: raises, or yields the content,
    which may be [None]. *)
| ChatCompletion (req : chat_request) : Eff (result (option str))
(** [requests.get(url, timeout=t)] *)
| RequestsGet (url : str) (timeout : Z) : Eff (result http_response)
(** [os.path.exists(p)] *)
| PathExists (p : str) : Eff bool
(** [open(p, 'rb')] and [read()] *)
| ReadBinary (p : str) : Eff (result bytes)
(** [os.path.abspath(p)], which reads the working directory *)
| AbsPath (p : str) : Eff str
(** [open(p)] and [nbformat.read(f, as_version=4)] *)
| NbformatRead (p : str) : Eff (result Notebook)
(** [Path(p).parent.mkdir(parents=True, exist_ok=True)] *)
| MkdirParent (p : str) : Eff (result unit)
(** [open(p, 'w')] and [nbformat.write(nb, f)] *)
| NbformatWrite (nb : Notebook) (p : str) : Eff (result unit).

(** Programs: a tree of calls, each continued on the world's answer. *)
Inductive IO (A : Type) : Type :=
| Ret (a : A)
| Vis (X : Type) (e : Eff X) (k : X -> IO A).
Arguments Ret {A} a.
Arguments Vis {A X} e k.

Fixpoint bind {A B} (m : IO A) (f : A -> IO B) : IO B :=
  match m with
  | Ret a => f a
  | Vis e k => Vis e (fun x => bind (k x) f)
  end.

Definition call {X} (e : Eff X) : IO X := Vis e (fun x => Ret x).

Declare Scope io_scope.
Delimit Scope io_scope with io.
Notation "x <- m ;; k" := (bind m (fun x => k))
  (at level 61, m at next level, right associativity) : io_scope.
Open Scope io_scope.

(** An environment answers every call from its current state. *)
Definition handler (W : Type) := forall X, Eff X -> W -> X * W.

Inductive event := Event (X : Type) (e : Eff X) (x : X).
Arguments Event {X} e x.

(** Running a program in an environment: the value returned, the final
    state of the world and the calls made, in order, with their answers. *)
Fixpoint run {W A} (h : handler W) (m : IO A) (w : W) : A * W * list event :=
  match m with
  | Ret a => (a, w, [])
  | Vis e k =>
    let '(x, w1) := h _ e w in
    let '(a, w2, tr) := run h (k x) w1 in
    (a, w2, Event e x :: tr)
  end.

Definition value_of {W A} (r : A * W * list event) : A := fst (fst r).
Definition world_of {W A} (r : A * W * list event) : W := snd (fst r).
Definition calls_of {W A} (r : A * W * list event) : list event := snd r.

(** ** Library functions

    Pure functions of the Python standard library whose tables are not part
    of the program: they are parameters of the development. *)

Record PyLib := {
  b64decode : str -> result bytes;      (** [base64.b64decode] *)
  b64encode : bytes -> str;             (** [base64.b64encode(..).decode('utf-8')] *)
  lower : str -> str;                   (** [str.lower] *)
  os_path_dirname : str -> str;         (** [os.path.dirname] *)
  os_path_join : str -> str -> str      (** [os.path.join] *)
}.

(** A template of lines as a triple-quoted literal lays them out: a newline
    first, and one after every line. *)
Definition template (ls : list str) : str :=
  NL :: concat (map (fun l => l ++ [NL]) ls).

Definition Q : str := [34%N].

(** ** [config.py] *)

Module config.

(** [dict.get(key, default)] on a literal table *)
Fixpoint dict_get (table : list (str * str)) (key default : str) : str :=
  match table with
  | [] => default
  | (k, v) :: rest => if str_eqb k key then v else dict_get rest key default
  end.

Definition translation_labels : list (str * str) :=
  [ (lit "chinese", lit "翻译");
    (lit "english", lit "Translation");
    (lit "spanish", lit "Traducción");
    (lit "french", lit "Traduction");
    (lit "german", lit "Übersetzung");
    (lit "japanese", lit "翻訳");
    (lit "korean", lit "번역");
    (lit "russian", lit "Перевод");
    (lit "portuguese", lit "Tradução");
    (lit "italian", lit "Traduzione") ].

Definition description_labels : list (str * str) :=
  [ (lit "chinese", lit "图片说明");
    (lit "english", lit "Image Description");
    (lit "spanish", lit "Descripción de Imagen");
    (lit "french", lit "Description d'Image");
    (lit "german", lit "Bildbeschreibung");
    (lit "japanese", lit "画像説明");
    (lit "korean", lit "이미지 설명");
    (lit "russian", lit "Описание изображения");
    (lit "portuguese", lit "Descrição da Imagem");
    (lit "italian", lit "Descrizione dell'Immagine") ].

Definition get_translation_label (py : PyLib) (target_language : str) : str :=
  dict_get translation_labels (lower py target_language) (lit "Translation").

Definition get_description_label (py : PyLib) (target_language : str) : str :=
  dict_get description_labels (lower py target_language)
           (lit "Image Description").

End config.

(** ** [llm_client.py] *)

Module llm_client.

(** The [LLMClient] object: what [__init__] keeps of the configuration. *)
Record LLMClient := { model_name : str }.

Definition translate_prompt (text target_language : str) : str :=
  template
    [ lit "You are a professional translator. You MUST translate the following text from English to "
        ++ target_language ++ lit ".";
      [];
      lit "CRITICAL REQUIREMENTS:";
      lit "1. You MUST actually translate the text content to "
        ++ target_language ++ lit ", not repeat the English";
      lit "2. Preserve ALL Markdown formatting exactly (headers, links, bold, italic, code blocks, etc.)";
      lit "3. Only translate the actual text content, not the Markdown syntax";
      lit "4. Maintain the same structure and formatting";
      lit "5. If there are code snippets, translate only the comments, not the code itself";
      lit "6. Return ONLY the translated text in "
        ++ target_language ++ lit ", no additional explanations";
      lit "7. If the text is already in " ++ target_language
        ++ lit ", return it as-is";
      [];
      lit "Examples:";
      lit "- English: " ++ Q ++ lit "This is a tutorial" ++ Q
        ++ lit " → Chinese: " ++ Q ++ lit "这是一个教程" ++ Q;
      lit "- English: " ++ Q ++ lit "# Introduction" ++ Q
        ++ lit " → Chinese: " ++ Q ++ lit "# 简介" ++ Q;
      [];
      lit "Text to translate to " ++ target_language ++ lit ":";
      text ].

(** [translate_text]: every failure of the call is caught and answered with
    the text itself. *)
Definition translate_text (self : LLMClient) (text target_language : str)
  : IO str :=
  let prompt := translate_prompt text target_language in
  r <- call (ChatCompletion
       {| model := model_name self;
          messages :=
            [ {| role := lit "system";
                 content := Text (lit "You are a professional translator specialized in maintaining Markdown formatting.") |};
              {| role := lit "user"; content := Text prompt |} ];
          temperature_tenths := 3 |}) ;;
  match r with
  | Ok (Some content) =>
    Ret (if truthy content then strip content else text)
  | Ok None => Ret text
  | Raise e => Ret text
  end.

Definition add_code_comments_prompt (code target_language : str) : str :=
  template
    [ lit "You are a coding expert and translator. Analyze the following code and:";
      [];
      lit "CRITICAL REQUIREMENTS:";
      lit "1. Add detailed, line-by-line comments explaining what the code does";
      lit "2. Translate any existing English comments to " ++ target_language;
      lit "3. Keep the original code EXACTLY the same - only add/modify comments";
      lit "4. Write NEW comments in " ++ target_language;
      lit "5. Use appropriate comment syntax for the programming language (# for Python, // for JavaScript, etc.)";
      lit "6. Place comments ABOVE the relevant lines or at the end of lines";
      lit "7. Make comments educational and helpful for understanding";
      lit "8. IMPORTANT: Do NOT wrap the code in markdown code blocks (```). Return ONLY the commented code.";
      [];
      lit "Example for Python:";
      lit "# 导入pandas库用于数据处理";
      lit "import pandas as pd";
      lit "# 读取CSV文件并创建DataFrame";
      lit "data = pd.read_csv('file.csv')";
      [];
      lit "Code to analyze and add " ++ target_language
        ++ lit " comments (return ONLY the commented code, no markdown wrapping):";
      code ].

(** [add_code_comments]: every failure of the call is caught and answered
    with the code itself; nothing is raised to the caller. *)
Definition add_code_comments (self : LLMClient) (code target_language : str)
  : IO (result str) :=
  let prompt := add_code_comments_prompt code target_language in
  r <- call (ChatCompletion
       {| model := model_name self;
          messages :=
            [ {| role := lit "system";
                 content := Text (lit "You are a coding expert who adds helpful comments in "
                                    ++ target_language ++ lit ".") |};
              {| role := lit "user"; content := Text prompt |} ];
          temperature_tenths := 3 |}) ;;
  match r with
  | Ok (Some content) =>
    Ret (Ok (if truthy content then strip content else code))
  | Ok None => Ret (Ok code)
  | Raise e => Ret (Ok code)
  end.

Definition describe_image_prompt (target_language : str) : str :=
  template
    [ lit "Describe this image in detail in " ++ target_language ++ lit ". ";
      lit "Provide a comprehensive description that would help someone understand the content and context of the image.";
      lit "Focus on:";
      lit "1. Main objects, people, or subjects in the image";
      lit "2. Setting, background, and environment";
      lit "3. Colors, composition, and visual elements";
      lit "4. Any text or important details visible";
      lit "5. Overall mood or purpose of the image";
      [];
      lit "Provide only the description, no additional text." ].

Definition describe_image (py : PyLib) (self : LLMClient)
           (image_data : bytes) (target_language : str) : IO str :=
  let image_base64 := b64encode py image_data in
  let prompt := describe_image_prompt target_language in
  r <- call (ChatCompletion
       {| model := model_name self;
          messages :=
            [ {| role := lit "user";
                 content :=
                   Parts [ TextPart prompt;
                           ImageUrlPart (lit "data:image/jpeg;base64,"
                                           ++ image_base64) ] |} ];
          temperature_tenths := 3 |}) ;;
  match r with
  | Ok (Some content) =>
    Ret (if truthy content then strip content
         else lit "[Unable to generate image description]")
  | Ok None => Ret (lit "[Unable to generate image description]")
  | Raise e =>
    Ret (lit "[Unable to generate image description: " ++ exn_msg e ++ lit "]")
  end.

(** [response.raise_for_status()]: an [HTTPError] for a 4xx or 5xx status. *)
Definition raise_for_status (response : http_response) : result unit :=
  let status := status_code response in
  if ((400 <=? status) && (status <? 600))%Z
  then Raise (Exn HTTPError (lit "HTTP error"))
  else Ok tt.

(** [get_image_data]; the handler at the end re-raises what it caught. *)
Definition get_image_data (py : PyLib) (src : str) (input_path : option str)
  : IO (result bytes) :=
  if startswith (lit "data:image/") src then
    match nth_error (split 44%N src) 1 with
    | None => Ret (Raise (Exn IndexError (lit "list index out of range")))
    | Some base64_data => Ret (b64decode py base64_data)
    end
  else if startswith (lit "http://") src || startswith (lit "https://") src
  then
    r <- call (RequestsGet src 30) ;;
    match r with
    | Raise e => Ret (Raise e)
    | Ok response =>
      match raise_for_status response with
      | Raise e => Ret (Raise e)
      | Ok _ => Ret (Ok (response_content response))
      end
    end
  else
    src_exists <- call (PathExists src) ;;
    if src_exists : bool then call (ReadBinary src)
    else
      match input_path with
      | Some input_path =>
        abs <- call (AbsPath input_path) ;;
        let notebook_dir := os_path_dirname py abs in
        let relative_path := os_path_join py notebook_dir src in
        rel_exists <- call (PathExists relative_path) ;;
        if rel_exists : bool then call (ReadBinary relative_path)
        else Ret (Raise (Exn FileNotFoundError
                   (lit "Image file not found: " ++ src
                      ++ lit " (tried absolute and relative to "
                      ++ notebook_dir ++ lit ")")))
      | None =>
        Ret (Raise (Exn FileNotFoundError
                      (lit "Image file not found: " ++ src)))
      end.

End llm_client.

(** ** [cell_processors.py] *)

Module cell_processors.

Import config llm_client.

(** *** The image pattern

    [image_pattern] is an exclamation mark, an alt text in square brackets
    (any characters but the closing bracket, possibly none) and a source in
    parentheses (one or more characters, none of them the closing
    parenthesis). *)

(** The longest prefix of characters other than [stop], and what follows. *)
Fixpoint span_until (stop : char) (s : str) : str * str :=
  match s with
  | [] => ([], [])
  | c :: t =>
    if char_eqb c stop then ([], s)
    else let '(a, b) := span_until stop t in (c :: a, b)
  end.

(** A match of the pattern at the very start of [s]: the two groups and the
    length of the match.  Each class is followed by the character it
    excludes, so the greedy match is the only one. *)
Definition image_match_here (s : str) : option (str * str * nat) :=
  if startswith (lit "![") s then
    let '(alt_text, s2) := span_until 93%N (skipn 2 s) in
    if startswith (lit "](") s2 then
      let '(src, s4) := span_until 41%N (skipn 2 s2) in
      match src, s4 with
      | _ :: _, _ :: _ =>
        Some (alt_text, src, 2 + length alt_text + 2 + length src + 1)
      | _, _ => None
      end
    else None
  else None.

(** [image_pattern.findall]: leftmost matches, scanning on after each one;
    [skip] counts the characters of the last match still to be passed. *)
Fixpoint findall_from (skip : nat) (s : str) : list (str * str) :=
  match s with
  | [] => []
  | _ :: t =>
    match skip with
    | S k => findall_from k t
    | O =>
      match image_match_here s with
      | Some (alt_text, src, n) => (alt_text, src) :: findall_from (n - 1) t
      | None => findall_from 0 t
      end
    end
  end.

Definition image_pattern_findall (s : str) : list (str * str) :=
  findall_from 0 s.

(** *** Sections of a markdown cell (lines 55-71) *)

(** The body of the loop over [source_lines]. *)
Definition group_line (acc : list str * list (list str)) (line : str)
  : list str * list (list str) :=
  let '(current_section, sections) := acc in
  if str_eqb (strip line) [] || startswith (lit "#") line then
    let '(current_section, sections) :=
      match current_section with
      | [] => (current_section, sections)
      | _ => ([], sections ++ [current_section])
      end in
    if truthy (strip line)
    then (current_section ++ [line], sections)
    else (current_section, sections)
  else (current_section ++ [line], sections).

Definition group_sections (source_lines : list str) : list (list str) :=
  let '(current_section, sections) :=
    fold_left group_line source_lines ([], []) in
  match current_section with
  | [] => sections
  | _ => sections ++ [current_section]
  end.

(** Lines 49-53: the source as one text, then its lines. *)
Definition source_text_of (original_source : Source) : str :=
  match original_source with
  | SrcList l => concat l
  | SrcStr s => s
  end.

Definition markdown_sections (original_source : Source) : list (list str) :=
  group_sections (split NL (source_text_of original_source)).

(** *** Processing the sections (lines 74-115) *)

Section Processors.

Variable py : PyLib.
Variable client : LLMClient.

(** The loop over [image_matches] (lines 85-97); a failure of the resolver
    skips that image. *)
Fixpoint describe_images (image_matches : list (str * str))
         (input_path : option str) (target_language : str)
         (new_source_lines : list str) : IO (list str) :=
  match image_matches with
  | [] => Ret new_source_lines
  | (alt_text, src) :: rest =>
    r <- get_image_data py src input_path ;;
    match r with
    | Raise e =>
      describe_images rest input_path target_language new_source_lines
    | Ok image_data =>
      description <- describe_image py client image_data target_language ;;
      let description_label := get_description_label py target_language in
      describe_images rest input_path target_language
        (new_source_lines
           ++ [ []; lit "**" ++ description_label ++ lit "：**"; description ])
    end
  end.

(** [any(line.strip() and not line.startswith('!') for line in section)] *)
Definition has_text (section : list str) : bool :=
  existsb (fun line => truthy (strip line) && negb (startswith (lit "!") line))
          section.

Fixpoint process_sections (sections : list (list str))
         (input_path : option str) (target_language : str)
         (new_source_lines : list str) : IO (list str) :=
  match sections with
  | [] => Ret new_source_lines
  | section :: rest =>
    match section with
    | [] => process_sections rest input_path target_language new_source_lines
    | _ =>
      let section_text := join [NL] section in
      let new_source_lines := new_source_lines ++ section in
      let image_matches := image_pattern_findall section_text in
      new_source_lines <-
        describe_images image_matches input_path target_language
                        new_source_lines ;;
      new_source_lines <-
        (if has_text section then
           translation <- translate_text client section_text target_language ;;
           let translation_label :=
             get_translation_label py target_language in
           Ret (new_source_lines
                  ++ [ []; lit "**" ++ translation_label ++ lit "：**";
                       translation ])
         else Ret new_source_lines) ;;
      process_sections rest input_path target_language
                       (new_source_lines ++ [[]])
    end
  end.

(** Lines 39-115: from [original_source] to [new_source_lines]. *)
Definition markdown_new_source (original_source : Source)
           (input_path : option str) (target_language : str)
  : IO (list str) :=
  process_sections (markdown_sections original_source)
                   input_path target_language [].

Definition process_markdown_cell (state : AgentState) : IO AgentState :=
  let failed (e : exn) :=
    set_error_message state
      (Some (lit "Error processing markdown cell: " ++ exn_msg e)) in
  let current_index := current_cell_index state in
  match state_cells state with
  | Raise e => Ret (failed e)
  | Ok cs =>
    if (current_index >=? Z.of_nat (length cs))%Z then
      Ret (set_error_message state (Some (lit "Cell index out of range")))
    else
      match cell_at cs current_index with
      | Raise e => Ret (failed e)
      | Ok cell =>
        let processed_cell := cell in
        if negb (str_eqb (cell_type cell) (lit "markdown")) then
          Ret (set_error_message state
                 (Some (lit "Expected markdown cell, got " ++ cell_type cell)))
        else
          new_source_lines <-
            markdown_new_source (source cell) (Some (input_path state))
                                (target_language state) ;;
          Ret (append_and_advance state
                 (set_source processed_cell (SrcList new_source_lines)))
      end
  end.

(** Lines 158-186: the new source of a code cell, for a gateway call
    [annotate] that returns the annotated code or raises. *)
Definition code_new_source (annotate : str -> str -> IO (result str))
           (original_source : Source) (target_language : str) : IO Source :=
  let code_content := source_text_of original_source in
  r <- annotate code_content target_language ;;
  match r with
  | Ok enhanced_code => Ret (SrcStr (strip_code_fences enhanced_code))
  | Raise e => Ret original_source
  end.

Definition process_code_cell_with (annotate : str -> str -> IO (result str))
           (state : AgentState) : IO AgentState :=
  let failed (e : exn) :=
    set_error_message state
      (Some (lit "Error processing code cell: " ++ exn_msg e)) in
  let current_index := current_cell_index state in
  match state_cells state with
  | Raise e => Ret (failed e)
  | Ok cs =>
    if (current_index >=? Z.of_nat (length cs))%Z then
      Ret (set_error_message state (Some (lit "Cell index out of range")))
    else
      match cell_at cs current_index with
      | Raise e => Ret (failed e)
      | Ok cell =>
        let processed_cell := cell in
        if negb (str_eqb (cell_type cell) (lit "code")) then
          Ret (set_error_message state
                 (Some (lit "Expected code cell, got " ++ cell_type cell)))
        else
          new_source <-
            code_new_source annotate (source cell) (target_language state) ;;
          Ret (append_and_advance state (set_source processed_cell new_source))
      end
  end.

(** [process_code_cell]: the gateway call is [llm_client.add_code_comments]. *)
Definition process_code_cell (state : AgentState) : IO AgentState :=
  process_code_cell_with (add_code_comments client) state.

End Processors.

(** *** The router *)

Definition route_cell_processing (state : AgentState) : AgentState * str :=
  let failed (state : AgentState) (e : exn) :=
    (set_error_message state (Some (lit "Error in routing: " ++ exn_msg e)),
     lit "END") in
  if error_recorded state then (state, lit "END") else
  let current_index := current_cell_index state in
  let total_cells := total_cells state in
  if (current_index >=? total_cells)%Z then (state, lit "rebuild_notebook")
  else
    match state_cells state with
    | Raise e => failed state e
    | Ok cs =>
      match cell_at cs current_index with
      | Raise e => failed state e
      | Ok cell =>
        let cell_type' := cell_type cell in
        if str_eqb cell_type' (lit "markdown") then
          (state, lit "process_markdown_cell")
        else if str_eqb cell_type' (lit "code") then
          (state, lit "process_code_cell")
        else
          let processed_cell := cell in
          let state := append_and_advance state processed_cell in
          if (current_cell_index state >=? total_cells)%Z then
            (state, lit "rebuild_notebook")
          else
            match cell_at cs (current_cell_index state) with
            | Raise e => failed state e
            | Ok next_cell =>
              let next_cell_type := cell_type next_cell in
              if str_eqb next_cell_type (lit "markdown") then
                (state, lit "process_markdown_cell")
              else if str_eqb next_cell_type (lit "code") then
                (state, lit "process_code_cell")
              else (state, lit "skip_unsupported_cell")
            end
      end
    end.

Definition skip_unsupported_cell (state : AgentState) : AgentState :=
  let failed (e : exn) :=
    set_error_message state
      (Some (lit "Error skipping cell: " ++ exn_msg e)) in
  let current_index := current_cell_index state in
  match state_cells state with
  | Raise e => failed e
  | Ok cs =>
    if (current_index >=? Z.of_nat (length cs))%Z then state
    else
      match cell_at cs current_index with
      | Raise e => failed e
      | Ok cell => append_and_advance state cell
      end
  end.

End cell_processors.

(** ** [notebook_io.py] *)

Module notebook_io.

(** [pathlib] on the input path: [parent / f"{stem}_translated{suffix}"]
    as a string.  The three parts of a path are parameters. *)
Record PathLib := {
  path_parent_div : str -> str -> str;  (** [str(Path(p).parent / name)] *)
  path_stem : str -> str;               (** [Path(p).stem] *)
  path_suffix : str -> str              (** [Path(p).suffix] *)
}.

Section IO.

Variable pl : PathLib.

Definition load_and_parse_notebook (state : AgentState) : IO AgentState :=
  input_exists <- call (PathExists (input_path state)) ;;
  if negb input_exists then
    Ret (set_error_message state
           (Some (lit "Input file not found: " ++ input_path state)))
  else
    r <- call (NbformatRead (input_path state)) ;;
    match r with
    | Raise e =>
      Ret (set_error_message state
             (Some (lit "Error loading notebook: " ++ exn_msg e)))
    | Ok notebook_content =>
      let output_path :=
        path_parent_div pl (input_path state)
          (path_stem pl (input_path state) ++ lit "_translated"
             ++ path_suffix pl (input_path state)) in
      Ret {| input_path := input_path state;
             output_path := output_path;
             notebook_content := Some notebook_content;
             processed_cells := [];
             target_language := target_language state;
             current_cell_index := 0;
             total_cells := Z.of_nat (length (cells notebook_content));
             error_message := None |}
    end.

(** [output_notebook]: a copy of the notebook with its cells replaced; the
    copy of the empty dict has the cells only. *)
Definition output_notebook (state : AgentState) : Notebook :=
  match notebook_content state with
  | Some nb => set_cells nb (processed_cells state)
  | None => {| cells := processed_cells state; nb_rest := [] |}
  end.

Definition rebuild_notebook (state : AgentState) : IO AgentState :=
  let failed (e : exn) :=
    set_error_message state
      (Some (lit "Error saving notebook: " ++ exn_msg e)) in
  if error_recorded state then Ret state
  else
    let output_notebook := output_notebook state in
    r <- call (MkdirParent (output_path state)) ;;
    match r with
    | Raise e => Ret (failed e)
    | Ok _ =>
      r <- call (NbformatWrite output_notebook (output_path state)) ;;
      match r with
      | Raise e => Ret (failed e)
      | Ok _ => Ret state
      end
    end.

End IO.

End notebook_io.

(** ** [workflow.py] *)

Module workflow.

Import llm_client cell_processors notebook_io.

(** The nodes added to the graph. *)
Inductive node :=
| load_and_parse_notebook_node
| process_markdown_cell_node
| process_code_cell_node
| skip_unsupported_cell_node
| rebuild_notebook_node.

(** The mapping every [add_conditional_edges] call gives: the router's
    answer to the next node, [inr tt] standing for [END]. *)
Definition conditional_edges (answer : str) : option (node + unit) :=
  if str_eqb answer (lit "process_markdown_cell")
  then Some (inl process_markdown_cell_node)
  else if str_eqb answer (lit "process_code_cell")
  then Some (inl process_code_cell_node)
  else if str_eqb answer (lit "skip_unsupported_cell")
  then Some (inl skip_unsupported_cell_node)
  else if str_eqb answer (lit "rebuild_notebook")
  then Some (inl rebuild_notebook_node)
  else if str_eqb answer (lit "END") then Some (inr tt)
  else None.

(** Where the run stands between two steps: a node is about to run, the
    router is about to be asked after a node, the graph reached [END], or
    the scheduler raised. *)
Inductive config :=
| Pending (n : node) (state : AgentState)
| Routing (state : AgentState)
| Halted (state : AgentState)
| Crashed (e : exn).

Section Graph.

Variable py : PyLib.
Variable pl : PathLib.
Variable client : LLMClient.

Definition run_node (n : node) (state : AgentState) : IO AgentState :=
  match n with
  | load_and_parse_notebook_node => load_and_parse_notebook pl state
  | process_markdown_cell_node => process_markdown_cell py client state
  | process_code_cell_node => process_code_cell client state
  | skip_unsupported_cell_node => Ret (skip_unsupported_cell state)
  | rebuild_notebook_node => rebuild_notebook state
  end.

(** Modelled from the spec: the scheduler of the compiled graph, a library
    that is not in the source.  The specification has the router driven
    externally by re-invocation after each processor step, and the context
    passed by value through each step.  A step is given the values of the
    context in a dict of its own.  A node returns that dict, which becomes
    the context.  The router returns the name of a node only: what it
    assigns in its dict ([current_cell_index], [error_message]) is lost;
    the cell it appends is not, since its dict holds the list object of the
    context. *)
Definition after_routing (state routed : AgentState) : AgentState :=
  {| input_path := input_path state; output_path := output_path state;
     notebook_content := notebook_content state;
     processed_cells := processed_cells routed;
     target_language := target_language state;
     current_cell_index := current_cell_index state;
     total_cells := total_cells state;
     error_message := error_message state |}.

(** Modelled from the spec: one step of the scheduler, which is not in the
    source.  The context a node returns is the one the router is given;
    the next node, or the end of the graph, receives it as the router left
    it by [after_routing].  The edge from [rebuild_notebook] to [END] is
    unconditional. *)
Definition step (c : config) : IO config :=
  match c with
  | Pending n state =>
    state' <- run_node n state ;;
    match n with
    | rebuild_notebook_node => Ret (Halted state')
    | _ => Ret (Routing state')
    end
  | Routing state =>
    let '(routed, answer) := route_cell_processing state in
    match conditional_edges answer with
    | Some (inl n) => Ret (Pending n (after_routing state routed))
    | Some (inr _) => Ret (Halted (after_routing state routed))
    | None => Ret (Crashed (Exn KeyError answer))
    end
  | Halted state => Ret c
  | Crashed e => Ret c
  end.

Fixpoint steps (n : nat) (c : config) : IO config :=
  match n with
  | O => Ret c
  | S n' => c' <- step c ;; steps n' c'
  end.

(** Modelled from the spec: [workflow.invoke(initial_state, config)], of the
    scheduler that is not in the source.  The graph runs from [START] until
    [END]; the scheduler raises when it gives up before.  How it counts its
    steps against [recursion_limit] is neither in the source nor in the
    specification: [rounds], the number of node executions, each followed by
    its routing decision, that it allows, is a parameter. *)
Definition invoke (rounds : nat) (initial_state : AgentState)
  : IO (result AgentState) :=
  c <- steps (2 * rounds)
             (Pending load_and_parse_notebook_node initial_state) ;;
  match c with
  | Halted final_state => Ret (Ok final_state)
  | Crashed e => Ret (Raise e)
  | _ => Ret (Raise (Exn GraphRecursionError
                       (lit "Recursion limit reached without hitting a stop condition")))
  end.

Definition initial_state (input_path target_language : str) : AgentState :=
  {| input_path := input_path;
     output_path := [];
     notebook_content := None;
     processed_cells := [];
     target_language := target_language;
     current_cell_index := 0;
     total_cells := 0;
     error_message := None |}.

(** What [run_notebook_translation] returns: the final state, or the dict
    built when the workflow raised. *)
Inductive translation_result :=
| FinalState (final_state : AgentState)
| ExecutionFailed (error_msg input_path target_language : str).

Definition result_error_message (r : translation_result) : option str :=
  match r with
  | FinalState s => error_message s
  | ExecutionFailed m _ _ => Some m
  end.

(** [config = {"recursion_limit": 100}] *)
Definition recursion_limit : nat := 100.

(** [run_notebook_translation], when the scheduler allows [rounds] node
    executions. *)
Definition run_notebook_translation_with (rounds : nat)
           (input_path target_language : str) : IO translation_result :=
  r <- invoke rounds (initial_state input_path target_language) ;;
  match r with
  | Ok final_state => Ret (FinalState final_state)
  | Raise e =>
    Ret (ExecutionFailed (lit "Workflow execution failed: " ++ exn_msg e)
                         input_path target_language)
  end.

(** [allowed] is the number of node executions the scheduler allows at a
    recursion limit. *)
Definition run_notebook_translation (allowed : nat -> nat)
           (input_path target_language : str) : IO translation_result :=
  run_notebook_translation_with (allowed recursion_limit)
                                input_path target_language.

End Graph.

End workflow.

(** ** Vocabulary of the properties *)

Module Props.

Import cell_processors.

(** A blank line: [line.strip() == ""]. *)
Definition blank (line : str) : bool := str_eqb (strip line) [].

(** A heading line: [line.startswith('#')]. *)
Definition heading (line : str) : bool := startswith (lit "#") line.

(** Any other line. *)
Definition plain (line : str) : bool := negb (blank line) && negb (heading line).

(** The rest of the lines is empty or starts with a separator. *)
Definition at_boundary (rest : list str) : bool :=
  match rest with
  | [] => true
  | l :: _ => blank l || heading l
  end.

(** What the loop over the lines computes, with the section being built as
    an argument. *)
Fixpoint sections_from (current : list str) (lines : list str)
  : list (list str) :=
  let flush := match current with [] => [] | _ => [current] end in
  match lines with
  | [] => flush
  | l :: rest =>
    if blank l then flush ++ sections_from [] rest
    else if heading l then flush ++ sections_from [l] rest
    else sections_from (current ++ [l]) rest
  end.

(** The end of the loop: the last section is added when there is one. *)
Definition finish (acc : list str * list (list str)) : list (list str) :=
  let '(current_section, sections) := acc in
  match current_section with
  | [] => sections
  | _ => sections ++ [current_section]
  end.

(** The shape of a section: a first line that is not blank, then plain
    lines only. *)
Definition section_shape (section : list str) : Prop :=
  match section with
  | [] => False
  | first :: others => blank first = false /\ forallb plain others = true
  end.




(** A cell of a type other than markdown and code. *)
Definition unsupported (cell : Cell) : bool :=
  negb (str_eqb (cell_type cell) (lit "markdown"))
  && negb (str_eqb (cell_type cell) (lit "code")).

End Props.

Module Run.

Import llm_client cell_processors notebook_io workflow Props.

(** The router's answer at a supported cell or at the end of the cells. *)
Definition answer_for (rest : list Cell) : str :=
  match rest with
  | [] => lit "rebuild_notebook"
  | c :: _ =>
    if str_eqb (cell_type c) (lit "markdown") then lit "process_markdown_cell"
    else lit "process_code_cell"
  end.

Definition node_for (rest : list Cell) : node :=
  match rest with
  | [] => rebuild_notebook_node
  | c :: _ =>
    if str_eqb (cell_type c) (lit "markdown") then process_markdown_cell_node
    else process_code_cell_node
  end.

(** [state] holds the loaded notebook [nb], records no error, and its index
    stands between the cells [before] and the cells [rest]. *)
Definition positioned (state : AgentState) (nb : Notebook)
           (before rest : list Cell) : Prop :=
  notebook_content state = Some nb
  /\ cells nb = before ++ rest
  /\ total_cells state = Z.of_nat (length (cells nb))
  /\ current_cell_index state = Z.of_nat (length before)
  /\ error_recorded state = false.

(** The rest of the cells is empty or starts with a markdown or code cell. *)
Definition at_supported (rest : list Cell) : bool :=
  match rest with
  | [] => true
  | c :: _ => negb (unsupported c)
  end.

(** The state a step starts from, when there is one. *)
Definition state_of (c : config) : option AgentState :=
  match c with
  | Pending _ s | Routing s | Halted s => Some s
  | Crashed _ => None
  end.

(** The number of cells of the document, none before it is loaded. *)
Definition cell_count (s : AgentState) : Z :=
  match notebook_content s with
  | Some nb => Z.of_nat (length (cells nb))
  | None => 0%Z
  end.

(** The observation points of a run in the environment [h]: the start, and
    every configuration a step leads to, whatever the world is then. *)
Inductive reachable {W} (h : handler W) (step : config -> IO config)
          (start : config) : config -> Prop :=
| reach_start : reachable h step start start
| reach_step (c : config) (w : W) :
    reachable h step start c ->
    reachable h step start (value_of (run h (step c) w)).

(** What the pipeline does to one cell, by its type. *)
Definition process_cell (py : PyLib) (client : LLMClient)
           (input_path target_language : str) (cell : Cell) : IO Cell :=
  if str_eqb (cell_type cell) (lit "markdown") then
    new_source_lines <-
      markdown_new_source py client (source cell) (Some input_path)
                          target_language ;;
    Ret (set_source cell (SrcList new_source_lines))
  else if str_eqb (cell_type cell) (lit "code") then
    new_source <-
      code_new_source (add_code_comments client) (source cell)
                      target_language ;;
    Ret (set_source cell new_source)
  else Ret cell.

(** [out] is the result of processing [cell] in the environment [h], from
    some state of the world. *)
Definition produced_from {W} (h : handler W) (py : PyLib)
           (client : LLMClient) (input_path target_language : str)
           (cell out : Cell) : Prop :=
  exists w : W,
    value_of (run h (process_cell py client input_path target_language cell) w)
    = out.

(** The index is the length of the output sequence, and lies between 0 and
    the number of cells. *)
Definition consistent (s : AgentState) : Prop :=
  current_cell_index s = Z.of_nat (length (processed_cells s))
  /\ (0 <= current_cell_index s <= cell_count s)%Z.

(** The index lies between 0 and the number of cells, and is not ahead of
    the output sequence. *)
Definition in_bounds (s : AgentState) : Prop :=
  (0 <= current_cell_index s <= cell_count s)%Z
  /\ (current_cell_index s <= Z.of_nat (length (processed_cells s)))%Z.

(** From [s] to [s'] nothing was appended and the index stayed, or one cell
    was appended and the index advanced by one. *)
Definition advance (s s' : AgentState) : Prop :=
  (processed_cells s' = processed_cells s
   /\ current_cell_index s' = current_cell_index s)
  \/ (exists cell,
         processed_cells s' = processed_cells s ++ [cell]
         /\ current_cell_index s' = (current_cell_index s + 1)%Z).

(** From [s] to [s'] one cell was appended and the index stayed. *)
Definition appended_only (s s' : AgentState) : Prop :=
  exists cell,
    processed_cells s' = processed_cells s ++ [cell]
    /\ current_cell_index s' = current_cell_index s.

(** What a node other than the loader, or the router, can make of a state:
    leave it, record an error, copy or append one cell and advance, or do
    that and then record an error. *)
Inductive outcome (s : AgentState) : AgentState -> Prop :=
| out_same : outcome s s
| out_error (m : str) : outcome s (set_error_message s (Some m))
| out_append (c : Cell) :
    (current_cell_index s < cell_count s)%Z ->
    outcome s (append_and_advance s c)
| out_append_error (c : Cell) (m : str) :
    (current_cell_index s < cell_count s)%Z ->
    outcome s (set_error_message (append_and_advance s c) (Some m)).

(** The invariant of a configuration: the index of its state is in bounds
    and its [total_cells] is the number of cells; the loader starts from an
    empty output. *)
Definition sound (c : config) : Prop :=
  match c with
  | Crashed _ => True
  | Pending n s =>
    in_bounds s /\ total_cells s = cell_count s
    /\ match n with
       | load_and_parse_notebook_node => processed_cells s = []
       | _ => True
       end
  | Routing s | Halted s => in_bounds s /\ total_cells s = cell_count s
  end.

(** What a step of the scheduler does to the output and the index: a node
    leaves them or appends one cell and advances; the router leaves them or
    appends one cell, the index staying. *)
Definition moves (c : config) (s s' : AgentState) : Prop :=
  match c with
  | Routing _ => advance s s' /\ current_cell_index s' = current_cell_index s
                 \/ appended_only s s'
  | _ => advance s s'
  end.

Section Track.

Context {W : Type}.
Variable h : handler W.
Variable py : PyLib.
Variable client : LLMClient.
Variable input target : str.
Variable nb : Notebook.

(** The loaded notebook is [nb], the cells [done] have been processed into
    the output sequence, in order, and the cells [rest] remain. *)
Definition progress (done rest : list Cell) (s : AgentState) : Prop :=
  positioned s nb done rest
  /\ input_path s = input
  /\ target_language s = target
  /\ error_message s = None
  /\ Forall2 (produced_from h py client input target)
             done (processed_cells s).

Definition read_event : event := Event (NbformatRead input) (Ok nb).

Definition write_event (s : AgentState) : event :=
  Event (NbformatWrite (set_cells nb (processed_cells s)) (output_path s))
        (Ok tt).

(** The invariant of a run after the notebook was read, with the calls made
    so far: an error is recorded, or the cells up to the index have been
    processed in order; the rebuild is reached only past the last cell, the
    skip node only at an unsupported cell, and the graph ends right after
    the notebook was written. *)
Definition on_track (c : config) (calls : list event) : Prop :=
  match c with
  | Crashed _ => True
  | Pending load_and_parse_notebook_node _ => False
  | Pending n s =>
    error_message s <> None
    \/ (In read_event calls
        /\ exists done rest,
            progress done rest s
            /\ match n with
               | rebuild_notebook_node => rest = []
               | skip_unsupported_cell_node => at_supported rest = false
               | _ => True
               end)
  | Routing s =>
    error_message s <> None
    \/ (In read_event calls /\ exists done rest, progress done rest s)
  | Halted s =>
    error_message s <> None
    \/ (In read_event calls
        /\ progress (cells nb) [] s
        /\ exists earlier, calls = earlier ++ [write_event s])
  end.

End Track.

End Run.


(** ** What holds of every result of a program *)

(** [always P m]: whatever the world answers, [m] returns a value in [P]. *)
Fixpoint always {A} (P : A -> Prop) (m : IO A) : Prop :=
  match m with
  | Ret a => P a
  | Vis e k => forall x, always P (k x)
  end.

(** ** A simulated world, for the examples *)

Module Sim.

Import llm_client notebook_io.

(** ASCII lower-casing. *)
Definition ascii_lower (s : str) : str :=
  map (fun c => if ((65 <=? c) && (c <=? 90))%N then (c + 32)%N else c) s.

(** The index of the last slash, plus one. *)
Fixpoint after_last_slash (s : str) : nat :=
  match s with
  | [] => 0
  | c :: t =>
    match after_last_slash t with
    | O => if char_eqb c 47%N then 1 else 0
    | S n => S (S n)
    end
  end.

Fixpoint rstrip_slashes (s : str) : str :=
  match s with
  | [] => []
  | c :: t =>
    match rstrip_slashes t with
    | [] => if char_eqb c 47%N then [] else [c]
    | t' => c :: t'
    end
  end.

(** [posixpath.dirname] *)
Definition posix_dirname (p : str) : str :=
  let head := firstn (after_last_slash p) p in
  match rstrip_slashes head with
  | [] => head
  | stripped => stripped
  end.

(** [posixpath.join] of two parts *)
Definition posix_join (a b : str) : str :=
  if startswith (lit "/") b then b
  else if negb (truthy a) || endswith (lit "/") a then a ++ b
  else a ++ lit "/" ++ b.

Definition b64_value (c : char) : option N :=
  if ((65 <=? c) && (c <=? 90))%N then Some (c - 65)%N
  else if ((97 <=? c) && (c <=? 122))%N then Some (c - 71)%N
  else if ((48 <=? c) && (c <=? 57))%N then Some (c + 4)%N
  else if (c =? 43)%N then Some 62%N
  else if (c =? 47)%N then Some 63%N
  else None.

Definition b64_error : exn := Exn OtherError (lit "Incorrect padding").

(** Base64 decoding of canonical input (full quads, padded). *)
Fixpoint strict_b64decode (s : str) : result bytes :=
  match s with
  | [] => Ok []
  | a :: b :: c :: d :: rest =>
    match b64_value a, b64_value b with
    | Some x, Some y =>
      let b0 := (x * 4 + y / 16)%N in
      match b64_value c, b64_value d with
      | Some z, Some u =>
        match strict_b64decode rest with
        | Ok tl => Ok (b0 :: ((y mod 16) * 16 + z / 4) :: ((z mod 4) * 64 + u)
                          :: tl)%N
        | Raise e => Raise e
        end
      | Some z, None =>
        match rest with
        | [] => if (d =? 61)%N then Ok [b0; ((y mod 16) * 16 + z / 4)%N]
                else Raise b64_error
        | _ => Raise b64_error
        end
      | None, _ =>
        match rest with
        | [] => if ((c =? 61) && (d =? 61))%N then Ok [b0]
                else Raise b64_error
        | _ => Raise b64_error
        end
      end
    | _, _ => Raise b64_error
    end
  | _ => Raise b64_error
  end.

Definition b64_char (v : N) : char :=
  if (v <? 26)%N then (v + 65)%N
  else if (v <? 52)%N then (v + 71)%N
  else if (v <? 62)%N then (v - 4)%N
  else if (v =? 62)%N then 43%N else 47%N.

Fixpoint strict_b64encode (bs : bytes) : str :=
  match bs with
  | [] => []
  | [x] => [b64_char (x / 4); b64_char ((x mod 4) * 16); 61; 61]%N
  | [x; y] =>
    [b64_char (x / 4); b64_char ((x mod 4) * 16 + y / 16);
     b64_char ((y mod 16) * 4); 61]%N
  | x :: y :: z :: rest =>
    [b64_char (x / 4); b64_char ((x mod 4) * 16 + y / 16);
     b64_char ((y mod 16) * 4 + z / 64); b64_char (z mod 64)]%N
      ++ strict_b64encode rest
  end.

Definition py : PyLib :=
  {| b64decode := strict_b64decode;
     b64encode := strict_b64encode;
     lower := ascii_lower;
     os_path_dirname := posix_dirname;
     os_path_join := posix_join |}.

(** [pathlib] for paths with a directory part and one suffix. *)
Definition basename (p : str) : str := skipn (after_last_slash p) p.

Fixpoint after_last_dot (s : str) : nat :=
  match s with
  | [] => 0
  | c :: t =>
    match after_last_dot t with
    | O => if char_eqb c 46%N then 1 else 0
    | S n => S (S n)
    end
  end.

Definition pl : PathLib :=
  {| path_parent_div := fun p name => posix_join (posix_dirname p) name;
     path_stem := fun p =>
       let b := basename p in
       match after_last_dot b with
       | O => b
       | S n => firstn n b
       end;
     path_suffix := fun p =>
       let b := basename p in
       match after_last_dot b with
       | O => []
       | S n => skipn n b
       end |}.

Definition client : LLMClient :=
  {| model_name := lit "google/gemini-2.5-flash-preview-05-20" |}.

(** The world: what the model and the network answer, the files and
    notebooks on disk, the working directory, and the notebooks written. *)
Record World := {
  chat : chat_request -> result (option str);
  http : str -> result http_response;
  files : list (str * bytes);
  notebooks : list (str * Notebook);
  cwd : str;
  written : list (str * Notebook)
}.

Fixpoint lookup {A} (table : list (str * A)) (key : str) : option A :=
  match table with
  | [] => None
  | (k, v) :: rest => if str_eqb k key then Some v else lookup rest key
  end.

Definition not_found (p : str) : exn :=
  Exn FileNotFoundError (lit "No such file or directory: " ++ p).

Definition answer : handler World :=
  fun X (e : Eff X) =>
    match e in Eff X return World -> X * World with
    | ChatCompletion req => fun w => (chat w req, w)
    | RequestsGet url timeout => fun w => (http w url, w)
    | PathExists p => fun w =>
        (match lookup (files w) p, lookup (notebooks w) p with
         | None, None => false
         | _, _ => true
         end, w)
    | ReadBinary p => fun w =>
        (match lookup (files w) p with
         | Some b => Ok b
         | None => Raise (not_found p)
         end, w)
    | AbsPath p => fun w =>
        (if startswith (lit "/") p then p else posix_join (cwd w) p, w)
    | NbformatRead p => fun w =>
        (match lookup (notebooks w) p with
         | Some nb => Ok nb
         | None => Raise (not_found p)
         end, w)
    | MkdirParent p => fun w => (Ok tt, w)
    | NbformatWrite nb p => fun w =>
        (Ok tt,
         {| chat := chat w; http := http w; files := files w;
            notebooks := notebooks w; cwd := cwd w;
            written := written w ++ [(p, nb)] |})
    end.

(** A world whose model is unreachable and whose disk holds the given
    notebooks and files. *)
Definition offline (nbs : list (str * Notebook)) (fs : list (str * bytes))
  : World :=
  {| chat := fun _ => Raise (Exn OtherError (lit "Connection error."));
     http := fun _ => Raise (Exn OtherError (lit "Connection error."));
     files := fs; notebooks := nbs; cwd := lit "/work"; written := [] |}.

(** A world whose model answers every request with [reply]. *)
Definition replying (reply : str) (nbs : list (str * Notebook))
           (fs : list (str * bytes)) : World :=
  {| chat := fun _ => Ok (Some reply);
     http := fun _ => Raise (Exn OtherError (lit "Connection error."));
     files := fs; notebooks := nbs; cwd := lit "/work"; written := [] |}.

Definition markdown_cell (src : Source) : Cell :=
  {| cell_type := lit "markdown"; source := src; cell_rest := [] |}.

Definition code_cell (src : Source) : Cell :=
  {| cell_type := lit "code"; source := src; cell_rest := [] |}.

Definition raw_cell (src : Source) : Cell :=
  {| cell_type := lit "raw"; source := src; cell_rest := [] |}.

Definition notebook_of (cs : list Cell) : Notebook :=
  {| cells := cs; nb_rest := [] |}.

(** The state after loading [cs], about to process the cell at [i]. *)
Definition loaded (cs : list Cell) (done : list Cell) (i : Z) : AgentState :=
  {| input_path := lit "/work/nb.ipynb";
     output_path := lit "/work/nb_translated.ipynb";
     notebook_content := Some (notebook_of cs);
     processed_cells := done;
     target_language := lit "Chinese";
     current_cell_index := i;
     total_cells := Z.of_nat (length cs);
     error_message := None |}.

End Sim.

(** ** [config.py]: [Config.validate_config], and [LLMClient.__init__] *)

Module config_env.

(** The three class attributes, each the value of [os.getenv]: [None] when
    the variable is unset. *)
Record Config := {
  API_KEY : option str;
  MODEL_NAME : option str;
  MODEL_BASE_URL : option str
}.

(** [not value] for an optional string *)
Definition unset (value : option str) : bool :=
  match value with
  | None => true
  | Some s => negb (truthy s)
  end.

(** The list [missing_vars] as the three tests fill it. *)
Definition missing_vars (cls : Config) : list str :=
  (if unset (API_KEY cls) then [lit "API_KEY"] else [])
    ++ (if unset (MODEL_NAME cls) then [lit "MODEL_NAME"] else [])
    ++ (if unset (MODEL_BASE_URL cls) then [lit "MODEL_BASE_URL"] else []).

(** [validate_config]: [True], or the [ValueError] with its message (the
    exception is tagged [OtherError]). *)
Definition validate_config (cls : Config) : result bool :=
  let missing_vars := missing_vars cls in
  match missing_vars with
  | _ :: _ =>
    let error_msg :=
      lit "Missing environment variables: " ++ join (lit ", ") missing_vars
          ++ [NL] in
    let error_msg :=
      error_msg ++ lit "Please create a .env file with the following content:"
                ++ [NL; NL] in
    let error_msg := error_msg ++ lit "API_KEY=your_openrouter_api_key" ++ [NL] in
    let error_msg :=
      error_msg ++ lit "MODEL_NAME=google/gemini-2.5-flash-preview-05-20"
                ++ [NL] in
    let error_msg :=
      error_msg ++ lit "MODEL_BASE_URL=https://openrouter.ai/api/v1"
                ++ [NL; NL] in
    let error_msg :=
      error_msg
        ++ lit "You can copy env_example.txt to .env and edit it with your API key." in
    Raise (Exn OtherError error_msg)
  | [] => Ok true
  end.

(** [LLMClient.__init__]: the configuration is validated first, then the
    client of the library is built from the key and the base URL; the model
    name is [Config.MODEL_NAME or "google/..."].  [OpenAI], the constructor
    of the library, is a parameter: it may raise.  The object it builds is
    the far end of the [ChatCompletion] call. *)
Definition LLMClient_init (OpenAI : option str -> option str -> result unit)
           (cls : Config) : result llm_client.LLMClient :=
  match validate_config cls with
  | Raise e => Raise e
  | Ok _ =>
    match OpenAI (API_KEY cls) (MODEL_BASE_URL cls) with
    | Raise e => Raise e
    | Ok _ =>
      Ok {| llm_client.model_name :=
              match MODEL_NAME cls with
              | Some name =>
                if truthy name then name
                else lit "google/gemini-2.5-flash-preview-05-20"
              | None => lit "google/gemini-2.5-flash-preview-05-20"
              end |}
    end
  end.

End config_env.

(** ** [notebook_io.py]: [validate_notebook_structure] *)

Module notebook_validation.

#[local] Set Warnings "-register-all".

(** The values a parsed notebook is made of. *)
Inductive pyval :=
| PNone
| PBool (b : bool)
| PInt (z : Z)
| PFloat (repr : str)
| PStr (s : str)
| PList (items : list pyval)
| PDict (entries : list (str * pyval)).

(** [needle in hay] for two strings: a substring test *)
Fixpoint contains (needle hay : str) : bool :=
  startswith needle hay
  || match hay with
     | [] => false
     | _ :: t => contains needle t
     end.

(** The first binding of a key; a dict binds a key once. *)
Fixpoint dict_lookup (entries : list (str * pyval)) (key : str)
  : option pyval :=
  match entries with
  | [] => None
  | (k, v) :: rest => if str_eqb k key then Some v else dict_lookup rest key
  end.

(** [key in container] for a string [key]: a key of a dict, an element of a
    list, a substring of a string; [TypeError] ([None]) on anything else. *)
Definition py_in (key : str) (container : pyval) : option bool :=
  match container with
  | PDict entries =>
    Some (match dict_lookup entries key with Some _ => true | None => false end)
  | PList items =>
    Some (existsb (fun item => match item with
                               | PStr s => str_eqb s key
                               | _ => false
                               end) items)
  | PStr s => Some (contains key s)
  | _ => None
  end.

(** [container['cells']]: the value under the key of a dict, an exception
    ([None]) on a missing key and on a list or a string (whose indices are
    integers) as on any other value. *)
Definition py_getitem_str (container : pyval) (key : str) : option pyval :=
  match container with
  | PDict entries => dict_lookup entries key
  | _ => None
  end.

Definition required_fields : list str :=
  [lit "cells"; lit "metadata"; lit "nbformat"; lit "nbformat_minor"].

(** The loop over [required_fields]: [Some true] when every field is there,
    [Some false] at the first missing one, [None] when the test raises. *)
Fixpoint fields_present (fields : list str) (notebook_content : pyval)
  : option bool :=
  match fields with
  | [] => Some true
  | field :: rest =>
    match py_in field notebook_content with
    | None => None
    | Some false => Some false
    | Some true => fields_present rest notebook_content
    end
  end.

(** The loop over the cells, with the same three outcomes. *)
Fixpoint cells_have_fields (cells : list pyval) : option bool :=
  match cells with
  | [] => Some true
  | cell :: rest =>
    match py_in (lit "cell_type") cell with
    | None => None
    | Some false => Some false
    | Some true =>
      match py_in (lit "source") cell with
      | None => None
      | Some false => Some false
      | Some true => cells_have_fields rest
      end
    end
  end.

(** [validate_notebook_structure]; every exception is answered [False]. *)
Definition validate_notebook_structure (notebook_content : pyval) : bool :=
  match fields_present required_fields notebook_content with
  | None => false
  | Some false => false
  | Some true =>
    match py_getitem_str notebook_content (lit "cells") with
    | None => false
    | Some (PList cells) =>
      match cells_have_fields cells with
      | None => false
      | Some b => b
      end
    | Some _ => false
    end
  end.

End notebook_validation.

(** ** More vocabulary *)

Module More.

Import cell_processors Props.

(** [a] is [b] with some elements left out. *)
Inductive subseq {A : Type} : list A -> list A -> Prop :=
| subseq_nil : subseq [] []
| subseq_skip (x : A) (a b : list A) : subseq a b -> subseq a (x :: b)
| subseq_take (x : A) (a b : list A) : subseq a b -> subseq (x :: a) (x :: b).

(** The text of an image reference. *)
Definition image_markup (alt_text src : str) : str :=
  lit "![" ++ alt_text ++ lit "](" ++ src ++ lit ")".

(** A call that writes a notebook. *)
Definition eff_is_write {X} (e : Eff X) : bool :=
  match e with
  | NbformatWrite _ _ => true
  | _ => false
  end.

Definition is_write (ev : event) : bool :=
  match ev with
  | Event e _ => eff_is_write e
  end.

(** No notebook was written in these calls. *)
Definition no_write (calls : list event) : Prop :=
  forallb (fun ev => negb (is_write ev)) calls = true.

(** An answer of the model the gateway cannot use: the call raised, or the
    content is [None] or empty. *)
Definition unusable (answer : result (option str)) : bool :=
  match answer with
  | Raise _ => true
  | Ok None => true
  | Ok (Some content) => negb (truthy content)
  end.

(** The lines a section becomes when its translation is the section text
    itself. *)
Definition section_with_own_text (label : str) (section : list str)
  : list str :=
  section
    ++ (if has_text section
        then [ []; lit "**" ++ label ++ lit "：**"; join [NL] section ]
        else [])
    ++ [[]].

(** Every call a program can make satisfies [P]. *)
Fixpoint emits {A} (P : forall X, Eff X -> Prop) (m : IO A) : Prop :=
  match m with
  | Ret _ => True
  | Vis e k => P _ e /\ forall x, emits P (k x)
  end.

(** At a cell, a processor appends one cell or records an error. *)
Definition moved_on (s s' : AgentState) : Prop :=
  error_recorded s' = true \/ exists out, s' = append_and_advance s out.

(** The notebook a call answered, when the call is a successful read. *)
Definition notebook_read (ev : event) : option Notebook :=
  match ev with
  | Event e x =>
    match e in Eff X return X -> option Notebook with
    | NbformatRead _ =>
      fun r => match r with Ok nb => Some nb | Raise _ => None end
    | _ => fun _ => None
    end x
  end.

(** What processing leaves of a cell: its type and every field other than
    the source. *)
Definition kept (c out : Cell) : Prop :=
  cell_type out = cell_type c /\ cell_rest out = cell_rest c.

(** A program that makes no call writing a notebook. *)
Definition quiet {A} (m : IO A) : Prop :=
  emits (fun X (e : Eff X) => eff_is_write e = false) m.

(** No error is recorded, or the recorded message counts as one (it is
    not empty). *)
Definition tidy (s : AgentState) : Prop :=
  error_message s = None \/ error_recorded s = true.

Definition halted (c : workflow.config) : bool :=
  match c with
  | workflow.Halted _ => true
  | _ => false
  end.

Definition crashed (c : workflow.config) : bool :=
  match c with
  | workflow.Crashed _ => true
  | _ => false
  end.

(** [c] reaches [END] within [k] steps, for the loaded notebook [nb]: a
    node and a routing decision for every remaining cell, then the routing
    to the rebuild and the rebuild itself. *)
Definition within (nb : Notebook) (c : workflow.config) (k : nat) : Prop :=
  match c with
  | workflow.Halted _ => True
  | workflow.Crashed _ => False
  | workflow.Routing s =>
    (error_recorded s = true /\ 1 <= k)
    \/ (exists done rest,
           Run.positioned s nb done rest /\ 2 * length rest + 2 <= k)
  | workflow.Pending n s =>
    match n with
    | workflow.load_and_parse_notebook_node => False
    | workflow.rebuild_notebook_node => 1 <= k
    | _ =>
      exists done c more,
        Run.positioned s nb done (c :: more)
        /\ 2 * length (c :: more) + 1 <= k
    end
  end.

(** The calls of a run so far, for its configuration: no notebook was
    written before [END]; at [END] either none was written and an error is
    recorded, or the last call is the one write, which succeeded exactly
    when no error is recorded. *)
Definition write_discipline (c : workflow.config) (calls : list event)
  : Prop :=
  match c with
  | workflow.Halted s =>
    (no_write calls /\ error_message s <> None)
    \/ (exists earlier nb p answer,
           calls = earlier ++ [Event (NbformatWrite nb p) answer]
           /\ no_write earlier
           /\ (answer = Ok tt <-> error_message s = None))
  | workflow.Pending _ s | workflow.Routing s => no_write calls /\ tidy s
  | workflow.Crashed _ => no_write calls
  end.

End More.

(** The simulated world with the model out of reach, whatever the world
    holds: every chat call raises, every other call is answered as before. *)
Module Offline.

Definition answer : handler Sim.World :=
  fun X (e : Eff X) =>
    match e in Eff X return Sim.World -> X * Sim.World with
    | ChatCompletion req =>
      fun w => (Raise (Exn OtherError (lit "Connection error.")), w)
    | RequestsGet url timeout => Sim.answer _ (RequestsGet url timeout)
    | PathExists p => Sim.answer _ (PathExists p)
    | ReadBinary p => Sim.answer _ (ReadBinary p)
    | AbsPath p => Sim.answer _ (AbsPath p)
    | NbformatRead p => Sim.answer _ (NbformatRead p)
    | MkdirParent p => Sim.answer _ (MkdirParent p)
    | NbformatWrite nb p => Sim.answer _ (NbformatWrite nb p)
    end.

End Offline.

(** * Properties *)

(** ** Strings *)

Section StringFacts.

Lemma char_eqb_eq (a b : char) : char_eqb a b = true <-> a = b.
Proof. unfold char_eqb. apply N.eqb_eq. Qed.

Lemma str_eqb_eq (a b : str) : str_eqb a b = true <-> a = b.
Proof.
  revert b. induction a as [|x a IH]; intros [|y b]; simpl;
    try (split; [discriminate | discriminate]); try tauto.
  rewrite andb_true_iff, char_eqb_eq, IH. split.
  - intros [-> ->]. reflexivity.
  - intros H. inversion H. auto.
Qed.

Lemma str_eqb_refl (a : str) : str_eqb a a = true.
Proof. apply str_eqb_eq. reflexivity. Qed.

Lemma startswith_app (p rest : str) : startswith p (p ++ rest) = true.
Proof.
  induction p as [|x p IH]; simpl; [reflexivity|].
  rewrite IH. unfold char_eqb. rewrite N.eqb_refl. reflexivity.
Qed.

Lemma startswith_split (p s : str) :
  startswith p s = true -> s = p ++ skipn (length p) s.
Proof.
  revert s. induction p as [|x p IH]; intros s H; simpl in *; [reflexivity|].
  destruct s as [|y s]; [discriminate|].
  apply andb_true_iff in H. destruct H as [Hc Hs].
  apply char_eqb_eq in Hc. subst y. simpl. f_equal. apply IH. exact Hs.
Qed.

Lemma startswith_prefix (p q s : str) :
  startswith (p ++ q) s = true -> startswith p s = true.
Proof.
  revert s. induction p as [|x p IH]; intros s H; simpl in *; [reflexivity|].
  destruct s as [|y s]; [discriminate|].
  apply andb_true_iff in H. destruct H as [Hc Hs].
  rewrite Hc. simpl. eapply IH. exact Hs.
Qed.


Lemma lstrip_idem (s : str) : lstrip (lstrip s) = lstrip s.
Proof.
  induction s as [|c t IH]; simpl; [reflexivity|].
  destruct (isspace c) eqn:E; [exact IH|]. simpl. rewrite E. reflexivity.
Qed.

Lemma rstrip_idem (s : str) : rstrip (rstrip s) = rstrip s.
Proof.
  induction s as [|c t IH]; simpl; [reflexivity|].
  destruct (rstrip t) as [|d t'] eqn:E.
  - destruct (isspace c) eqn:Ec; simpl; [reflexivity|]. rewrite Ec. reflexivity.
  - change (rstrip (c :: d :: t')) with
      (match rstrip (d :: t') with
       | [] => if isspace c then [] else [c]
       | x :: l => c :: x :: l
       end).
    rewrite IH. reflexivity.
Qed.

(** A string that starts with a visible character keeps it under [rstrip]. *)
Lemma rstrip_head (c : char) (t : str) :
  isspace c = false -> exists t', rstrip (c :: t) = c :: t'.
Proof.
  intros Hc. simpl. destruct (rstrip t) as [|d t'].
  - rewrite Hc. exists []. reflexivity.
  - exists (d :: t'). reflexivity.
Qed.

Lemma lstrip_head (s : str) :
  lstrip s = [] \/ exists c t, lstrip s = c :: t /\ isspace c = false.
Proof.
  induction s as [|c t IH]; simpl; [left; reflexivity|].
  destruct (isspace c) eqn:E; [exact IH|].
  right. exists c, t. split; [reflexivity | exact E].
Qed.

Lemma lstrip_strip (s : str) : lstrip (strip s) = strip s.
Proof.
  unfold strip. destruct (lstrip_head s) as [E | (c & t & E & Hc)].
  - rewrite E. reflexivity.
  - rewrite E. destruct (rstrip_head c t Hc) as [t' Ht]. rewrite Ht.
    simpl. rewrite Hc. reflexivity.
Qed.

Lemma strip_idem (s : str) : strip (strip s) = strip s.
Proof.
  unfold strip at 1. rewrite lstrip_strip. unfold strip.
  apply rstrip_idem.
Qed.




End StringFacts.

(** ** Programs *)

Section Programs.

Lemma run_bind {W A B} (h : handler W) (m : IO A) (f : A -> IO B) (w : W) :
  run h (bind m f) w =
  let '(a, w1, t1) := run h m w in
  let '(b, w2, t2) := run h (f a) w1 in
  (b, w2, t1 ++ t2).
Proof.
  revert w. induction m as [a | X e k IH]; intros w; simpl.
  - destruct (run h (f a) w) as [[b w2] t2]. reflexivity.
  - destruct (h X e w) as [x w1]. rewrite IH.
    destruct (run h (k x) w1) as [[a w2] t1].
    destruct (run h (f a) w2) as [[b w3] t2]. reflexivity.
Qed.

Lemma always_run {W A} (P : A -> Prop) (h : handler W) (m : IO A) :
  always P m -> forall w, P (value_of (run h m w)).
Proof.
  induction m as [a | X e k IH]; simpl; intros H w; [exact H|].
  destruct (h X e w) as [x w1]. specialize (IH x (H x) w1).
  destruct (run h (k x) w1) as [[a w2] tr]. exact IH.
Qed.

Lemma always_bind {A B} (Q : B -> Prop) (m : IO A) (f : A -> IO B) :
  always (fun a => always Q (f a)) m -> always Q (bind m f).
Proof.
  induction m as [a | X e k IH]; simpl; intros H; [exact H|].
  intros x. apply IH. apply H.
Qed.

Lemma always_weaken {A} (P Q : A -> Prop) (m : IO A) :
  (forall a, P a -> Q a) -> always P m -> always Q m.
Proof.
  intros HPQ. induction m as [a | X e k IH]; simpl; intros H.
  - apply HPQ. exact H.
  - intros x. apply IH. apply H.
Qed.

Lemma always_call {X} (P : X -> Prop) (e : Eff X) :
  (forall x, P x) -> always P (call e).
Proof. intros H x. apply H. Qed.

End Programs.

(** ** The clean-up of a code-block wrapping ([process_code_cell]) *)

Section CodeFences.

Lemma strip_code_fences_trimmed (response : str) :
  strip (strip_code_fences response) = strip_code_fences response.
Proof. unfold strip_code_fences. apply strip_idem. Qed.



(** C8, as the code has it: stripping again leaves an output unchanged when
    that output neither starts nor ends with a fence. *)
Theorem C8_strip_code_fences_stable_without_fence :
  forall response : str,
    let s := strip_code_fences response in
    startswith (lit "```") s = false ->
    endswith (lit "```") s = false ->
    strip_code_fences s = s.
Proof.
  intros response s Hstart Hend.
  assert (Hs : strip s = s) by apply strip_code_fences_trimmed.
  unfold strip_code_fences. rewrite Hs.
  assert (Hpy : startswith (lit "```python") s = false).
  { destruct (startswith (lit "```python") s) eqn:E; [|reflexivity].
    change (lit "```python") with (lit "```" ++ lit "python") in E.
    apply startswith_prefix in E. congruence. }
  rewrite Hpy, Hstart, Hend. exact Hs.
Qed.

Lemma C8_strip_code_fences_stable_witness :
  let s := strip_code_fences (lit "```python" ++ [NL] ++ lit "x = 1" ++ [NL]
                                ++ lit "```") in
  s = lit "x = 1" /\ strip_code_fences s = s.
Proof.
  split; [reflexivity|].
  apply (C8_strip_code_fences_stable_without_fence
           (lit "```python" ++ [NL] ++ lit "x = 1" ++ [NL] ++ lit "```"));
    reflexivity.
Defined.

(** C8 as stated fails: the output for a doubly wrapped answer is itself
    wrapped, and stripping it again changes it. *)
Lemma C8_double_wrapping_not_stable :
  let response :=
    lit "```" ++ [NL] ++ lit "```" ++ [NL] ++ lit "x = 1" ++ [NL]
      ++ lit "```" ++ [NL] ++ lit "```" in
  let s := strip_code_fences response in
  s = lit "```" ++ [NL] ++ lit "x = 1" ++ [NL] ++ lit "```"
  /\ strip_code_fences s = lit "x = 1"
  /\ strip_code_fences s <> s.
Proof. split; [reflexivity|]. split; [reflexivity | discriminate]. Qed.

End CodeFences.

(** ** Sections of a markdown cell *)

Section Sections.

Import cell_processors Props.

Lemma heading_not_blank (l : str) : heading l = true -> blank l = false.
Proof.
  unfold heading, blank. destruct l as [|c t]; [discriminate|].
  intros H. apply startswith_split in H. inversion H; subst c.
  unfold strip. simpl lstrip.
  destruct (rstrip_head 35%N t eq_refl) as [t' Ht].
  rewrite Ht. reflexivity.
Qed.

Lemma blank_truthy (l : str) : truthy (strip l) = negb (blank l).
Proof. unfold blank. destruct (strip l); reflexivity. Qed.

Lemma group_line_cases (current : list str) (sections : list (list str))
      (l : str) :
  group_line (current, sections) l =
  let flushed := match current with [] => sections | _ => sections ++ [current] end in
  if blank l then ([], flushed)
  else if heading l then ([l], flushed)
  else (current ++ [l], sections).
Proof.
  unfold group_line. rewrite blank_truthy. fold (blank l). fold (heading l).
  destruct (blank l) eqn:Hb; simpl.
  - destruct current; reflexivity.
  - destruct (heading l); simpl; [|reflexivity].
    destruct current; reflexivity.
Qed.

Lemma group_loop (lines : list str) :
  forall current sections,
    finish (fold_left group_line lines (current, sections))
    = sections ++ sections_from current lines.
Proof.
  induction lines as [|l rest IH]; intros current sections.
  - simpl. destruct current; [rewrite app_nil_r|]; reflexivity.
  - cbn [fold_left]. rewrite group_line_cases. cbn zeta.
    cbn [sections_from].
    destruct (blank l) eqn:Hb; [|destruct (heading l) eqn:Hh];
      rewrite IH; [| |reflexivity];
      destruct current as [|c cs]; try rewrite <- app_assoc; reflexivity.
Qed.

Lemma group_sections_from (lines : list str) :
  group_sections lines = sections_from [] lines.
Proof.
  unfold group_sections.
  change (sections_from [] lines) with ([] ++ sections_from [] lines).
  rewrite <- group_loop.
  destruct (fold_left group_line lines ([], [])) as [cur secs]. reflexivity.
Qed.

Lemma sections_from_concat (lines : list str) :
  forall current,
    concat (sections_from current lines)
    = current ++ filter (fun l => negb (blank l)) lines.
Proof.
  induction lines as [|l rest IH]; intros current.
  - simpl. destruct current; simpl; rewrite ?app_nil_r; reflexivity.
  - cbn [sections_from filter].
    destruct (blank l) eqn:Hb; [|destruct (heading l) eqn:Hh]; cbn [negb].
    + rewrite concat_app, IH. destruct current; simpl;
        rewrite ?app_nil_r; reflexivity.
    + rewrite concat_app, IH. destruct current; simpl;
        rewrite ?app_nil_r; reflexivity.
    + rewrite IH, <- app_assoc. reflexivity.
Qed.

Lemma section_shape_snoc (current : list str) (l : str) :
  section_shape current -> plain l = true -> section_shape (current ++ [l]).
Proof.
  destruct current as [|first others]; [intros []|].
  simpl. intros [Hf Ho] Hl. split; [exact Hf|].
  rewrite forallb_app, Ho. simpl. rewrite Hl. reflexivity.
Qed.

Lemma sections_from_shape (lines : list str) :
  forall current,
    current = [] \/ section_shape current ->
    Forall section_shape (sections_from current lines).
Proof.
  assert (Hflush : forall current,
             current = [] \/ section_shape current ->
             Forall section_shape
                    match current with [] => [] | _ => [current] end).
  { intros current [-> | H]; [constructor|].
    destruct current; [destruct H|]. constructor; [exact H | constructor]. }
  induction lines as [|l rest IH]; intros current Hc.
  - simpl. apply Hflush. exact Hc.
  - cbn [sections_from].
    destruct (blank l) eqn:Hb; [|destruct (heading l) eqn:Hh].
    + apply Forall_app. split; [apply Hflush; exact Hc|].
      apply IH. left. reflexivity.
    + apply Forall_app. split; [apply Hflush; exact Hc|].
      apply IH. right. simpl. split; [exact Hb | reflexivity].
    + apply IH. right. destruct Hc as [-> | Hc].
      * simpl. split; [exact Hb | reflexivity].
      * apply section_shape_snoc; [exact Hc|].
        unfold plain. rewrite Hb, Hh. reflexivity.
Qed.

(** A run of plain lines up to a separator, or to the end, closes the
    section being built. *)
Lemma sections_from_run (run rest : list str) :
  forall current,
    current <> [] ->
    forallb plain run = true ->
    at_boundary rest = true ->
    sections_from current (run ++ rest)
    = (current ++ run) :: sections_from [] rest.
Proof.
  induction run as [|l run IH]; intros current Hne Hrun Hrest.
  - rewrite app_nil_r. simpl app.
    destruct rest as [|b rest].
    + simpl. destruct current; [contradiction | reflexivity].
    + cbn [sections_from]. simpl in Hrest.
      destruct (blank b) eqn:Hb.
      * destruct current; [contradiction | reflexivity].
      * simpl in Hrest. rewrite Hrest.
        destruct current; [contradiction | reflexivity].
  - simpl in Hrun. apply andb_true_iff in Hrun. destruct Hrun as [Hl Hrun].
    unfold plain in Hl. apply andb_true_iff in Hl. destruct Hl as [Hb Hh].
    apply negb_true_iff in Hb. apply negb_true_iff in Hh.
    simpl app. cbn [sections_from]. rewrite Hb, Hh.
    rewrite IH; [|destruct current; discriminate | exact Hrun | exact Hrest].
    rewrite <- app_assoc. reflexivity.
Qed.

Lemma sections_from_first (l : str) (lines : list str) :
  blank l = false ->
  sections_from [] (l :: lines) = sections_from [l] lines.
Proof.
  intros Hb. cbn [sections_from]. rewrite Hb.
  destruct (heading l); reflexivity.
Qed.

(** C5.  The sections of a markdown cell text, with [lines] the lines of
    the text: a blank line is dropped and nothing runs across it; a heading
    line, or a plain line that follows a separator, opens a section in which
    it is the first line, and the plain lines that follow it stay in that
    section, in order, up to the next blank or heading line; the sections
    together are the lines that are not blank, in their order; and a
    heading is never anything but the first line of its section. *)
Theorem C5_markdown_section_grouping :
  forall original_source : Source,
    let lines := split NL (source_text_of original_source) in
    markdown_sections original_source = group_sections lines
    /\ (forall b rest,
          lines = b :: rest -> blank b = true ->
          group_sections lines = group_sections rest)
    /\ (forall h run rest,
          lines = h :: run ++ rest -> heading h = true ->
          forallb plain run = true -> at_boundary rest = true ->
          group_sections lines = (h :: run) :: group_sections rest)
    /\ (forall l run rest,
          lines = l :: run ++ rest -> plain l = true ->
          forallb plain run = true -> at_boundary rest = true ->
          group_sections lines = (l :: run) :: group_sections rest)
    /\ concat (group_sections lines) = filter (fun l => negb (blank l)) lines
    /\ Forall section_shape (group_sections lines).
Proof.
  intros original_source lines.
  assert (Hopen : forall l run rest,
             blank l = false -> forallb plain run = true ->
             at_boundary rest = true ->
             group_sections (l :: run ++ rest)
             = (l :: run) :: group_sections rest).
  { intros l run rest Hb Hrun Hrest.
    rewrite !group_sections_from, sections_from_first by exact Hb.
    apply (sections_from_run run rest [l]); [discriminate | exact Hrun | exact Hrest]. }
  split; [reflexivity|].
  split; [|split; [|split; [|split]]].
  - intros b rest -> Hb. rewrite !group_sections_from.
    cbn [sections_from]. rewrite Hb. reflexivity.
  - intros h run rest -> Hh Hrun Hrest.
    apply Hopen; [apply heading_not_blank; exact Hh | exact Hrun | exact Hrest].
  - intros l run rest -> Hl Hrun Hrest.
    unfold plain in Hl. apply andb_true_iff in Hl. destruct Hl as [Hb _].
    apply negb_true_iff in Hb.
    apply Hopen; [exact Hb | exact Hrun | exact Hrest].
  - rewrite group_sections_from, sections_from_concat. reflexivity.
  - rewrite group_sections_from. apply sections_from_shape. left. reflexivity.
Qed.

(** The cell of the spec's scenario has three sections. *)
Example markdown_sections_scenario :
  markdown_sections
    (SrcStr (lit "# Title" ++ [NL; NL] ++ lit "Hello world" ++ [NL; NL]
               ++ lit "![pic](img.png)"))
  = [ [lit "# Title"]; [lit "Hello world"]; [lit "![pic](img.png)"] ].
Proof. reflexivity. Qed.

End Sections.

(** ** The markdown cell processor *)

Section Markdown.

Import config llm_client cell_processors Props.



















(** C9, as the code has it.  A markdown cell with an empty source has no
    section; the processor makes no call, appends the cell with the empty
    list of lines as its source and advances the index.  When the source
    was the empty list the cell is appended as it was; when it was the
    empty string only the representation of the source changes. *)
Theorem C9_empty_markdown_source :
  forall (py : PyLib) (client : LLMClient) (state : AgentState)
         (cs : list Cell) (cell : Cell),
    state_cells state = Ok cs ->
    (current_cell_index state < Z.of_nat (length cs))%Z ->
    cell_at cs (current_cell_index state) = Ok cell ->
    cell_type cell = lit "markdown" ->
    source cell = SrcStr [] \/ source cell = SrcList [] ->
    markdown_sections (source cell) = []
    /\ process_markdown_cell py client state
       = Ret (append_and_advance state (set_source cell (SrcList [])))
    /\ (source cell = SrcList [] -> set_source cell (SrcList []) = cell).
Proof.
  intros py client state cs cell Hcs Hlt Hcell Hty Hsrc.
  assert (Hsec : markdown_sections (source cell) = [])
    by (destruct Hsrc as [-> | ->]; reflexivity).
  split; [exact Hsec|]. split.
  - unfold process_markdown_cell. rewrite Hcs.
    destruct (current_cell_index state >=? Z.of_nat (length cs))%Z eqn:Hge;
      [apply Z.geb_le in Hge; lia|].
    rewrite Hcell, Hty, str_eqb_refl. cbn [negb].
    unfold markdown_new_source. rewrite Hsec. reflexivity.
  - intros E. destruct cell as [ty src rest]. simpl in E. subst src.
    reflexivity.
Qed.

Lemma C9_empty_markdown_source_witness :
  let cell := Sim.markdown_cell (SrcList []) in
  let state := Sim.loaded [cell] [] 0 in
  markdown_sections (source cell) = []
  /\ process_markdown_cell Sim.py Sim.client state
     = Ret (append_and_advance state (set_source cell (SrcList [])))
  /\ (source cell = SrcList [] -> set_source cell (SrcList []) = cell).
Proof.
  apply (C9_empty_markdown_source Sim.py Sim.client
           (Sim.loaded [Sim.markdown_cell (SrcList [])] [] 0)
           [Sim.markdown_cell (SrcList [])]
           (Sim.markdown_cell (SrcList [])));
    [reflexivity | reflexivity | reflexivity | reflexivity
     | right; reflexivity].
Defined.

(** C9 as stated fails for the empty string: the source field of the
    appended cell is the empty list, not the empty string it was. *)
Lemma C9_empty_string_source_changes :
  let cell := Sim.markdown_cell (SrcStr []) in
  let state := Sim.loaded [cell] [] 0 in
  let state' :=
    value_of (run Sim.answer
                  (process_markdown_cell Sim.py Sim.client state)
                  (Sim.offline [] [])) in
  map source (processed_cells state') = [SrcList []]
  /\ map source (processed_cells state') <> [source cell].
Proof. split; [reflexivity | discriminate]. Qed.

End Markdown.

(** ** The code cell processor and the gateway's annotate call *)

Section CodeCell.

Import llm_client cell_processors.

(** [add_code_comments] catches every failure of the call itself. *)
Lemma add_code_comments_never_raises (client : LLMClient)
      (code target_language : str) :
  always (fun r => exists s, r = Ok s)
         (add_code_comments client code target_language).
Proof.
  unfold add_code_comments, call. cbn [bind always].
  intros [[content|]|e]; cbn [always]; eexists; reflexivity.
Qed.

(** When the chat completion raises, [add_code_comments] returns the code
    it was given. *)
Lemma add_code_comments_on_failure (client : LLMClient)
      (code target_language : str) :
  exists req k,
    add_code_comments client code target_language
    = Vis (ChatCompletion req) k
    /\ forall e, k (Raise e) = Ret (Ok code).
Proof.
  unfold add_code_comments, call. cbn [bind].
  eexists. eexists. split; [reflexivity|]. intros e. reflexivity.
Qed.

(** The fallback as written: were the gateway call to raise, the source
    would be kept as it is. *)
Lemma code_new_source_fallback
      (annotate : str -> str -> IO (result str))
      (original_source : Source) (target_language : str) (e : exn) :
  annotate (source_text_of original_source) target_language = Ret (Raise e) ->
  code_new_source annotate original_source target_language
  = Ret original_source.
Proof. intros H. unfold code_new_source. rewrite H. reflexivity. Qed.

(** With [add_code_comments] as the gateway call, a failed chat completion
    reaches the clean-up instead: the new source is the joined, trimmed
    text. *)
Lemma code_new_source_on_failure (client : LLMClient)
      (original_source : Source) (target_language : str)
      (W : Type) (h : handler W) (w : W) :
  (forall req, exists e, fst (h _ (ChatCompletion req) w) = Raise e) ->
  value_of (run h (code_new_source (add_code_comments client)
                                   original_source target_language) w)
  = SrcStr (strip_code_fences (source_text_of original_source)).
Proof.
  intros Hfail. unfold code_new_source, add_code_comments, call.
  cbn [bind run].
  match goal with
  | |- context [h _ (ChatCompletion ?r) w] =>
    destruct (Hfail r) as [e He];
      destruct (h _ (ChatCompletion r) w) as [x w1]
  end.
  simpl in He. subst x. reflexivity.
Qed.

(** C2 on the code: the chat completion fails, and the source of the
    appended cell is the trimmed text, not the original source; a list of
    lines comes back as one string. *)
Lemma C2_failed_annotation_source_not_preserved :
  let blob := SrcStr (lit "x = 1" ++ [NL]) in
  let lines := SrcList [lit "import os" ++ [NL]; lit "x = 1"] in
  let processed (src : Source) :=
    map source
        (processed_cells
           (value_of (run Sim.answer
                          (process_code_cell Sim.client
                             (Sim.loaded [Sim.code_cell src] [] 0))
                          (Sim.offline [] [])))) in
  processed blob = [SrcStr (lit "x = 1")]
  /\ processed blob <> [blob]
  /\ processed lines = [SrcStr (lit "import os" ++ [NL] ++ lit "x = 1")]
  /\ processed lines <> [lines].
Proof.
  split; [reflexivity|]. split; [discriminate|].
  split; [reflexivity | discriminate].
Qed.

End CodeCell.

(** ** The image resolver *)

Section ImageResolver.

Import llm_client.

(** C4, as the code has it.  For every environment: an embedded-data
    reference is answered from its payload alone, with no call and the
    world untouched; an http(s) reference makes the one call
    [requests.get(src, timeout=30)] and fails when that raises or the status
    is 4xx or 5xx, any other status yielding the body; any other reference
    is tested as given and read when found, otherwise, with a document
    path, tested relative to the document's directory and read from there
    when found, and otherwise failing with a not-found error that names the
    reference and that directory. *)
Theorem C4_get_image_data_dispatch :
  forall (py : PyLib) (src : str) (input_path : option str)
         (W : Type) (h : handler W) (w : W),
    let res := run h (get_image_data py src input_path) w in
    (startswith (lit "data:image/") src = true ->
     res = (match nth_error (split 44%N src) 1 with
            | Some payload => b64decode py payload
            | None => Raise (Exn IndexError (lit "list index out of range"))
            end, w, []))
    /\ (startswith (lit "data:image/") src = false ->
        startswith (lit "http://") src || startswith (lit "https://") src
        = true ->
        let '(r, w1) := h _ (RequestsGet src 30) w in
        res = (match r with
               | Raise e => Raise e
               | Ok response =>
                 if ((400 <=? status_code response)
                     && (status_code response <? 600))%Z
                 then Raise (Exn HTTPError (lit "HTTP error"))
                 else Ok (response_content response)
               end, w1, [Event (RequestsGet src 30) r]))
    /\ (startswith (lit "data:image/") src = false ->
        startswith (lit "http://") src || startswith (lit "https://") src
        = false ->
        let '(found, w1) := h _ (PathExists src) w in
        if found then
          let '(r, w2) := h _ (ReadBinary src) w1 in
          res = (r, w2, [Event (PathExists src) true;
                         Event (ReadBinary src) r])
        else
          match input_path with
          | None =>
            res = (Raise (Exn FileNotFoundError
                            (lit "Image file not found: " ++ src)),
                   w1, [Event (PathExists src) false])
          | Some document =>
            let '(abs, w2) := h _ (AbsPath document) w1 in
            let notebook_dir := os_path_dirname py abs in
            let relative_path := os_path_join py notebook_dir src in
            let '(found_rel, w3) := h _ (PathExists relative_path) w2 in
            if found_rel then
              let '(r, w4) := h _ (ReadBinary relative_path) w3 in
              res = (r, w4, [Event (PathExists src) false;
                             Event (AbsPath document) abs;
                             Event (PathExists relative_path) true;
                             Event (ReadBinary relative_path) r])
            else
              res = (Raise (Exn FileNotFoundError
                              (lit "Image file not found: " ++ src
                                 ++ lit " (tried absolute and relative to "
                                 ++ notebook_dir ++ lit ")")),
                     w3, [Event (PathExists src) false;
                          Event (AbsPath document) abs;
                          Event (PathExists relative_path) false])
          end).
Proof.
  intros py src input_path W h w res. subst res.
  unfold get_image_data. split; [|split].
  - intros ->. destruct (nth_error (split 44%N src) 1); reflexivity.
  - intros -> ->. unfold call. cbn [bind run].
    destruct (h _ (RequestsGet src 30) w) as [r w1].
    destruct r as [response | e]; [|reflexivity].
    unfold raise_for_status.
    destruct ((400 <=? status_code response)
              && (status_code response <? 600))%Z; reflexivity.
  - intros -> ->. unfold call. cbn [bind run].
    destruct (h _ (PathExists src) w) as [found w1].
    destruct found.
    + cbn [run]. destruct (h _ (ReadBinary src) w1) as [r w2]. reflexivity.
    + destruct input_path as [document|]; [|reflexivity].
      cbn [bind run].
      destruct (h _ (AbsPath document) w1) as [abs w2].
      cbn zeta.
      destruct (h _ (PathExists
                       (os_path_join py (os_path_dirname py abs) src)) w2)
        as [found_rel w3].
      destruct found_rel.
      * cbn [run].
        destruct (h _ (ReadBinary
                         (os_path_join py (os_path_dirname py abs) src)) w3)
          as [r w4]. reflexivity.
      * reflexivity.
Qed.

(** C4 as stated fails on its status clause: a response with a 3xx status
    that was not followed is not a 2xx, and its body is returned. *)
Lemma C4_status_300_is_not_a_failure :
  let world :=
    {| Sim.chat := fun _ => Ok None;
       Sim.http := fun _ => Ok {| status_code := 300;
                                  response_content := [60; 104; 62]%N |};
       Sim.files := []; Sim.notebooks := []; Sim.cwd := lit "/work";
       Sim.written := [] |} in
  value_of (run Sim.answer
                (get_image_data Sim.py (lit "https://example.org/figure.png")
                                (Some (lit "/work/nb.ipynb")))
                world)
  = Ok [60; 104; 62]%N.
Proof. reflexivity. Qed.

(** The resolver on the simulated disk: embedded data; a file missing as
    given and present beside the notebook; a file missing in both places. *)
Example get_image_data_scenarios :
  let disk := Sim.offline [] [(lit "/work/img.png", [137; 80; 78; 71]%N)] in
  let resolve src :=
    run Sim.answer
        (get_image_data Sim.py src (Some (lit "/work/nb.ipynb"))) disk in
  resolve (lit "data:image/png;base64,aGVsbG8=")
  = (Ok (lit "hello"), disk, [])
  /\ value_of (resolve (lit "img.png")) = Ok [137; 80; 78; 71]%N
  /\ value_of (resolve (lit "missing.png"))
     = Raise (Exn FileNotFoundError
                (lit "Image file not found: missing.png (tried absolute and relative to /work)")).
Proof. repeat split. Qed.

End ImageResolver.

(** ** The router *)

Section Router.

Import llm_client cell_processors notebook_io workflow Props Run.

Lemma getitem_app {A} (before : list A) (c : A) (more : list A) :
  getitem (before ++ c :: more) (Z.of_nat (length before)) = Some c.
Proof.
  unfold getitem.
  destruct (Z.of_nat (length before) <? 0)%Z eqn:E;
    [apply Z.ltb_lt in E; lia|].
  rewrite Nat2Z.id, nth_error_app2 by lia.
  rewrite Nat.sub_diag. reflexivity.
Qed.

Lemma cell_at_app (before : list Cell) (c : Cell) (more : list Cell) :
  cell_at (before ++ c :: more) (Z.of_nat (length before)) = Ok c.
Proof. unfold cell_at. rewrite getitem_app. reflexivity. Qed.

Lemma unsupported_types (c : Cell) :
  unsupported c = true ->
  str_eqb (cell_type c) (lit "markdown") = false
  /\ str_eqb (cell_type c) (lit "code") = false.
Proof.
  unfold unsupported. intros H. apply andb_true_iff in H.
  destruct H as [H1 H2]. apply negb_true_iff in H1. apply negb_true_iff in H2.
  split; assumption.
Qed.

Lemma positioned_advance (state : AgentState) (nb : Notebook)
      (before : list Cell) (c : Cell) (more : list Cell) :
  positioned state nb before (c :: more) ->
  positioned (append_and_advance state c) nb (before ++ [c]) more.
Proof.
  intros (Hnb & Hcells & Htotal & Hidx & Herr).
  unfold positioned. cbn.
  split; [exact Hnb|]. split; [rewrite Hcells, <- app_assoc; reflexivity|].
  split; [exact Htotal|]. split; [|exact Herr].
  rewrite Hidx, length_app. simpl. lia.
Qed.

(** The router at a markdown or code cell, or past the last cell: the
    state is left as it is. *)
Lemma route_at_supported (state : AgentState) (nb : Notebook)
      (before rest : list Cell) :
  positioned state nb before rest ->
  at_supported rest = true ->
  route_cell_processing state = (state, answer_for rest).
Proof.
  intros (Hnb & Hcells & Htotal & Hidx & Herr) Hsup.
  unfold route_cell_processing. rewrite Herr, Htotal, Hidx, Hcells.
  unfold state_cells. rewrite Hnb, Hcells.
  destruct rest as [|c more].
  - rewrite app_nil_r.
    destruct (Z.of_nat (length before) >=? Z.of_nat (length before))%Z eqn:E;
      [reflexivity|].
    rewrite Z.geb_leb in E. apply Z.leb_gt in E. lia.
  - destruct (Z.of_nat (length before)
              >=? Z.of_nat (length (before ++ c :: more)))%Z eqn:E.
    { apply Z.geb_le in E. rewrite length_app in E. simpl in E. lia. }
    rewrite cell_at_app. simpl in Hsup. unfold unsupported in Hsup.
    cbn [answer_for].
    destruct (str_eqb (cell_type c) (lit "markdown")); [reflexivity|].
    destruct (str_eqb (cell_type c) (lit "code")); [reflexivity|].
    discriminate.
Qed.

(** The router at an unsupported cell: that one cell is copied and the
    index advances by one; the answer is for the cell that follows. *)
Lemma route_at_unsupported (state : AgentState) (nb : Notebook)
      (before : list Cell) (c : Cell) (more : list Cell) :
  positioned state nb before (c :: more) ->
  unsupported c = true ->
  route_cell_processing state
  = (append_and_advance state c,
     if at_supported more then answer_for more
     else lit "skip_unsupported_cell").
Proof.
  intros Hpos Hun.
  pose proof (positioned_advance state nb before c more Hpos) as Hpos'.
  destruct Hpos as (Hnb & Hcells & Htotal & Hidx & Herr).
  destruct Hpos' as (_ & Hcells' & _ & Hidx' & _).
  destruct (unsupported_types c Hun) as [Hmd Hcode].
  unfold route_cell_processing. rewrite Herr, Htotal, Hidx.
  unfold state_cells. rewrite Hnb.
  destruct (Z.of_nat (length before) >=? Z.of_nat (length (cells nb)))%Z
           eqn:E.
  { apply Z.geb_le in E. rewrite Hcells, length_app in E. simpl in E. lia. }
  rewrite Hcells at 1. rewrite cell_at_app, Hmd, Hcode.
  rewrite Hidx'.
  destruct more as [|m more'].
  - cbn [at_supported answer_for].
    destruct (Z.of_nat (length (before ++ [c]))
              >=? Z.of_nat (length (cells nb)))%Z eqn:E2; [reflexivity|].
    rewrite Z.geb_leb in E2. apply Z.leb_gt in E2.
    rewrite Hcells, !length_app in E2. simpl in E2. lia.
  - destruct (Z.of_nat (length (before ++ [c]))
              >=? Z.of_nat (length (cells nb)))%Z eqn:E2.
    { apply Z.geb_le in E2. rewrite Hcells, !length_app in E2.
      simpl in E2. lia. }
    rewrite Hcells'. rewrite cell_at_app.
    cbn [at_supported answer_for]. unfold unsupported.
    destruct (str_eqb (cell_type m) (lit "markdown"));
      cbn [negb andb]; [reflexivity|].
    destruct (str_eqb (cell_type m) (lit "code"));
      cbn [negb andb]; reflexivity.
Qed.

(** The skip node copies the cell at the index. *)
Lemma skip_at_cell (state : AgentState) (nb : Notebook)
      (before : list Cell) (c : Cell) (more : list Cell) :
  positioned state nb before (c :: more) ->
  skip_unsupported_cell state = append_and_advance state c.
Proof.
  intros (Hnb & Hcells & Htotal & Hidx & Herr).
  unfold skip_unsupported_cell, state_cells. rewrite Hnb, Hidx.
  destruct (Z.of_nat (length before) >=? Z.of_nat (length (cells nb)))%Z
           eqn:E.
  { apply Z.geb_le in E. rewrite Hcells, length_app in E. simpl in E. lia. }
  rewrite Hcells, cell_at_app. reflexivity.
Qed.

Lemma edges_answer_for (rest : list Cell) :
  conditional_edges (answer_for rest) = Some (inl (node_for rest)).
Proof.
  destruct rest as [|c more]; [reflexivity|]. cbn [answer_for node_for].
  destruct (str_eqb (cell_type c) (lit "markdown")); reflexivity.
Qed.

(** C3, as the code has it.  At a run of two or more unsupported cells one
    routing decision copies the first cell of the run only, unchanged, into
    the output sequence of the context it was given, advances the index of
    that context by one and answers [skip_unsupported_cell]: the rest of
    the run is left to later steps. *)
Theorem C3_one_decision_copies_first_cell_of_run :
  forall (state : AgentState) (nb : Notebook)
         (before run after : list Cell),
    positioned state nb before (run ++ after) ->
    forallb unsupported run = true ->
    2 <= length run ->
    exists first rest,
      run = first :: rest
      /\ route_cell_processing state
         = (append_and_advance state first, lit "skip_unsupported_cell")
      /\ processed_cells (append_and_advance state first)
         = processed_cells state ++ [first]
      /\ current_cell_index (append_and_advance state first)
         = (current_cell_index state + 1)%Z.
Proof.
  intros state nb before run after Hpos Hrun Hlen.
  destruct run as [|c1 [|c2 rest]]; [simpl in Hlen; lia.. |].
  exists c1, (c2 :: rest). split; [reflexivity|].
  cbn [forallb] in Hrun. apply andb_true_iff in Hrun.
  destruct Hrun as [H1 Hrun]. apply andb_true_iff in Hrun.
  destruct Hrun as [H2 _].
  rewrite (route_at_unsupported state nb before c1 (c2 :: rest ++ after)
                                Hpos H1).
  cbn [at_supported]. rewrite H2. repeat split.
Qed.

Lemma C3_first_cell_of_run_witness :
  let a := Sim.raw_cell (SrcStr (lit "a")) in
  let b := Sim.raw_cell (SrcStr (lit "b")) in
  let c := Sim.raw_cell (SrcStr (lit "c")) in
  let m := Sim.markdown_cell (SrcStr (lit "# m")) in
  let state := Sim.loaded [a; b; c; m] [] 0 in
  exists first rest,
    [a; b; c] = first :: rest
    /\ route_cell_processing state
       = (append_and_advance state first, lit "skip_unsupported_cell")
    /\ processed_cells (append_and_advance state first) = [] ++ [first]
    /\ current_cell_index (append_and_advance state first) = (0 + 1)%Z.
Proof.
  apply (C3_one_decision_copies_first_cell_of_run
           (Sim.loaded [Sim.raw_cell (SrcStr (lit "a"));
                        Sim.raw_cell (SrcStr (lit "b"));
                        Sim.raw_cell (SrcStr (lit "c"));
                        Sim.markdown_cell (SrcStr (lit "# m"))] [] 0)
           (Sim.notebook_of [Sim.raw_cell (SrcStr (lit "a"));
                             Sim.raw_cell (SrcStr (lit "b"));
                             Sim.raw_cell (SrcStr (lit "c"));
                             Sim.markdown_cell (SrcStr (lit "# m"))])
           []
           [Sim.raw_cell (SrcStr (lit "a")); Sim.raw_cell (SrcStr (lit "b"));
            Sim.raw_cell (SrcStr (lit "c"))]
           [Sim.markdown_cell (SrcStr (lit "# m"))]).
  - repeat split.
  - reflexivity.
  - simpl. lia.
Defined.

(** C3 as stated fails: at a run of two unsupported cells one routing
    decision copies one cell and leaves the index on the second. *)
Lemma C3_one_decision_copies_one_cell :
  let a := Sim.raw_cell (SrcStr (lit "a")) in
  let b := Sim.raw_cell (SrcStr (lit "b")) in
  let decision := route_cell_processing (Sim.loaded [a; b] [] 0) in
  snd decision = lit "skip_unsupported_cell"
  /\ processed_cells (fst decision) = [a]
  /\ current_cell_index (fst decision) = 1%Z
  /\ processed_cells (fst decision) <> [a; b]
  /\ current_cell_index (fst decision) <> 2%Z.
Proof. repeat split; discriminate. Qed.

End Router.

(** ** The workflow *)

Section Workflow.

Import llm_client cell_processors notebook_io workflow Props Run.

Lemma cell_count_nonneg (s : AgentState) : (0 <= cell_count s)%Z.
Proof. unfold cell_count. destruct (notebook_content s); lia. Qed.

Lemma state_cells_count (s : AgentState) (cs : list Cell) :
  state_cells s = Ok cs -> cell_count s = Z.of_nat (length cs).
Proof.
  unfold state_cells, cell_count. destruct (notebook_content s);
    [intros H; inversion H; reflexivity | discriminate].
Qed.

Lemma guard_in_range (s : AgentState) (cs : list Cell) :
  state_cells s = Ok cs ->
  (current_cell_index s >=? Z.of_nat (length cs))%Z = false ->
  (current_cell_index s < cell_count s)%Z.
Proof.
  intros Hcs Hg. rewrite (state_cells_count s cs Hcs).
  rewrite Z.geb_leb in Hg. apply Z.leb_gt in Hg. exact Hg.
Qed.

Lemma process_markdown_cell_outcome_of (py : PyLib) (client : LLMClient)
      (s : AgentState) :
  always (outcome s) (process_markdown_cell py client s).
Proof.
  unfold process_markdown_cell.
  destruct (state_cells s) as [cs | e] eqn:Hcs; [|apply out_error].
  destruct (current_cell_index s >=? Z.of_nat (length cs))%Z eqn:Hg;
    [apply out_error|].
  destruct (cell_at cs (current_cell_index s)) as [cell | e];
    [|apply out_error].
  destruct (negb (str_eqb (cell_type cell) (lit "markdown")));
    [apply out_error|].
  apply always_bind.
  apply always_weaken with (P := fun _ => True).
  - intros lines _. cbn [always]. apply out_append.
    eapply guard_in_range; eassumption.
  - generalize (markdown_new_source py client (source cell)
                                    (Some (input_path s))
                                    (target_language s)).
    intros m. induction m as [a | X e k IHm]; simpl; auto.
Qed.

Lemma always_trivial {A} (m : IO A) : always (fun _ => True) m.
Proof. induction m as [a | X e k IHm]; simpl; auto. Qed.

Lemma process_code_cell_outcome_of
      (annotate : str -> str -> IO (result str)) (s : AgentState) :
  always (outcome s) (process_code_cell_with annotate s).
Proof.
  unfold process_code_cell_with.
  destruct (state_cells s) as [cs | e] eqn:Hcs; [|apply out_error].
  destruct (current_cell_index s >=? Z.of_nat (length cs))%Z eqn:Hg;
    [apply out_error|].
  destruct (cell_at cs (current_cell_index s)) as [cell | e];
    [|apply out_error].
  destruct (negb (str_eqb (cell_type cell) (lit "code")));
    [apply out_error|].
  apply always_bind.
  eapply always_weaken; [|apply always_trivial].
  intros src _. cbn [always]. apply out_append.
  eapply guard_in_range; eassumption.
Qed.

Lemma skip_unsupported_cell_outcome_of (s : AgentState) :
  outcome s (skip_unsupported_cell s).
Proof.
  unfold skip_unsupported_cell.
  destruct (state_cells s) as [cs | e] eqn:Hcs; [|apply out_error].
  destruct (current_cell_index s >=? Z.of_nat (length cs))%Z eqn:Hg;
    [apply out_same|].
  destruct (cell_at cs (current_cell_index s)) as [cell | e];
    [|apply out_error].
  apply out_append. eapply guard_in_range; eassumption.
Qed.

Lemma rebuild_notebook_outcome_of (s : AgentState) :
  always (outcome s) (rebuild_notebook s).
Proof.
  unfold rebuild_notebook, call.
  destruct (error_recorded s); [apply out_same|].
  cbn [bind always]. intros [u | e]; [|apply out_error].
  cbn [bind always]. intros [u' | e]; [apply out_same | apply out_error].
Qed.

Lemma route_outcome_of (s : AgentState) :
  total_cells s = cell_count s ->
  outcome s (fst (route_cell_processing s)).
Proof.
  intros Htotal. unfold route_cell_processing.
  destruct (error_recorded s); [apply out_same|].
  destruct (current_cell_index s >=? total_cells s)%Z eqn:Hg;
    [apply out_same|].
  assert (Hlt : (current_cell_index s < cell_count s)%Z).
  { rewrite Z.geb_leb in Hg. apply Z.leb_gt in Hg. lia. }
  destruct (state_cells s) as [cs | e]; [|apply out_error].
  destruct (cell_at cs (current_cell_index s)) as [cell | e];
    [|apply out_error].
  destruct (str_eqb (cell_type cell) (lit "markdown")); [apply out_same|].
  destruct (str_eqb (cell_type cell) (lit "code")); [apply out_same|].
  destruct (current_cell_index (append_and_advance s cell)
            >=? total_cells s)%Z; [apply out_append; exact Hlt|].
  destruct (cell_at cs (current_cell_index (append_and_advance s cell)))
    as [next | e]; [|apply out_append_error; exact Hlt].
  destruct (str_eqb (cell_type next) (lit "markdown"));
    [apply out_append; exact Hlt|].
  destruct (str_eqb (cell_type next) (lit "code"));
    apply out_append; exact Hlt.
Qed.

(** Every outcome keeps the document and its count, keeps a recorded error
    recorded, keeps the index in bounds and appends at most one cell. *)
Lemma outcome_keeps (s s' : AgentState) :
  outcome s s' ->
  notebook_content s' = notebook_content s
  /\ total_cells s' = total_cells s
  /\ (error_message s <> None -> error_message s' <> None)
  /\ (in_bounds s -> in_bounds s')
  /\ advance s s'.
Proof.
  assert (Happ : forall c,
             (current_cell_index s < cell_count s)%Z ->
             in_bounds s -> in_bounds (append_and_advance s c)).
  { intros c Hlt [Hi Hr]. unfold in_bounds, cell_count in *. cbn.
    rewrite length_app. simpl. lia. }
  intros [|m|c Hlt|c m Hlt].
  - repeat split; auto; try apply H; left; split; reflexivity.
  - repeat split; try (intros _; discriminate); try apply H;
      left; split; reflexivity.
  - split; [reflexivity|]. split; [reflexivity|]. split; [auto|].
    split; [apply Happ; exact Hlt|].
    right. exists c. split; reflexivity.
  - split; [reflexivity|]. split; [reflexivity|].
    split; [intros _; discriminate|].
    split; [apply Happ; exact Hlt|].
    right. exists c. split; reflexivity.
Qed.

Lemma outcome_sound (s s' : AgentState) :
  outcome s s' ->
  in_bounds s /\ total_cells s = cell_count s ->
  (in_bounds s' /\ total_cells s' = cell_count s') /\ advance s s'.
Proof.
  intros Ho [Hc Ht].
  destruct (outcome_keeps s s' Ho) as (Hnb & Htot & _ & Hcons & Hadv).
  split; [split|]; [apply Hcons; exact Hc | | exact Hadv].
  unfold cell_count in *. rewrite Hnb, Htot. exact Ht.
Qed.

(** What the router did to the context it was given, as the next step sees
    it: nothing, or one more cell in the output with the index as it was. *)
Lemma outcome_after_routing (s s' : AgentState) :
  outcome s s' ->
  (after_routing s s' = s)
  \/ (exists c, (current_cell_index s < cell_count s)%Z
                /\ processed_cells (after_routing s s')
                   = processed_cells s ++ [c]).
Proof.
  intros [|m|c Hlt|c m Hlt].
  - left. destruct s; reflexivity.
  - left. destruct s; reflexivity.
  - right. exists c. split; [exact Hlt | reflexivity].
  - right. exists c. split; [exact Hlt | reflexivity].
Qed.

Lemma after_routing_sound (s s' : AgentState) :
  outcome s s' ->
  in_bounds s /\ total_cells s = cell_count s ->
  (in_bounds (after_routing s s')
   /\ total_cells (after_routing s s') = cell_count (after_routing s s'))
  /\ moves (Routing s) s (after_routing s s').
Proof.
  intros Ho [[Hr Hi] Ht].
  destruct (outcome_after_routing s s' Ho) as [E | (c & Hlt & E)].
  - rewrite E. split; [split; [split; assumption | exact Ht]|].
    left. split; [left; split; reflexivity | reflexivity].
  - split; [split|].
    + unfold in_bounds, cell_count in *.
      cbn [notebook_content current_cell_index after_routing] in *.
      rewrite E, length_app. simpl. split; lia.
    + exact Ht.
    + right. exists c. split; [exact E | reflexivity].
Qed.

Lemma load_sound (pl : PathLib) (s : AgentState) :
  in_bounds s -> total_cells s = cell_count s -> processed_cells s = [] ->
  always (fun s' => (in_bounds s' /\ total_cells s' = cell_count s')
                    /\ advance s s')
         (load_and_parse_notebook pl s).
Proof.
  intros [Hr Hi] Ht Hp.
  assert (Hsame : forall m,
             (in_bounds (set_error_message s m)
              /\ total_cells (set_error_message s m)
                 = cell_count (set_error_message s m))
             /\ advance s (set_error_message s m)).
  { intros m. split; [split; [split; assumption | exact Ht]|].
    left. split; reflexivity. }
  unfold load_and_parse_notebook, call. cbn [bind always].
  intros [|]; cbn [negb]; [|apply Hsame].
  cbn [bind always]. intros [nb | e]; [|apply Hsame].
  cbn [always]. rewrite Hp in Hi. simpl in Hi.
  assert (H0 : current_cell_index s = 0%Z) by lia.
  split; [split; [split|]|].
  - unfold cell_count. cbn. lia.
  - cbn. lia.
  - reflexivity.
  - left. cbn. rewrite Hp, H0. split; reflexivity.
Qed.

(** The router never answers with the loader. *)
Lemma edges_not_loader (answer : str) :
  conditional_edges answer <> Some (inl load_and_parse_notebook_node).
Proof.
  unfold conditional_edges.
  repeat match goal with
         | |- context [if ?b then _ else _] => destruct b
         end; discriminate.
Qed.

Section Scheduler.

Variable py : PyLib.
Variable pl : PathLib.
Variable client : LLMClient.

Lemma run_node_sound (n : node) (s : AgentState) :
  sound (Pending n s) ->
  always (fun s' => (in_bounds s' /\ total_cells s' = cell_count s')
                    /\ advance s s')
         (run_node py pl client n s).
Proof.
  intros (Hc & Ht & Hn).
  assert (Hout : forall m,
             always (outcome s) m ->
             always (fun s' => (in_bounds s' /\ total_cells s' = cell_count s')
                               /\ advance s s') m).
  { intros m. apply always_weaken. intros s' Ho.
    apply outcome_sound; [exact Ho | split; assumption]. }
  destruct n; cbn [run_node].
  - apply load_sound; assumption.
  - apply Hout, process_markdown_cell_outcome_of.
  - apply Hout, process_code_cell_outcome_of.
  - apply Hout. cbn [always]. apply skip_unsupported_cell_outcome_of.
  - apply Hout, rebuild_notebook_outcome_of.
Qed.

Lemma step_sound (c : config) :
  sound c ->
  always (fun c' =>
            sound c'
            /\ forall s s', state_of c = Some s -> state_of c' = Some s' ->
                            moves c s s')
         (step py pl client c).
Proof.
  intros Hs. destruct c as [n s | s | s | e].
  - cbn [step]. apply always_bind.
    eapply always_weaken; [|apply run_node_sound; exact Hs].
    intros s' [[Hc Ht] Hadv].
    assert (Hstep : forall s0 s1 : AgentState,
               Some s = Some s0 -> Some s' = Some s1 -> advance s0 s1)
      by (intros s0 s1 E0 E1; inversion E0; inversion E1; subst; exact Hadv).
    destruct n; cbn [always sound state_of moves]; (split; [|exact Hstep]);
      split; assumption.
  - cbn [step].
    destruct Hs as [Hc Ht].
    pose proof (route_outcome_of s Ht) as Ho.
    destruct (route_cell_processing s) as [s' answer]. cbn [fst] in Ho.
    destruct (after_routing_sound s s' Ho (conj Hc Ht)) as [[Hc' Ht'] Hmv].
    assert (Hstep : forall s0 s1 : AgentState,
               Some s = Some s0 -> Some (after_routing s s') = Some s1 ->
               moves (Routing s) s0 s1)
      by (intros s0 s1 E0 E1; inversion E0; inversion E1; subst; exact Hmv).
    destruct (conditional_edges answer) as [[n | u] |] eqn:Hedge;
      cbn [always sound state_of].
    + split; [|exact Hstep]. split; [exact Hc'|]. split; [exact Ht'|].
      destruct n; try exact I.
      exfalso. apply (edges_not_loader answer). exact Hedge.
    + split; [split; assumption | exact Hstep].
    + split; [exact I | intros s0 s1 _ E; discriminate].
  - cbn [step always sound state_of moves]. split; [exact Hs|].
    intros s0 s1 E0 E1. inversion E0; inversion E1; subst.
    left. split; reflexivity.
  - cbn [step always sound state_of]. split; [exact I|].
    intros s0 s1 E0; discriminate.
Qed.

Lemma reachable_sound {W} (h : handler W) (c0 c : config) :
  sound c0 ->
  reachable h (step py pl client) c0 c -> sound c.
Proof.
  intros H0 Hr. induction Hr as [|c w Hr IH]; [exact H0|].
  apply (always_run _ h _ (step_sound c IH) w).
Qed.

Lemma steps_reachable {W} (h : handler W) (c0 : config) (n : nat) :
  forall c w,
    reachable h (step py pl client) c0 c ->
    reachable h (step py pl client) c0
              (value_of (run h (steps py pl client n c) w)).
Proof.
  induction n as [|n IH]; intros c w Hr; [exact Hr|].
  cbn [steps]. rewrite run_bind.
  pose proof (reach_step h (step py pl client) c0 c w Hr) as Hr1.
  destruct (run h (step py pl client c) w) as [[c1 w1] t1].
  specialize (IH c1 w1 Hr1).
  destruct (run h (steps py pl client n c1) w1) as [[c2 w2] t2].
  exact IH.
Qed.

Lemma steps_halted (n : nat) (s : AgentState) :
  steps py pl client n (Halted s) = Ret (Halted s).
Proof. induction n as [|n IH]; [reflexivity|]. cbn [steps step bind]. exact IH. Qed.

(** Once the graph has ended, more steps change nothing. *)
Lemma run_steps_more {W} (h : handler W) (n : nat) :
  forall (c : config) (w : W) (s : AgentState) (m : nat),
    value_of (run h (steps py pl client n c) w) = Halted s ->
    n <= m ->
    run h (steps py pl client m c) w = run h (steps py pl client n c) w.
Proof.
  induction n as [|n IH]; intros c w s m Hn Hm.
  - cbn in Hn. subst c. rewrite !steps_halted. reflexivity.
  - destruct m as [|m]; [lia|].
    cbn [steps] in *. rewrite !run_bind in *.
    destruct (run h (step py pl client c) w) as [[c1 w1] t1].
    assert (Hn' : value_of (run h (steps py pl client n c1) w1) = Halted s).
    { destruct (run h (steps py pl client n c1) w1) as [[c2 w2] t2].
      exact Hn. }
    rewrite (IH c1 w1 s m Hn') by lia. reflexivity.
Qed.

End Scheduler.

(** C6 fails on the code.  A notebook of one raw cell: the router copies
    the cell and answers [rebuild_notebook]; its advance of the index is
    made in its own dict, so at the observation point before the rebuild,
    which is reached from the initial state, the output sequence holds one
    cell and the index is still 0. *)
Theorem C6_index_behind_output_after_routing :
  let r := Sim.raw_cell (SrcStr (lit "r")) in
  let world :=
    Sim.replying (lit "Hola")
                 [(lit "/work/nb.ipynb", Sim.notebook_of [r])] [] in
  let start :=
    Pending load_and_parse_notebook_node
            (initial_state (lit "/work/nb.ipynb") (lit "Chinese")) in
  let c := value_of (run Sim.answer
                         (steps Sim.py Sim.pl Sim.client 2 start) world) in
  reachable Sim.answer (step Sim.py Sim.pl Sim.client) start c
  /\ c = Pending rebuild_notebook_node (Sim.loaded [r] [r] 0)
  /\ error_message (Sim.loaded [r] [r] 0) = None
  /\ current_cell_index (Sim.loaded [r] [r] 0) = 0%Z
  /\ length (processed_cells (Sim.loaded [r] [r] 0)) = 1
  /\ ~ consistent (Sim.loaded [r] [r] 0).
Proof.
  intros r world start c.
  split; [apply steps_reachable; apply reach_start|].
  split; [vm_compute; reflexivity|].
  split; [reflexivity|]. split; [reflexivity|]. split; [reflexivity|].
  intros [H _]. discriminate H.
Qed.

(** X17.  What holds of the index at every observation point of a run,
    from the initial state on: it lies between 0 and the number of cells of
    the document and is never ahead of the output sequence.  A node leaves
    the output and the index as they are or appends one cell and advances
    the index by one; a routing decision leaves them as they are or
    appends one cell, the index staying.  So the index never decreases. *)
Theorem index_in_bounds_never_ahead_of_output :
  forall (py : PyLib) (pl : PathLib) (client : LLMClient)
         (W : Type) (h : handler W) (input_path target_language : str)
         (c : config),
    reachable h (step py pl client)
              (Pending load_and_parse_notebook_node
                       (initial_state input_path target_language)) c ->
    forall s : AgentState,
      state_of c = Some s ->
      (0 <= current_cell_index s <= cell_count s)%Z
      /\ (current_cell_index s <= Z.of_nat (length (processed_cells s)))%Z
      /\ forall (w : W) (s' : AgentState),
          state_of (value_of (run h (step py pl client c) w)) = Some s' ->
          moves c s s'
          /\ (current_cell_index s <= current_cell_index s')%Z.
Proof.
  intros py pl client W h input_path target_language c Hr s Hs.
  assert (H0 : sound (Pending load_and_parse_notebook_node
                              (initial_state input_path target_language))).
  { cbn. unfold in_bounds, cell_count. cbn. repeat split; lia. }
  pose proof (reachable_sound py pl client h _ c H0 Hr) as Hc.
  assert (Hcons : in_bounds s).
  { destruct c as [n s0 | s0 | s0 | e]; cbn in Hs; inversion Hs; subst;
      cbn in Hc; tauto. }
  destruct Hcons as [Hrange Hi].
  split; [exact Hrange|]. split; [exact Hi|].
  intros w s' Hs'.
  destruct (always_run _ h _ (step_sound py pl client c Hc) w) as [_ Hadv].
  pose proof (Hadv s s' Hs Hs') as Hmv.
  split; [exact Hmv|].
  destruct c as [n s0 | s0 | s0 | e]; cbn [moves] in Hmv.
  - destruct Hmv as [[_ E] | (cell & _ & E)]; lia.
  - destruct Hmv as [[_ E] | (cell & _ & E)]; lia.
  - destruct Hmv as [[_ E] | (cell & _ & E)]; lia.
  - discriminate Hs.
Qed.

Lemma index_in_bounds_never_ahead_witness :
  let r0 := Sim.raw_cell (SrcStr (lit "r0")) in
  let r1 := Sim.raw_cell (SrcStr (lit "r1")) in
  let world :=
    Sim.replying (lit "Hola")
                 [(lit "/work/nb.ipynb", Sim.notebook_of [r0; r1])] [] in
  let start :=
    Pending load_and_parse_notebook_node
            (initial_state (lit "/work/nb.ipynb") (lit "Chinese")) in
  let c := value_of (run Sim.answer
                         (steps Sim.py Sim.pl Sim.client 3 start) world) in
  let s := Sim.loaded [r0; r1] [r0; r0] 1 in
  c = Routing s
  /\ (0 <= current_cell_index s <= cell_count s)%Z
  /\ (current_cell_index s <= Z.of_nat (length (processed_cells s)))%Z
  /\ forall (w : Sim.World) (s' : AgentState),
      state_of (value_of (run Sim.answer
                              (step Sim.py Sim.pl Sim.client c) w))
      = Some s' ->
      moves c s s'
      /\ (current_cell_index s <= current_cell_index s')%Z.
Proof.
  split; [vm_compute; reflexivity|].
  apply (index_in_bounds_never_ahead_of_output
           Sim.py Sim.pl Sim.client Sim.World Sim.answer
           (lit "/work/nb.ipynb") (lit "Chinese")
           (value_of
              (run Sim.answer
                   (steps Sim.py Sim.pl Sim.client 3
                          (Pending load_and_parse_notebook_node
                                   (initial_state (lit "/work/nb.ipynb")
                                                  (lit "Chinese"))))
                   (Sim.replying
                      (lit "Hola")
                      [(lit "/work/nb.ipynb",
                        Sim.notebook_of
                          [Sim.raw_cell (SrcStr (lit "r0"));
                           Sim.raw_cell (SrcStr (lit "r1"))])] [])))).
  - apply steps_reachable. apply reach_start.
  - vm_compute. reflexivity.
Defined.

End Workflow.

(** ** The whole run *)

Section EndToEnd.

Import llm_client cell_processors notebook_io workflow Props Run.

Lemma error_none_not_recorded (s : AgentState) :
  error_message s = None -> error_recorded s = false.
Proof. unfold error_recorded. intros ->. reflexivity. Qed.

Lemma after_routing_same (s : AgentState) : after_routing s s = s.
Proof. destruct s; reflexivity. Qed.

Section Run.

Context {W : Type}.
Variable h : handler W.
Variable py : PyLib.
Variable pl : PathLib.
Variable client : LLMClient.
Variable input target : str.

Local Notation "'produced'" := (produced_from h py client input target).

Lemma produced_unsupported (w : W) (c : Cell) :
  unsupported c = true -> produced c c.
Proof.
  intros Hun. destruct (unsupported_types c Hun) as [Hmd Hcode].
  exists w. unfold process_cell. rewrite Hmd, Hcode. reflexivity.
Qed.

Lemma produced_markdown (w : W) (c : Cell) :
  str_eqb (cell_type c) (lit "markdown") = true ->
  produced c
    (set_source c
       (SrcList (value_of (run h (markdown_new_source py client (source c)
                                                      (Some input) target)
                               w)))).
Proof.
  intros Hmd. exists w. unfold process_cell. rewrite Hmd, run_bind.
  destruct (run h (markdown_new_source py client (source c) (Some input)
                                       target) w) as [[lines w1] t1].
  reflexivity.
Qed.

Lemma produced_code (w : W) (c : Cell) :
  str_eqb (cell_type c) (lit "markdown") = false ->
  str_eqb (cell_type c) (lit "code") = true ->
  produced c
    (set_source c
       (value_of (run h (code_new_source (add_code_comments client)
                                         (source c) target) w))).
Proof.
  intros Hmd Hcode. exists w. unfold process_cell.
  rewrite Hmd, Hcode, run_bind.
  destruct (run h (code_new_source (add_code_comments client) (source c)
                                   target) w) as [[src w1] t1].
  reflexivity.
Qed.

Variable nb : Notebook.

(** Every cell of the notebook is a markdown or a code cell. *)
Hypothesis Hsupported : Forall (fun c => unsupported c = false) (cells nb).

Lemma supported_rest (done rest : list Cell) :
  cells nb = done ++ rest -> at_supported rest = true.
Proof.
  intros E. destruct rest as [|c more]; [reflexivity|].
  rewrite E in Hsupported. apply Forall_app in Hsupported.
  destruct Hsupported as [_ H]. inversion H as [|c' more' Hc Hmore]; subst.
  cbn [at_supported]. rewrite Hc. reflexivity.
Qed.

Local Notation "'progressing'" := (progress h py client input target nb).
Local Notation "'tracked'" := (on_track h py client input target nb).

Lemma progress_advance (done : list Cell) (c : Cell) (more : list Cell)
      (s : AgentState) (out : Cell) :
  progressing done (c :: more) s ->
  produced c out ->
  progressing (done ++ [c]) more (append_and_advance s out).
Proof.
  intros (Hpos & Hin & Htg & Herr & Hall) Hout.
  split; [|split; [exact Hin | split; [exact Htg | split; [exact Herr|]]]].
  - destruct Hpos as (Hnb & Hcells & Htotal & Hidx & Hrec).
    unfold positioned. cbn.
    split; [exact Hnb|]. split; [rewrite Hcells, <- app_assoc; reflexivity|].
    split; [exact Htotal|]. split; [|exact Hrec].
    rewrite Hidx, length_app. simpl. lia.
  - cbn. apply Forall2_app; [exact Hall|]. constructor; [exact Hout|constructor].
Qed.

(** The markdown processor at a markdown cell. *)
Lemma process_markdown_cell_at (s : AgentState) (done : list Cell)
      (c : Cell) (more : list Cell) :
  positioned s nb done (c :: more) ->
  str_eqb (cell_type c) (lit "markdown") = true ->
  process_markdown_cell py client s
  = bind (markdown_new_source py client (source c) (Some (input_path s))
                              (target_language s))
         (fun lines =>
            Ret (append_and_advance s (set_source c (SrcList lines)))).
Proof.
  intros (Hnb & Hcells & Htotal & Hidx & Herr) Hmd.
  unfold process_markdown_cell, state_cells. rewrite Hnb, Hidx, Hcells.
  destruct (Z.of_nat (length done)
            >=? Z.of_nat (length (done ++ c :: more)))%Z eqn:E.
  { apply Z.geb_le in E. rewrite length_app in E. simpl in E. lia. }
  rewrite cell_at_app, Hmd. reflexivity.
Qed.

Lemma process_code_cell_at (s : AgentState) (done : list Cell)
      (c : Cell) (more : list Cell) :
  positioned s nb done (c :: more) ->
  str_eqb (cell_type c) (lit "code") = true ->
  process_code_cell client s
  = bind (code_new_source (add_code_comments client) (source c)
                          (target_language s))
         (fun src => Ret (append_and_advance s (set_source c src))).
Proof.
  intros (Hnb & Hcells & Htotal & Hidx & Herr) Hcode.
  unfold process_code_cell, process_code_cell_with, state_cells.
  rewrite Hnb, Hidx, Hcells.
  destruct (Z.of_nat (length done)
            >=? Z.of_nat (length (done ++ c :: more)))%Z eqn:E.
  { apply Z.geb_le in E. rewrite length_app in E. simpl in E. lia. }
  rewrite cell_at_app, Hcode. reflexivity.
Qed.

(** Away from a cell of its type a processor records an error. *)
Lemma process_markdown_cell_off (s : AgentState) (done rest : list Cell) :
  positioned s nb done rest ->
  match rest with
  | [] => True
  | c :: _ => str_eqb (cell_type c) (lit "markdown") = false
  end ->
  exists m, process_markdown_cell py client s
            = Ret (set_error_message s (Some m)).
Proof.
  intros (Hnb & Hcells & Htotal & Hidx & Herr) Hoff.
  unfold process_markdown_cell, state_cells. rewrite Hnb, Hidx, Hcells.
  destruct rest as [|c more].
  - rewrite app_nil_r.
    destruct (Z.of_nat (length done) >=? Z.of_nat (length done))%Z eqn:E;
      [eexists; reflexivity|].
    rewrite Z.geb_leb in E. apply Z.leb_gt in E. lia.
  - destruct (Z.of_nat (length done)
              >=? Z.of_nat (length (done ++ c :: more)))%Z;
      [eexists; reflexivity|].
    rewrite cell_at_app, Hoff. eexists. reflexivity.
Qed.

Lemma process_code_cell_off (s : AgentState) (done rest : list Cell) :
  positioned s nb done rest ->
  match rest with
  | [] => True
  | c :: _ => str_eqb (cell_type c) (lit "code") = false
  end ->
  exists m, process_code_cell client s = Ret (set_error_message s (Some m)).
Proof.
  intros (Hnb & Hcells & Htotal & Hidx & Herr) Hoff.
  unfold process_code_cell, process_code_cell_with, state_cells.
  rewrite Hnb, Hidx, Hcells.
  destruct rest as [|c more].
  - rewrite app_nil_r.
    destruct (Z.of_nat (length done) >=? Z.of_nat (length done))%Z eqn:E;
      [eexists; reflexivity|].
    rewrite Z.geb_leb in E. apply Z.leb_gt in E. lia.
  - destruct (Z.of_nat (length done)
              >=? Z.of_nat (length (done ++ c :: more)))%Z;
      [eexists; reflexivity|].
    rewrite cell_at_app, Hoff. eexists. reflexivity.
Qed.

Lemma run_then_ret {A B} (m : IO A) (f : A -> B) (w : W) :
  run h (bind m (fun a => Ret (f a))) w
  = (f (value_of (run h m w)), world_of (run h m w), calls_of (run h m w)).
Proof.
  rewrite run_bind. destruct (run h m w) as [[a w1] t1].
  cbn. rewrite app_nil_r. reflexivity.
Qed.

Lemma tracked_node_for (s : AgentState) (done rest : list Cell)
      (calls : list event) :
  progressing done rest s ->
  at_supported rest = true ->
  In (read_event input nb) calls ->
  tracked (Pending (node_for rest) s) calls.
Proof.
  intros Hprog Hsup Hread.
  destruct rest as [|c more]; cbn [node_for].
  - right. split; [exact Hread|]. exists done, []. split; [exact Hprog | reflexivity].
  - destruct (str_eqb (cell_type c) (lit "markdown"));
      right; (split; [exact Hread|]); exists done, (c :: more);
        (split; [exact Hprog | exact I]).
Qed.

Lemma step_routing_on_track (s : AgentState) (w : W) (calls : list event) :
  tracked (Routing s) calls ->
  tracked (value_of (run h (step py pl client (Routing s)) w))
          (calls ++ calls_of (run h (step py pl client (Routing s)) w)).
Proof.
  intros [Hdirty | (Hread & done & rest & Hprog)].
  - cbn [step].
    destruct (route_cell_processing s) as [s' answer].
    destruct (conditional_edges answer) as [[n | u] |] eqn:Hedge;
      cbn; try exact I; [|left; exact Hdirty].
    destruct n; try (left; exact Hdirty).
    exfalso. apply (edges_not_loader answer). exact Hedge.
  - pose proof Hprog as (Hpos & _).
    pose proof Hpos as (_ & Hcells & _).
    pose proof (supported_rest done rest Hcells) as Hsup.
    cbn [step].
    rewrite (route_at_supported s nb done rest Hpos Hsup), edges_answer_for.
    rewrite after_routing_same.
    cbn [run value_of calls_of fst snd]. rewrite app_nil_r.
    apply (tracked_node_for s done rest); assumption.
Qed.

Lemma step_pending_on_track (n : node) (s : AgentState) (w : W)
      (calls : list event) :
  tracked (Pending n s) calls ->
  tracked (value_of (run h (step py pl client (Pending n s)) w))
          (calls ++ calls_of (run h (step py pl client (Pending n s)) w)).
Proof.
  intros Htr.
  assert (Hdirty : forall (m : IO AgentState) (f : AgentState -> config),
             always (outcome s) m ->
             error_message s <> None ->
             (forall s', error_message s' <> None -> forall l, tracked (f s') l) ->
             tracked (value_of (run h (bind m (fun a => Ret (f a))) w))
                     (calls ++ calls_of (run h (bind m (fun a => Ret (f a))) w))).
  { intros m f Hout He Hf. rewrite run_then_ret. cbn [value_of calls_of fst snd].
    apply Hf.
    destruct (outcome_keeps s _ (always_run _ h m Hout w)) as (_ & _ & Hk & _).
    apply Hk. exact He. }
  destruct n.
  - destruct Htr.
  - (* the markdown processor *)
    destruct Htr as [He | (Hread & done & rest & Hprog & _)].
    + apply (Hdirty _ Routing);
        [apply process_markdown_cell_outcome_of | exact He|].
      intros s' He' l. left. exact He'.
    + pose proof Hprog as (Hpos & Hin & Htg & _).
      cbn [step run_node].
      destruct rest as [|c more];
        [|destruct (str_eqb (cell_type c) (lit "markdown")) eqn:Hmd].
      * destruct (process_markdown_cell_off s done [] Hpos I) as [m ->].
        cbn. left. discriminate.
      * rewrite (process_markdown_cell_at s done c more Hpos Hmd).
        rewrite run_then_ret. cbn [value_of calls_of fst snd].
        rewrite run_then_ret. cbn [value_of calls_of fst snd].
        right. split; [apply in_or_app; left; exact Hread|].
        exists (done ++ [c]), more.
        apply progress_advance; [exact Hprog|].
        rewrite Hin, Htg. apply produced_markdown. exact Hmd.
      * destruct (process_markdown_cell_off s done (c :: more) Hpos Hmd)
          as [m ->].
        cbn. left. discriminate.
  - (* the code processor *)
    destruct Htr as [He | (Hread & done & rest & Hprog & _)].
    + apply (Hdirty _ Routing);
        [apply process_code_cell_outcome_of | exact He|].
      intros s' He' l. left. exact He'.
    + pose proof Hprog as (Hpos & Hin & Htg & _).
      cbn [step run_node].
      destruct rest as [|c more];
        [|destruct (str_eqb (cell_type c) (lit "code")) eqn:Hcode].
      * destruct (process_code_cell_off s done [] Hpos I) as [m ->].
        cbn. left. discriminate.
      * rewrite (process_code_cell_at s done c more Hpos Hcode).
        rewrite run_then_ret. cbn [value_of calls_of fst snd].
        rewrite run_then_ret. cbn [value_of calls_of fst snd].
        right. split; [apply in_or_app; left; exact Hread|].
        exists (done ++ [c]), more.
        apply progress_advance; [exact Hprog|].
        rewrite Htg.
        destruct (str_eqb (cell_type c) (lit "markdown")) eqn:Hmd.
        -- apply str_eqb_eq in Hmd. apply str_eqb_eq in Hcode.
           rewrite Hmd in Hcode. discriminate.
        -- apply produced_code; assumption.
      * destruct (process_code_cell_off s done (c :: more) Hpos Hcode)
          as [m ->].
        cbn. left. discriminate.
  - (* the skip node *)
    cbn [step run_node bind run value_of calls_of fst snd].
    rewrite app_nil_r.
    destruct Htr as [He | (Hread & done & rest & Hprog & Hsup)].
    + left.
      destruct (outcome_keeps s _ (skip_unsupported_cell_outcome_of s))
        as (_ & _ & Hk & _).
      apply Hk. exact He.
    + pose proof Hprog as (Hpos & _).
      destruct rest as [|c more]; [discriminate|].
      cbn [at_supported] in Hsup. apply negb_false_iff in Hsup.
      rewrite (skip_at_cell s nb done c more Hpos).
      right. split; [exact Hread|]. exists (done ++ [c]), more.
      apply progress_advance;
        [exact Hprog | apply (produced_unsupported w); exact Hsup].
  - (* the rebuild *)
    destruct Htr as [He | (Hread & done & rest & Hprog & Hrest)].
    + apply (Hdirty _ Halted); [apply rebuild_notebook_outcome_of | exact He|].
      intros s' He' l. left. exact He'.
    + subst rest. pose proof Hprog as (Hpos & _ & _ & Herr & _).
      destruct Hpos as (Hnb & Hcells & _).
      rewrite app_nil_r in Hcells. subst done.
      cbn [step run_node]. unfold rebuild_notebook, call.
      rewrite (error_none_not_recorded s Herr).
      cbn [bind run].
      destruct (h _ (MkdirParent (output_path s)) w) as [r1 w1].
      destruct r1 as [u1 | e]; [|cbn; left; discriminate].
      cbn [bind run].
      destruct (h _ (NbformatWrite (output_notebook s) (output_path s)) w1)
        as [r2 w2].
      destruct r2 as [u2 | e]; [|cbn; left; discriminate].
      cbn [run value_of calls_of fst snd].
      right. split; [apply in_or_app; left; exact Hread|].
      split; [exact Hprog|].
      exists (calls ++ [Event (MkdirParent (output_path s)) (Ok u1)]).
      rewrite <- app_assoc. cbn [app]. destruct u2.
      unfold write_event, output_notebook. rewrite Hnb. reflexivity.
Qed.

Lemma step_on_track (c : config) (w : W) (calls : list event) :
  tracked c calls ->
  tracked (value_of (run h (step py pl client c) w))
          (calls ++ calls_of (run h (step py pl client c) w)).
Proof.
  destruct c as [n s | s | s | e].
  - apply step_pending_on_track.
  - apply step_routing_on_track.
  - cbn. rewrite app_nil_r. auto.
  - cbn. auto.
Qed.

Lemma steps_on_track (n : nat) :
  forall (c : config) (w : W) (calls : list event),
    tracked c calls ->
    tracked (value_of (run h (steps py pl client n c) w))
            (calls ++ calls_of (run h (steps py pl client n c) w)).
Proof.
  induction n as [|n IH]; intros c w calls Htr.
  - cbn. rewrite app_nil_r. exact Htr.
  - cbn [steps]. rewrite run_bind.
    pose proof (step_on_track c w calls Htr) as H1.
    destruct (run h (step py pl client c) w) as [[c1 w1] t1].
    cbn [value_of calls_of fst snd] in H1.
    specialize (IH c1 w1 (calls ++ t1) H1).
    destruct (run h (steps py pl client n c1) w1) as [[c2 w2] t2].
    cbn [value_of calls_of fst snd] in *.
    rewrite app_assoc. exact IH.
Qed.

End Run.

(** The loader leaves the run on track for the notebook it read, or with
    an error recorded. *)
Lemma load_on_track {W} (h : handler W) (py : PyLib) (pl : PathLib)
      (client : LLMClient) (input target : str) (w : W) :
  let r := run h (step py pl client
                       (Pending load_and_parse_notebook_node
                                (initial_state input target))) w in
  exists nb,
    on_track h py client input target nb (value_of r) (calls_of r)
    /\ (In (read_event input nb) (calls_of r) \/ cells nb = []).
Proof.
  cbn [step run_node]. unfold load_and_parse_notebook, call.
  cbn [bind run initial_state input_path].
  destruct (h _ (PathExists input) w) as [found w1].
  destruct found; cbn [negb bind run].
  - destruct (h _ (NbformatRead input) w1) as [r w2].
    destruct r as [nb | e].
    + exists nb. cbn [bind run value_of calls_of fst snd on_track app].
      split; [|left; right; left; reflexivity].
      right. split; [right; left; reflexivity|].
      exists [], (cells nb). repeat split. constructor.
    + exists {| cells := []; nb_rest := [] |}. cbn.
      split; [left; discriminate | right; reflexivity].
  - exists {| cells := []; nb_rest := [] |}. cbn.
    split; [left; discriminate | right; reflexivity].
Qed.

(** C1 fails on the code.  A notebook of two raw cells [a] and [b], when
    the scheduler allows four node executions or more: the router copies
    [a] and answers [skip_unsupported_cell]; its advance of the index is
    made in its own dict, so the skip node copies [a] again; the router
    then copies [b] and answers [rebuild_notebook].  The run ends with no
    error recorded and the notebook written has the three cells [a], [a],
    [b]. *)
Theorem C1_two_raw_cells_written_as_three :
  forall rounds : nat,
    4 <= rounds ->
    let a := Sim.raw_cell (SrcStr (lit "a")) in
    let b := Sim.raw_cell (SrcStr (lit "b")) in
    let nb := Sim.notebook_of [a; b] in
    let world := Sim.replying (lit "Hola") [(lit "/work/nb.ipynb", nb)] [] in
    let r := run Sim.answer
                 (run_notebook_translation_with
                    Sim.py Sim.pl Sim.client rounds
                    (lit "/work/nb.ipynb") (lit "Chinese")) world in
    result_error_message (value_of r) = None
    /\ Sim.written (world_of r)
       = [(lit "/work/nb_translated.ipynb", Sim.notebook_of [a; a; b])]
    /\ length [a; a; b] <> length (cells nb)
    /\ ~ Forall2 (produced_from Sim.answer Sim.py Sim.client
                                (lit "/work/nb.ipynb") (lit "Chinese"))
                 (cells nb) [a; a; b].
Proof.
  intros rounds Hrounds a b nb world r. subst r.
  unfold run_notebook_translation_with, invoke. rewrite !run_bind.
  rewrite (run_steps_more
             Sim.py Sim.pl Sim.client Sim.answer 8
             (Pending load_and_parse_notebook_node
                      (initial_state (lit "/work/nb.ipynb") (lit "Chinese")))
             world
             (Sim.loaded [a; b] [a; a; b] 1)
             (2 * rounds));
    [| vm_compute; reflexivity | lia].
  split; [vm_compute; reflexivity|].
  split; [vm_compute; reflexivity|].
  split; [discriminate|].
  intros H. apply Forall2_length in H. discriminate H.
Qed.

Lemma C1_two_raw_cells_witness :
  let a := Sim.raw_cell (SrcStr (lit "a")) in
  let b := Sim.raw_cell (SrcStr (lit "b")) in
  let nb := Sim.notebook_of [a; b] in
  let world := Sim.replying (lit "Hola") [(lit "/work/nb.ipynb", nb)] [] in
  let r := run Sim.answer
               (run_notebook_translation_with
                  Sim.py Sim.pl Sim.client 100
                  (lit "/work/nb.ipynb") (lit "Chinese")) world in
  result_error_message (value_of r) = None
  /\ Sim.written (world_of r)
     = [(lit "/work/nb_translated.ipynb", Sim.notebook_of [a; a; b])]
  /\ length [a; a; b] <> length (cells nb)
  /\ ~ Forall2 (produced_from Sim.answer Sim.py Sim.client
                              (lit "/work/nb.ipynb") (lit "Chinese"))
               (cells nb) [a; a; b].
Proof.
  apply (C1_two_raw_cells_written_as_three 100). lia.
Defined.

End EndToEnd.

(** ** Configuration and the client *)

Section Configuration.

Import config_env.

Lemma missing_vars_nil (cls : Config) :
  missing_vars cls = [] <->
  unset (API_KEY cls) = false /\ unset (MODEL_NAME cls) = false
  /\ unset (MODEL_BASE_URL cls) = false.
Proof.
  unfold missing_vars.
  destruct (unset (API_KEY cls)), (unset (MODEL_NAME cls)),
    (unset (MODEL_BASE_URL cls)); simpl; split;
    try discriminate; try tauto; intros (A & B & C); discriminate.
Qed.

Lemma validate_config_ok_aux (cls : Config) :
  validate_config cls = Ok true <->
  unset (API_KEY cls) = false /\ unset (MODEL_NAME cls) = false
  /\ unset (MODEL_BASE_URL cls) = false.
Proof.
  rewrite <- missing_vars_nil. unfold validate_config.
  destruct (missing_vars cls); split; try discriminate; reflexivity.
Qed.

(** X1.  [validate_config] returns [True] exactly when the three variables
    are set and not empty; otherwise it raises, and the message starts
    with the names of the unset variables, comma-separated: a variable is
    named there exactly when it is unset or empty. *)
Theorem validate_config_reports_missing :
  forall cls : Config,
    (validate_config cls = Ok true <->
     unset (API_KEY cls) = false /\ unset (MODEL_NAME cls) = false
     /\ unset (MODEL_BASE_URL cls) = false)
    /\ validate_config cls <> Ok false
    /\ (forall e, validate_config cls = Raise e ->
        (exists rest,
            exn_msg e = lit "Missing environment variables: "
                            ++ join (lit ", ") (missing_vars cls)
                            ++ [NL] ++ rest)
        /\ (In (lit "API_KEY") (missing_vars cls)
            <-> unset (API_KEY cls) = true)
        /\ (In (lit "MODEL_NAME") (missing_vars cls)
            <-> unset (MODEL_NAME cls) = true)
        /\ (In (lit "MODEL_BASE_URL") (missing_vars cls)
            <-> unset (MODEL_BASE_URL cls) = true)).
Proof.
  intros cls. split; [|split].
  - apply validate_config_ok_aux.
  - unfold validate_config. destruct (missing_vars cls); discriminate.
  - intros e He. split.
    + unfold validate_config in He.
      destruct (missing_vars cls) as [|v vs] eqn:Hm; [discriminate|].
      inversion He; subst e. cbn [exn_msg].
      eexists. rewrite <- !app_assoc. reflexivity.
    + unfold missing_vars.
      destruct (unset (API_KEY cls)), (unset (MODEL_NAME cls)),
        (unset (MODEL_BASE_URL cls)); cbn [app In];
        repeat split; intros H; try reflexivity; try discriminate;
          try (repeat destruct H as [H | H]; try discriminate H;
               try contradiction);
          auto.
Qed.

(** X2.  Building the client raises exactly when the configuration does
    not validate, with that exception, or when it validates and the
    constructor of the library raises, with that one.  When it succeeds the
    constructor was given a key and a base URL that are set and not empty,
    and the model name is the configured [MODEL_NAME], which is not empty:
    the literal after [or] is never used. *)
Theorem LLMClient_init_uses_configured_model :
  forall (OpenAI : option str -> option str -> result unit) (cls : Config),
    (forall e,
        LLMClient_init OpenAI cls = Raise e <->
        validate_config cls = Raise e
        \/ (validate_config cls = Ok true
            /\ OpenAI (API_KEY cls) (MODEL_BASE_URL cls) = Raise e))
    /\ (forall client,
          LLMClient_init OpenAI cls = Ok client ->
          (exists key url,
              API_KEY cls = Some key /\ truthy key = true
              /\ MODEL_BASE_URL cls = Some url /\ truthy url = true
              /\ OpenAI (Some key) (Some url) = Ok tt)
          /\ MODEL_NAME cls = Some (llm_client.model_name client)
          /\ truthy (llm_client.model_name client) = true).
Proof.
  intros OpenAI cls.
  assert (Hb : forall b, validate_config cls = Ok b ->
                         b = true
                         /\ unset (API_KEY cls) = false
                         /\ unset (MODEL_NAME cls) = false
                         /\ unset (MODEL_BASE_URL cls) = false).
  { intros b Hv. destruct b.
    - split; [reflexivity|]. apply (proj1 (validate_config_ok_aux cls) Hv).
    - exfalso. unfold validate_config in Hv.
      destruct (missing_vars cls); discriminate. }
  unfold LLMClient_init. split.
  - intros e. destruct (validate_config cls) as [b | e0] eqn:Hv.
    + destruct (Hb b eq_refl) as [-> _].
      destruct (OpenAI (API_KEY cls) (MODEL_BASE_URL cls)) as [u | e1].
      * split; [discriminate|].
        intros [H | [_ H]]; discriminate H.
      * split.
        -- intros H. inversion H; subst e1. right. split; reflexivity.
        -- intros [H | [_ H]]; [discriminate H|].
           inversion H; reflexivity.
    + split.
      * intros H. inversion H; subst e0. left. reflexivity.
      * intros [H | [H _]]; [|discriminate H].
        inversion H; reflexivity.
  - intros client H.
    destruct (validate_config cls) as [b | e] eqn:Hv; [|discriminate].
    destruct (Hb b eq_refl) as (_ & Hk & Hm & Hu).
    unfold unset in Hk, Hm, Hu.
    destruct (API_KEY cls) as [key|]; [|discriminate].
    destruct (MODEL_NAME cls) as [name|]; [|discriminate].
    destruct (MODEL_BASE_URL cls) as [url|]; [|discriminate].
    apply negb_false_iff in Hk. apply negb_false_iff in Hm.
    apply negb_false_iff in Hu. rewrite Hm in H.
    destruct (OpenAI (Some key) (Some url)) as [u | e] eqn:Ho;
      [|discriminate].
    inversion H; subst client. cbn. destruct u.
    split; [exists key, url; repeat split; assumption|].
    split; [reflexivity | exact Hm].
Qed.

End Configuration.

(** ** [validate_notebook_structure] *)

Section Validation.

Import notebook_validation.

Lemma fields_present_dict (entries : list (str * pyval)) (fields : list str) :
  fields_present fields (PDict entries) = Some true <->
  Forall (fun f => dict_lookup entries f <> None) fields.
Proof.
  induction fields as [|f fields IH]; simpl.
  - split; [constructor | reflexivity].
  - destruct (dict_lookup entries f) as [v|] eqn:E.
    + rewrite IH. split.
      * intros H. constructor; [rewrite E; discriminate | exact H].
      * intros H. inversion H; assumption.
    + split; [discriminate|]. intros H. inversion H; subst. congruence.
Qed.

Lemma cells_have_fields_true (cells : list pyval) :
  cells_have_fields cells = Some true <->
  Forall (fun cell => py_in (lit "cell_type") cell = Some true
                      /\ py_in (lit "source") cell = Some true) cells.
Proof.
  induction cells as [|cell cells IH]; cbn [cells_have_fields].
  - split; [constructor | reflexivity].
  - destruct (py_in (lit "cell_type") cell) as [[|]|] eqn:E1;
      [destruct (py_in (lit "source") cell) as [[|]|] eqn:E2| |].
    + rewrite IH. split.
      * intros H. constructor; [split; assumption | exact H].
      * intros H. inversion H; assumption.
    + split; [discriminate|]. intros H. inversion H; subst.
      destruct H2 as [_ H2]. congruence.
    + split; [discriminate|]. intros H. inversion H; subst.
      destruct H2 as [_ H2]. congruence.
    + split; [discriminate|]. intros H. inversion H; subst.
      destruct H2 as [H2 _]. congruence.
    + split; [discriminate|]. intros H. inversion H; subst.
      destruct H2 as [H2 _]. congruence.
Qed.

Lemma validate_notebook_structure_accepts_aux (v : pyval) :
  (exists entries cells,
      v = PDict entries
      /\ Forall (fun f => dict_lookup entries f <> None) required_fields
      /\ dict_lookup entries (lit "cells") = Some (PList cells)
      /\ Forall (fun cell => py_in (lit "cell_type") cell = Some true
                             /\ py_in (lit "source") cell = Some true) cells)
  -> validate_notebook_structure v = true.
Proof.
  intros (entries & cells & -> & Hf & Hc & Hcells).
  unfold validate_notebook_structure.
  apply fields_present_dict in Hf. rewrite Hf.
  cbn [py_getitem_str]. rewrite Hc.
  apply cells_have_fields_true in Hcells. rewrite Hcells. reflexivity.
Qed.

(** X3.  What [validate_notebook_structure] accepts: exactly the dicts that
    have the four required keys, whose [cells] is a list, and each of whose
    cells passes both membership tests.  A top-level list or string is
    refused even when it holds the four names, since indexing it with
    ['cells'] raises. *)
Theorem validate_notebook_structure_accepts :
  forall notebook_content : pyval,
    validate_notebook_structure notebook_content = true <->
    exists entries cells,
      notebook_content = PDict entries
      /\ Forall (fun f => dict_lookup entries f <> None) required_fields
      /\ dict_lookup entries (lit "cells") = Some (PList cells)
      /\ Forall (fun cell => py_in (lit "cell_type") cell = Some true
                             /\ py_in (lit "source") cell = Some true) cells.
Proof.
  intros v. unfold validate_notebook_structure. split.
  - intros H.
    destruct (fields_present required_fields v) as [[|]|] eqn:Hf;
      try discriminate.
    destruct (py_getitem_str v (lit "cells")) as [c|] eqn:Hc;
      [|discriminate].
    destruct v as [| | | | |items|entries]; try discriminate.
    destruct c as [| | | | |cells|]; try discriminate.
    destruct (cells_have_fields cells) as [b|] eqn:Hcells; [|discriminate].
    subst b. exists entries, cells.
    split; [reflexivity|]. split; [apply fields_present_dict; exact Hf|].
    split; [exact Hc | apply cells_have_fields_true; exact Hcells].
  - apply validate_notebook_structure_accepts_aux.
Qed.

(** X4.  The membership tests do not make a cell a mapping, and the values
    under the other required keys are not looked at: a notebook whose only
    cell is a string that contains the two names validates. *)
Theorem validate_notebook_structure_accepts_string_cell :
  forall (s : str) (metadata nbformat nbformat_minor : pyval),
    contains (lit "cell_type") s = true ->
    contains (lit "source") s = true ->
    validate_notebook_structure
      (PDict [ (lit "cells", PList [PStr s]);
               (lit "metadata", metadata);
               (lit "nbformat", nbformat);
               (lit "nbformat_minor", nbformat_minor) ]) = true.
Proof.
  intros s metadata nbformat nbformat_minor H1 H2.
  apply validate_notebook_structure_accepts_aux.
  eexists. eexists. split; [reflexivity|].
  split; [repeat constructor; discriminate|].
  split; [reflexivity|].
  constructor; [|constructor]. cbn [py_in]. rewrite H1, H2.
  split; reflexivity.
Qed.

Lemma validate_notebook_structure_string_cell_witness :
  validate_notebook_structure
    (PDict [ (lit "cells", PList [PStr (lit "cell_type, source")]);
             (lit "metadata", PNone);
             (lit "nbformat", PInt 4);
             (lit "nbformat_minor", PInt 5) ]) = true.
Proof.
  apply (validate_notebook_structure_accepts_string_cell
           (lit "cell_type, source") PNone (PInt 4) (PInt 5));
    reflexivity.
Defined.

End Validation.

(** ** The image pattern *)

Section ImagePattern.

Import cell_processors More.

Lemma span_until_spec (stop : char) (s a b : str) :
  span_until stop s = (a, b) ->
  s = a ++ b /\ ~ In stop a /\ (b = [] \/ exists t, b = stop :: t).
Proof.
  revert a b. induction s as [|c t IH]; intros a b H; simpl in H.
  - inversion H; subst. split; [reflexivity|]. split; [intros []|].
    left. reflexivity.
  - destruct (char_eqb c stop) eqn:E.
    + inversion H; subst. apply char_eqb_eq in E. subst c.
      split; [reflexivity|]. split; [intros []|]. right. exists t. reflexivity.
    + destruct (span_until stop t) as [a' b'] eqn:Ht.
      inversion H; subst. destruct (IH a' b eq_refl) as (Hs & Hn & Hb).
      split; [simpl; f_equal; exact Hs|]. split; [|exact Hb].
      intros [Hc | Hin]; [|contradiction].
      subst c. unfold char_eqb in E. rewrite N.eqb_refl in E. discriminate.
Qed.

Lemma span_until_app (stop : char) (a t : str) :
  ~ In stop a -> span_until stop (a ++ stop :: t) = (a, stop :: t).
Proof.
  induction a as [|c a IH]; intros Hn; simpl.
  - unfold char_eqb. rewrite N.eqb_refl. reflexivity.
  - destruct (char_eqb c stop) eqn:E.
    + apply char_eqb_eq in E. exfalso. apply Hn. left. exact E.
    + rewrite IH; [reflexivity|]. intros H. apply Hn. right. exact H.
Qed.

Lemma image_markup_length (alt_text src : str) :
  length (image_markup alt_text src)
  = 2 + length alt_text + 2 + length src + 1.
Proof.
  unfold image_markup. rewrite !length_app.
  change (length (lit "![")) with 2. change (length (lit "](")) with 2.
  change (length (lit ")")) with 1. lia.
Qed.

Lemma image_match_here_sound (s alt_text src : str) (n : nat) :
  image_match_here s = Some (alt_text, src, n) ->
  (exists rest, s = image_markup alt_text src ++ rest)
  /\ n = length (image_markup alt_text src)
  /\ src <> [] /\ ~ In 41%N src /\ ~ In 93%N alt_text.
Proof.
  unfold image_match_here. intros H.
  destruct (startswith (lit "![") s) eqn:H1; [|discriminate].
  apply startswith_split in H1. change (length (lit "![")) with 2 in H1.
  destruct (span_until 93%N (skipn 2 s)) as [a s2] eqn:Ha.
  destruct (startswith (lit "](") s2) eqn:H2; [|discriminate].
  apply startswith_split in H2. change (length (lit "](")) with 2 in H2.
  destruct (span_until 41%N (skipn 2 s2)) as [sr s4] eqn:Hs.
  destruct sr as [|c0 sr]; [discriminate|].
  destruct s4 as [|c4 s4]; [discriminate|].
  injection H as E1 E2 E3. subst alt_text src n.
  destruct (span_until_spec _ _ _ _ Ha) as (Ea & Hna & _).
  destruct (span_until_spec _ _ _ _ Hs) as (Es & Hns & Hb).
  destruct Hb as [Hb | [t Hb]]; [discriminate|]. inversion Hb; subst c4 s4.
  split; [|split; [|split; [discriminate | split; assumption]]].
  - exists t. rewrite H1, Ea, H2, Es. unfold image_markup.
    rewrite <- !app_assoc. reflexivity.
  - rewrite image_markup_length. reflexivity.
Qed.

Lemma span_until_before (stop : char) (a p t : str) :
  ~ In stop a -> p = stop :: t -> span_until stop (a ++ p) = (a, p).
Proof. intros Hn ->. apply span_until_app. exact Hn. Qed.

Lemma image_match_here_markup (alt_text src rest : str) :
  ~ In 93%N alt_text -> src <> [] -> ~ In 41%N src ->
  image_match_here (image_markup alt_text src ++ rest)
  = Some (alt_text, src, length (image_markup alt_text src)).
Proof.
  intros Ha Hne Hs. rewrite image_markup_length.
  unfold image_match_here, image_markup.
  rewrite <- !app_assoc. rewrite startswith_app.
  change (skipn 2 (lit "![" ++ alt_text ++ lit "](" ++ src ++ lit ")" ++ rest))
    with (alt_text ++ lit "](" ++ src ++ lit ")" ++ rest).
  rewrite (span_until_before 93%N alt_text
             (lit "](" ++ src ++ lit ")" ++ rest)
             (40%N :: src ++ lit ")" ++ rest) Ha eq_refl).
  rewrite startswith_app.
  change (skipn 2 (lit "](" ++ src ++ lit ")" ++ rest))
    with (src ++ lit ")" ++ rest).
  rewrite (span_until_before 41%N src (lit ")" ++ rest) rest Hs eq_refl).
  destruct src as [|c src]; [contradiction|]. reflexivity.
Qed.

Lemma findall_from_sound (s : str) :
  forall (skip : nat) (alt_text src : str),
    In (alt_text, src) (findall_from skip s) ->
    (exists before after, s = before ++ image_markup alt_text src ++ after)
    /\ src <> [] /\ ~ In 41%N src /\ ~ In 93%N alt_text.
Proof.
  induction s as [|c t IH]; intros skip alt_text src Hin; [destruct Hin|].
  assert (Htail : forall k,
             In (alt_text, src) (findall_from k t) ->
             (exists before after,
                 c :: t = before ++ image_markup alt_text src ++ after)
             /\ src <> [] /\ ~ In 41%N src /\ ~ In 93%N alt_text).
  { intros k Hk. destruct (IH k alt_text src Hk) as ((b & a & E) & P).
    split; [|exact P]. exists (c :: b), a. rewrite E. reflexivity. }
  cbn [findall_from] in Hin. destruct skip as [|k]; [|apply (Htail k Hin)].
  destruct (image_match_here (c :: t)) as [[[a sr] n]|] eqn:Hm;
    [|apply (Htail 0 Hin)].
  destruct Hin as [E | Hin]; [|apply (Htail (n - 1) Hin)].
  inversion E; subst a sr.
  destruct (image_match_here_sound _ _ _ _ Hm) as ((rest & Hs) & _ & P).
  split; [|exact P]. exists [], rest. exact Hs.
Qed.

Lemma findall_from_skip (l rest : str) :
  findall_from (length l) (l ++ rest) = findall_from 0 rest.
Proof.
  induction l as [|c l IH]; [reflexivity|].
  simpl. exact IH.
Qed.

Lemma findall_from_no_bang (prefix s : str) :
  ~ In 33%N prefix ->
  findall_from 0 (prefix ++ s) = findall_from 0 s.
Proof.
  induction prefix as [|c prefix IH]; intros Hn; [reflexivity|].
  simpl app. cbn [findall_from].
  assert (Hm : image_match_here (c :: prefix ++ s) = None).
  { unfold image_match_here.
    change (startswith (lit "![") (c :: prefix ++ s))
      with (char_eqb 33%N c && startswith [91%N] (prefix ++ s)).
    destruct (char_eqb 33%N c) eqn:E; [|reflexivity].
    apply char_eqb_eq in E. exfalso. apply Hn. left. symmetry. exact E. }
  rewrite Hm. apply IH. intros H. apply Hn. right. exact H.
Qed.

(** X5.  Every pair the pattern finds in a text is there: the text holds
    the reference [![alt](src)] for it, the source is not empty and has no
    closing parenthesis, and the alt text has no closing bracket. *)
Theorem image_pattern_findall_sound :
  forall (text alt_text src : str),
    In (alt_text, src) (image_pattern_findall text) ->
    (exists before after, text = before ++ image_markup alt_text src ++ after)
    /\ src <> [] /\ ~ In 41%N src /\ ~ In 93%N alt_text.
Proof.
  intros text alt_text src. apply findall_from_sound.
Qed.

Lemma image_pattern_findall_sound_witness :
  (exists before after,
      lit "See ![a plot](fig/plot.png) here"
      = before ++ image_markup (lit "a plot") (lit "fig/plot.png") ++ after)
  /\ lit "fig/plot.png" <> [] /\ ~ In 41%N (lit "fig/plot.png")
  /\ ~ In 93%N (lit "a plot").
Proof.
  apply (image_pattern_findall_sound
           (lit "See ![a plot](fig/plot.png) here")
           (lit "a plot") (lit "fig/plot.png")).
  vm_compute. left. reflexivity.
Defined.

(** X6.  A reference written as [![alt](src)], with no closing bracket in
    the alt text and a non-empty source without closing parenthesis, is
    found with exactly these two parts when no exclamation mark precedes
    it, and the search goes on right after it. *)
Theorem image_pattern_findall_finds_reference :
  forall (before alt_text src after : str),
    ~ In 33%N before ->
    ~ In 93%N alt_text ->
    src <> [] ->
    ~ In 41%N src ->
    image_pattern_findall (before ++ image_markup alt_text src ++ after)
    = (alt_text, src) :: image_pattern_findall after.
Proof.
  intros before alt_text src after Hb Ha Hne Hs.
  unfold image_pattern_findall.
  rewrite (findall_from_no_bang before _ Hb).
  pose proof (image_match_here_markup alt_text src after Ha Hne Hs) as Hm.
  pose proof (image_markup_length alt_text src) as L.
  remember (image_markup alt_text src) as markup eqn:Em.
  destruct markup as [|c tl]; [simpl in L; lia|].
  simpl app in *. cbn [findall_from]. rewrite Hm.
  f_equal. cbn [length]. replace (S (length tl) - 1) with (length tl) by lia.
  apply findall_from_skip.
Qed.

Lemma image_pattern_findall_finds_reference_witness :
  image_pattern_findall
    (lit "Figure: " ++ image_markup (lit "a [plot") (lit "fig/plot (1.png")
         ++ lit " and ![b](c)")
  = (lit "a [plot", lit "fig/plot (1.png")
      :: image_pattern_findall (lit " and ![b](c)").
Proof.
  apply (image_pattern_findall_finds_reference
           (lit "Figure: ") (lit "a [plot") (lit "fig/plot (1.png")
           (lit " and ![b](c)")).
  - vm_compute. intuition discriminate.
  - vm_compute. intuition discriminate.
  - discriminate.
  - vm_compute. intuition discriminate.
Defined.

End ImagePattern.

(** ** More on the two processors *)

Section MoreMarkdown.

Import config llm_client cell_processors Props More.

Lemma subseq_refl {A} (l : list A) : subseq l l.
Proof. induction l; [apply subseq_nil | apply subseq_take; assumption]. Qed.

Lemma subseq_app_r {A} (a b c : list A) : subseq a b -> subseq a (b ++ c).
Proof.
  intros H. induction H as [|x a b H IH|x a b H IH]; simpl.
  - induction c; [apply subseq_nil | apply subseq_skip; assumption].
  - apply subseq_skip. exact IH.
  - apply subseq_take. exact IH.
Qed.

Lemma subseq_app {A} (a b c d : list A) :
  subseq a b -> subseq c d -> subseq (a ++ c) (b ++ d).
Proof.
  intros H Hcd. induction H as [|x a b H IH|x a b H IH]; simpl.
  - exact Hcd.
  - apply subseq_skip. exact IH.
  - apply subseq_take. exact IH.
Qed.

Lemma describe_images_extends (py : PyLib) (client : LLMClient)
      (image_matches : list (str * str)) (input_path : option str)
      (target_language : str) :
  forall acc,
    always (fun res => exists added, res = acc ++ added)
           (describe_images py client image_matches input_path
                            target_language acc).
Proof.
  induction image_matches as [|[alt_text src] rest IH]; intros acc.
  - cbn. exists []. rewrite app_nil_r. reflexivity.
  - cbn [describe_images]. apply always_bind.
    eapply always_weaken; [|apply always_trivial].
    intros [image_data | e] _; [|apply IH].
    apply always_bind. eapply always_weaken; [|apply always_trivial].
    intros description _. cbv beta.
    eapply always_weaken; [|apply IH].
    intros res [added ->]. cbv beta. rewrite <- app_assoc.
    eexists. reflexivity.
Qed.

Lemma process_sections_keeps_lines (py : PyLib) (client : LLMClient)
      (sections : list (list str)) (input_path : option str)
      (target_language : str) :
  forall kept acc,
    subseq kept acc ->
    always (fun res => subseq (kept ++ concat sections) res)
           (process_sections py client sections input_path target_language
                             acc).
Proof.
  induction sections as [|section rest IH]; intros kept acc Hk.
  - cbn. rewrite app_nil_r. exact Hk.
  - cbn [process_sections concat].
    destruct section as [|first others]; [apply IH; exact Hk|].
    set (section := first :: others) in *.
    apply always_bind.
    eapply always_weaken; [|apply describe_images_extends].
    intros lines1 [added1 ->]. cbv beta.
    assert (H1 : subseq (kept ++ section) ((acc ++ section) ++ added1))
      by (apply subseq_app_r, subseq_app; [exact Hk | apply subseq_refl]).
    apply always_bind.
    destruct (has_text section).
    + apply always_bind. eapply always_weaken; [|apply always_trivial].
      intros translation _. cbn [always].
      rewrite app_assoc. apply IH.
      apply subseq_app_r, subseq_app_r. exact H1.
    + cbn [always]. rewrite app_assoc. apply IH.
      apply subseq_app_r. exact H1.
Qed.

(** X7.  Whatever the model and the resolver answer, the new source of a
    markdown cell holds every line of the original text that is not blank,
    in the original order: lines are only added between and after them. *)
Theorem markdown_new_source_keeps_lines :
  forall (py : PyLib) (client : LLMClient) (original_source : Source)
         (input_path : option str) (target_language : str)
         (W : Type) (h : handler W) (w : W),
    subseq (filter (fun l => negb (blank l))
                   (split NL (source_text_of original_source)))
           (value_of (run h (markdown_new_source py client original_source
                                                 input_path target_language)
                          w)).
Proof.
  intros py client original_source input_path target_language W h w.
  apply (always_run
           (fun res => subseq (filter (fun l => negb (blank l))
                                      (split NL (source_text_of
                                                   original_source))) res)
           h).
  unfold markdown_new_source, markdown_sections.
  assert (E : filter (fun l => negb (blank l))
                     (split NL (source_text_of original_source))
              = [] ++ concat (group_sections
                                (split NL (source_text_of original_source))))
    by (rewrite group_sections_from, sections_from_concat; reflexivity).
  rewrite E.
  apply (process_sections_keeps_lines py client _ input_path target_language
                                      [] []).
  apply subseq_nil.
Qed.

Lemma process_sections_silent (py : PyLib) (client : LLMClient)
      (sections : list (list str)) (input_path : option str)
      (target_language : str) :
  Forall (fun section => section <> []
                         /\ has_text section = false
                         /\ image_pattern_findall (join [NL] section) = [])
         sections ->
  forall acc,
    process_sections py client sections input_path target_language acc
    = Ret (acc ++ concat (map (fun section => section ++ [[]]) sections)).
Proof.
  induction sections as [|section rest IH]; intros Hall acc.
  - cbn. rewrite app_nil_r. reflexivity.
  - inversion Hall as [|? ? (Hne & Ht & Hi) Hrest]; subst.
    cbn [process_sections map concat].
    destruct section as [|first others]; [contradiction|].
    rewrite Hi, Ht. cbn [describe_images bind].
    rewrite (IH Hrest). rewrite <- !app_assoc. reflexivity.
Qed.

(** X8.  A markdown cell none of whose sections has text to translate or an
    image reference is processed without any call: the new source is each
    section followed by one empty line. *)
Theorem markdown_new_source_without_text_or_images :
  forall (py : PyLib) (client : LLMClient) (original_source : Source)
         (input_path : option str) (target_language : str),
    Forall (fun section => has_text section = false
                           /\ image_pattern_findall (join [NL] section) = [])
           (markdown_sections original_source) ->
    markdown_new_source py client original_source input_path target_language
    = Ret (concat (map (fun section => section ++ [[]])
                       (markdown_sections original_source))).
Proof.
  intros py client original_source input_path target_language Hall.
  unfold markdown_new_source.
  rewrite (process_sections_silent py client); [reflexivity|].
  assert (Hshape : Forall section_shape (markdown_sections original_source)).
  { unfold markdown_sections. rewrite group_sections_from.
    apply sections_from_shape. left. reflexivity. }
  rewrite Forall_forall in *. intros section Hin.
  destruct (Hall section Hin) as [Ht Hi].
  split; [|split; assumption].
  specialize (Hshape section Hin). destruct section; [destruct Hshape|].
  discriminate.
Qed.

Lemma markdown_new_source_without_text_witness :
  markdown_new_source Sim.py Sim.client
    (SrcStr (lit "!important" ++ [NL; NL] ++ lit "![broken]()"))
    (Some (lit "/work/nb.ipynb")) (lit "Chinese")
  = Ret [lit "!important"; []; lit "![broken]()"; []].
Proof.
  apply (markdown_new_source_without_text_or_images
           Sim.py Sim.client
           (SrcStr (lit "!important" ++ [NL; NL] ++ lit "![broken]()"))
           (Some (lit "/work/nb.ipynb")) (lit "Chinese")).
  vm_compute. repeat constructor.
Defined.

End MoreMarkdown.

Section MoreProcessors.

Import config llm_client cell_processors Props More.

Lemma translate_text_unusable (client : LLMClient) (text target_language : str)
      (W : Type) (h : handler W) (w : W) :
  (forall req w', unusable (fst (h _ (ChatCompletion req) w')) = true) ->
  value_of (run h (translate_text client text target_language) w) = text.
Proof.
  intros Hbad. unfold translate_text, call. cbn [bind run].
  match goal with
  | |- context [h _ (ChatCompletion ?r) w] =>
    pose proof (Hbad r w) as Hr;
      destruct (h _ (ChatCompletion r) w) as [x w1]
  end.
  cbn [fst] in Hr. destruct x as [[content|]|e]; cbn; try reflexivity.
  cbn in Hr. apply negb_true_iff in Hr. rewrite Hr. reflexivity.
Qed.

Lemma process_sections_unusable (py : PyLib) (client : LLMClient)
      (input_path : option str) (target_language : str)
      (W : Type) (h : handler W) (sections : list (list str)) :
  (forall req w', unusable (fst (h _ (ChatCompletion req) w')) = true) ->
  Forall (fun section => section <> []
                         /\ image_pattern_findall (join [NL] section) = [])
         sections ->
  forall acc w,
    value_of (run h (process_sections py client sections input_path
                                      target_language acc) w)
    = acc ++ concat (map (section_with_own_text
                            (get_translation_label py target_language))
                         sections).
Proof.
  intros Hbad. induction sections as [|section rest IH]; intros Hall acc w.
  - cbn. rewrite app_nil_r. reflexivity.
  - inversion Hall as [|? ? (Hne & Hi) Hrest]; subst.
    cbn [process_sections map concat].
    destruct section as [|first others]; [contradiction|].
    set (section := first :: others) in *.
    rewrite Hi. cbn [describe_images bind].
    unfold section_with_own_text at 1.
    destruct (has_text section).
    + rewrite run_bind.
      pose proof (translate_text_unusable client (join [NL] section)
                    target_language W h w Hbad) as Ht.
      rewrite run_bind.
      destruct (run h (translate_text client (join [NL] section)
                                      target_language) w)
        as [[translation w1] t1].
      cbn [value_of fst] in Ht. subst translation.
      cbn [run].
      specialize (IH Hrest
                     (((acc ++ section)
                         ++ [ []; lit "**" ++ get_translation_label
                                              py target_language
                                    ++ lit "：**"; join [NL] section ])
                        ++ [[]]) w1).
      destruct (run h (process_sections py client rest input_path
                                        target_language _) w1)
        as [[res w2] t2].
      cbn [value_of fst] in *. rewrite IH.
      rewrite <- !app_assoc. reflexivity.
    + cbn [bind]. rewrite (IH Hrest). rewrite <- !app_assoc. reflexivity.
Qed.

(** X9.  When the model cannot be used (every chat call raises or answers
    with no content), a markdown cell without image references still gets a
    translation block for every section that has text, and the block
    repeats the text of the section: the gateway returns the text on
    failure, so the processor's own skip is never taken. *)
Theorem markdown_translation_block_repeats_text_on_failure :
  forall (py : PyLib) (client : LLMClient) (original_source : Source)
         (input_path : option str) (target_language : str)
         (W : Type) (h : handler W) (w : W),
    (forall req w', unusable (fst (h _ (ChatCompletion req) w')) = true) ->
    Forall (fun section => image_pattern_findall (join [NL] section) = [])
           (markdown_sections original_source) ->
    value_of (run h (markdown_new_source py client original_source
                                         input_path target_language) w)
    = concat (map (section_with_own_text
                     (get_translation_label py target_language))
                  (markdown_sections original_source)).
Proof.
  intros py client original_source input_path target_language W h w
         Hbad Hall.
  unfold markdown_new_source.
  rewrite (process_sections_unusable py client input_path target_language
                                     W h _ Hbad); [reflexivity|].
  assert (Hshape : Forall section_shape (markdown_sections original_source)).
  { unfold markdown_sections. rewrite group_sections_from.
    apply sections_from_shape. left. reflexivity. }
  rewrite Forall_forall in *. intros section Hin.
  split; [|apply Hall; exact Hin].
  specialize (Hshape section Hin). destruct section; [destruct Hshape|].
  discriminate.
Qed.

Lemma markdown_translation_block_on_failure_witness :
  value_of (run Offline.answer
                (markdown_new_source
                   Sim.py Sim.client
                   (SrcStr (lit "# Title" ++ [NL; NL] ++ lit "Hello" ++ [NL]
                                ++ lit "world"))
                   (Some (lit "/work/nb.ipynb")) (lit "French"))
                (Sim.offline [] []))
  = [ lit "# Title"; []; lit "**Traduction：**"; lit "# Title"; [];
      lit "Hello"; lit "world"; []; lit "**Traduction：**";
      lit "Hello" ++ [NL] ++ lit "world"; [] ].
Proof.
  rewrite (markdown_translation_block_repeats_text_on_failure
             Sim.py Sim.client
             (SrcStr (lit "# Title" ++ [NL; NL] ++ lit "Hello" ++ [NL]
                          ++ lit "world"))
             (Some (lit "/work/nb.ipynb")) (lit "French")
             Sim.World Offline.answer (Sim.offline [] [])).
  - reflexivity.
  - intros req w'. reflexivity.
  - vm_compute. repeat constructor.
Defined.

Lemma code_new_source_trimmed (client : LLMClient)
      (original_source : Source) (target_language : str) :
  always (fun src => exists text, src = SrcStr text /\ strip text = text)
         (code_new_source (add_code_comments client) original_source
                          target_language).
Proof.
  unfold code_new_source. apply always_bind.
  eapply always_weaken; [|apply add_code_comments_never_raises].
  intros r [text ->]. cbn [always].
  exists (strip_code_fences text). split; [reflexivity|].
  apply strip_code_fences_trimmed.
Qed.

Lemma process_code_cell_trimmed (client : LLMClient) (state : AgentState) :
  always
    (fun state' =>
       error_message state' = None ->
       exists cell text,
         processed_cells state'
         = processed_cells state ++ [set_source cell (SrcStr text)]
         /\ strip text = text
         /\ (exists cs, state_cells state = Ok cs
                        /\ cell_at cs (current_cell_index state) = Ok cell)
         /\ cell_type cell = lit "code")
    (process_code_cell client state).
Proof.
  unfold process_code_cell, process_code_cell_with.
  destruct (state_cells state) as [cs | e] eqn:Hcs;
    [|cbn [always]; discriminate].
  destruct (current_cell_index state >=? Z.of_nat (length cs))%Z;
    [cbn [always]; discriminate|].
  destruct (cell_at cs (current_cell_index state)) as [cell | e] eqn:Hcell;
    [|cbn [always]; discriminate].
  destruct (str_eqb (cell_type cell) (lit "code")) eqn:Hty;
    cbn [negb]; [|cbn [always]; discriminate].
  apply always_bind.
  eapply always_weaken; [|apply code_new_source_trimmed].
  intros src (text & -> & Htrim). cbn [always]. intros _.
  exists cell, text. cbn.
  split; [reflexivity|]. split; [exact Htrim|].
  split; [exists cs; split; [reflexivity | exact Hcell]|].
  apply str_eqb_eq. exact Hty.
Qed.

(** X10.  Whatever the model answers, when the code processor records no
    error the source of the cell it appends is one string without leading
    or trailing white space: never a list of lines, and never the original
    with its surrounding blank lines. *)
Theorem process_code_cell_stores_trimmed_string :
  forall (client : LLMClient) (W : Type) (h : handler W) (w : W)
         (state : AgentState),
    let state' := value_of (run h (process_code_cell client state) w) in
    error_message state' = None ->
    exists cell text,
      processed_cells state'
      = processed_cells state ++ [set_source cell (SrcStr text)]
      /\ strip text = text
      /\ (exists cs, state_cells state = Ok cs
                     /\ cell_at cs (current_cell_index state) = Ok cell)
      /\ cell_type cell = lit "code".
Proof.
  intros client W h w state state' Herr.
  exact (always_run _ h _ (process_code_cell_trimmed client state) w Herr).
Qed.

Lemma process_code_cell_stores_trimmed_string_witness :
  let state :=
    Sim.loaded [Sim.code_cell (SrcList [lit "x = 1" ++ [NL]; lit "y = 2"])]
               [] 0 in
  let state' :=
    value_of (run Sim.answer (process_code_cell Sim.client state)
                  (Sim.replying (lit "  # note" ++ [NL] ++ lit "x = 1  ")
                                [] [])) in
  map source (processed_cells state')
  = [SrcStr (lit "# note" ++ [NL] ++ lit "x = 1")]
  /\ exists cell text,
      processed_cells state'
      = processed_cells state ++ [set_source cell (SrcStr text)]
      /\ strip text = text
      /\ (exists cs, state_cells state = Ok cs
                     /\ cell_at cs (current_cell_index state) = Ok cell)
      /\ cell_type cell = lit "code".
Proof.
  split; [reflexivity|].
  apply (process_code_cell_stores_trimmed_string
           Sim.client Sim.World Sim.answer
           (Sim.replying (lit "  # note" ++ [NL] ++ lit "x = 1  ") [] [])
           (Sim.loaded
              [Sim.code_cell (SrcList [lit "x = 1" ++ [NL]; lit "y = 2"])]
              [] 0)).
  reflexivity.
Defined.

Lemma guarded_step_silent {A} (W : Type) (h : handler W) (w : W)
      (state : AgentState) (m : IO A) (f : A -> AgentState) :
  error_message state = None ->
  (forall a, error_message (f a) = None) ->
  let r := run h (bind m (fun a => Ret (f a))) w in
  error_message (value_of r) <> None ->
  calls_of r = [] /\ world_of r = w
  /\ processed_cells (value_of r) = processed_cells state
  /\ current_cell_index (value_of r) = current_cell_index state.
Proof.
  intros _ Hf r Herr. subst r. rewrite run_then_ret in Herr.
  cbn [value_of fst] in Herr. exfalso. apply Herr. apply Hf.
Qed.

(** X11.  A processor that records an error has made no call, left the
    world as it was, appended nothing and kept the index: the three guards
    (document loaded, index in range, cell type) all come before the first
    call, and nothing after them records an error. *)
Theorem processor_error_before_any_call :
  forall (py : PyLib) (client : LLMClient) (W : Type) (h : handler W) (w : W)
         (state : AgentState),
    error_message state = None ->
    (let r := run h (process_markdown_cell py client state) w in
     error_message (value_of r) <> None ->
     calls_of r = [] /\ world_of r = w
     /\ processed_cells (value_of r) = processed_cells state
     /\ current_cell_index (value_of r) = current_cell_index state)
    /\ (let r := run h (process_code_cell client state) w in
        error_message (value_of r) <> None ->
        calls_of r = [] /\ world_of r = w
        /\ processed_cells (value_of r) = processed_cells state
        /\ current_cell_index (value_of r) = current_cell_index state).
Proof.
  intros py client W h w state Hclean. split.
  - unfold process_markdown_cell.
    destruct (state_cells state) as [cs | e]; [|cbn; auto].
    destruct (current_cell_index state >=? Z.of_nat (length cs))%Z;
      [cbn; auto|].
    destruct (cell_at cs (current_cell_index state)) as [cell | e];
      [|cbn; auto].
    destruct (negb (str_eqb (cell_type cell) (lit "markdown")));
      [cbn; auto|].
    apply (guarded_step_silent W h w state); [exact Hclean|].
    intros lines. exact Hclean.
  - unfold process_code_cell, process_code_cell_with.
    destruct (state_cells state) as [cs | e]; [|cbn; auto].
    destruct (current_cell_index state >=? Z.of_nat (length cs))%Z;
      [cbn; auto|].
    destruct (cell_at cs (current_cell_index state)) as [cell | e];
      [|cbn; auto].
    destruct (negb (str_eqb (cell_type cell) (lit "code")));
      [cbn; auto|].
    apply (guarded_step_silent W h w state); [exact Hclean|].
    intros src. exact Hclean.
Qed.

Lemma processor_error_before_any_call_witness :
  let state := Sim.loaded [Sim.code_cell (SrcStr (lit "x = 1"))] [] 0 in
  let world := Sim.replying (lit "Hola") [] [] in
  let r := run Sim.answer (process_markdown_cell Sim.py Sim.client state)
               world in
  error_message (value_of r) = Some (lit "Expected markdown cell, got code")
  /\ calls_of r = [] /\ world_of r = world
  /\ processed_cells (value_of r) = processed_cells state
  /\ current_cell_index (value_of r) = current_cell_index state.
Proof.
  split; [reflexivity|].
  apply (proj1 (processor_error_before_any_call
                  Sim.py Sim.client Sim.World Sim.answer
                  (Sim.replying (lit "Hola") [] [])
                  (Sim.loaded [Sim.code_cell (SrcStr (lit "x = 1"))] [] 0)
                  eq_refl)).
  discriminate.
Defined.

End MoreProcessors.

(** ** More on the workflow *)

Section MoreWorkflow.

Import llm_client cell_processors notebook_io workflow Props Run More.

Lemma edges_of_answers :
  conditional_edges (lit "END") = Some (inr tt)
  /\ conditional_edges (lit "rebuild_notebook")
     = Some (inl rebuild_notebook_node)
  /\ conditional_edges (lit "process_markdown_cell")
     = Some (inl process_markdown_cell_node)
  /\ conditional_edges (lit "process_code_cell")
     = Some (inl process_code_cell_node)
  /\ conditional_edges (lit "skip_unsupported_cell")
     = Some (inl skip_unsupported_cell_node).
Proof. repeat split. Qed.

Ltac route_cases :=
  unfold route_cell_processing;
  repeat match goal with
         | |- context [if ?b then _ else _] => destruct b eqn:?
         | |- context [match ?r with Ok _ => _ | Raise _ => _ end] =>
           destruct r eqn:?
         end.

(** The router's answer is always a key of the edge mapping; it is [END]
    only with an error recorded in the state it leaves. *)
Lemma route_answer_known (s : AgentState) :
  exists target,
    conditional_edges (snd (route_cell_processing s)) = Some target
    /\ (forall u, target = inr u ->
                  error_message (fst (route_cell_processing s)) <> None).
Proof.
  destruct edges_of_answers as (E1 & E2 & E3 & E4 & E5).
  route_cases; cbn [fst snd];
    lazymatch goal with
    | |- exists _, conditional_edges (lit "END") = _ /\ _ =>
      exists (inr tt); split; [exact E1 | intros u _]
    | |- exists _, conditional_edges (lit "rebuild_notebook") = _ /\ _ =>
      eexists; split; [exact E2 | intros u Hu; discriminate Hu]
    | |- exists _, conditional_edges (lit "process_markdown_cell") = _ /\ _ =>
      eexists; split; [exact E3 | intros u Hu; discriminate Hu]
    | |- exists _, conditional_edges (lit "process_code_cell") = _ /\ _ =>
      eexists; split; [exact E4 | intros u Hu; discriminate Hu]
    | |- exists _, conditional_edges (lit "skip_unsupported_cell") = _ /\ _ =>
      eexists; split; [exact E5 | intros u Hu; discriminate Hu]
    end;
    try (cbn; discriminate).
  unfold error_recorded in *. destruct (error_message s); discriminate.
Qed.

Section Scheduler.

Variable py : PyLib.
Variable pl : PathLib.
Variable client : LLMClient.

Lemma step_not_crashed (c : config) :
  crashed c = false ->
  always (fun c' => crashed c' = false) (step py pl client c).
Proof.
  intros Hc. destruct c as [n s | s | s | e]; [| | exact Hc | discriminate].
  - cbn [step]. apply always_bind.
    eapply always_weaken; [|apply always_trivial].
    intros s' _. destruct n; reflexivity.
  - cbn [step]. destruct (route_answer_known s) as (target & Ht & _).
    destruct (route_cell_processing s) as [s' answer]. cbn [snd] in Ht.
    rewrite Ht. destruct target; reflexivity.
Qed.

Lemma steps_not_crashed (n : nat) :
  forall c, crashed c = false ->
            always (fun c' => crashed c' = false) (steps py pl client n c).
Proof.
  induction n as [|n IH]; intros c Hc; [exact Hc|].
  cbn [steps]. apply always_bind.
  eapply always_weaken; [|apply step_not_crashed; exact Hc].
  intros c' Hc'. apply IH. exact Hc'.
Qed.

(** With an error recorded the router ends the graph at once. *)
Lemma step_routing_errored (s : AgentState) :
  error_recorded s = true ->
  step py pl client (Routing s) = Ret (Halted s).
Proof.
  intros H. cbn [step]. unfold route_cell_processing. rewrite H.
  cbn. rewrite after_routing_same. reflexivity.
Qed.

End Scheduler.

(** X12.  However many node executions the scheduler allows,
    [workflow.invoke] raises nothing but the recursion-limit error: every
    answer of the router is a key of the edge mapping, and the nodes turn
    their own failures into a recorded error. *)
Theorem invoke_raises_only_recursion_limit :
  forall (py : PyLib) (pl : PathLib) (client : LLMClient) (rounds : nat)
         (W : Type) (h : handler W) (w : W) (state : AgentState) (e : exn),
    value_of (run h (invoke py pl client rounds state) w) = Raise e ->
    exn_kind_of e = GraphRecursionError.
Proof.
  intros py pl client rounds W h w state e. unfold invoke.
  rewrite run_bind.
  pose proof (always_run _ h _
                (steps_not_crashed py pl client (2 * rounds)
                   (Pending load_and_parse_notebook_node state) eq_refl) w)
    as Hc.
  destruct (run h (steps py pl client (2 * rounds)
                         (Pending load_and_parse_notebook_node state)) w)
    as [[c w1] t1].
  cbn [value_of fst] in Hc.
  destruct c as [n s | s | s | e']; cbn; intros H;
    try discriminate; inversion H; reflexivity.
Qed.

Lemma invoke_raises_only_recursion_limit_witness :
  exn_kind_of
    (Exn GraphRecursionError
         (lit "Recursion limit reached without hitting a stop condition"))
  = GraphRecursionError.
Proof.
  apply (invoke_raises_only_recursion_limit
           Sim.py Sim.pl Sim.client 2 Sim.World Sim.answer
           (Sim.replying
              (lit "Hola")
              [(lit "/work/nb.ipynb",
                Sim.notebook_of [Sim.code_cell (SrcStr (lit "x"));
                                 Sim.code_cell (SrcStr (lit "y"))])] [])
           (initial_state (lit "/work/nb.ipynb") (lit "Chinese"))).
  vm_compute. reflexivity.
Defined.

(** X13.  A run on an input path that does not exist, when the scheduler
    allows one node execution at least, makes the existence test and
    nothing else: it ends with the initial state carrying the error
    [Input file not found], nothing read, asked or written. *)
Theorem run_on_missing_input :
  forall (py : PyLib) (pl : PathLib) (client : LLMClient) (rounds : nat)
         (W : Type) (h : handler W) (w : W) (input target : str),
    1 <= rounds ->
    fst (h _ (PathExists input) w) = false ->
    run h (run_notebook_translation_with py pl client rounds input target) w
    = (FinalState
         (set_error_message (initial_state input target)
            (Some (lit "Input file not found: " ++ input))),
       snd (h _ (PathExists input) w),
       [Event (PathExists input) false]).
Proof.
  intros py pl client rounds W h w input target Hrounds Hmissing.
  destruct rounds as [|rounds]; [lia|].
  unfold run_notebook_translation_with, invoke.
  replace (2 * S rounds) with (S (S (2 * rounds))) by lia.
  cbn [steps step run_node]. unfold load_and_parse_notebook, call.
  cbn [bind run initial_state input_path].
  destruct (h _ (PathExists input) w) as [found w1].
  cbn [fst snd] in *. subst found. cbn [negb bind run].
  rewrite (step_routing_errored py pl client
             (set_error_message (initial_state input target)
                (Some (lit "Input file not found: " ++ input))) eq_refl).
  cbn [bind]. rewrite steps_halted. reflexivity.
Qed.

Lemma run_on_missing_input_witness :
  run Sim.answer
      (run_notebook_translation_with Sim.py Sim.pl Sim.client 100
                                     (lit "/work/none.ipynb") (lit "Chinese"))
      (Sim.offline [] [])
  = (FinalState
       (set_error_message
          (initial_state (lit "/work/none.ipynb") (lit "Chinese"))
          (Some (lit "Input file not found: /work/none.ipynb"))),
     Sim.offline [] [],
     [Event (PathExists (lit "/work/none.ipynb")) false]).
Proof.
  apply (run_on_missing_input
           Sim.py Sim.pl Sim.client 100 Sim.World Sim.answer
           (Sim.offline [] []) (lit "/work/none.ipynb") (lit "Chinese")).
  - lia.
  - reflexivity.
Defined.

End MoreWorkflow.

Section Writes.

Import config llm_client cell_processors notebook_io workflow Props Run More.

Lemma emits_bind {A B} (P : forall X, Eff X -> Prop) (m : IO A)
      (f : A -> IO B) :
  emits P m -> (forall a, emits P (f a)) -> emits P (bind m f).
Proof.
  intros Hm Hf. induction m as [a | X e k IH]; cbn; [apply Hf|].
  destruct Hm as [He Hk]. split; [exact He|]. intros x. apply IH. apply Hk.
Qed.

Lemma quiet_run {W A} (h : handler W) (m : IO A) :
  quiet m -> forall w, no_write (calls_of (run h m w)).
Proof.
  unfold quiet, no_write.
  induction m as [a | X e k IH]; intros Hq w; [reflexivity|].
  destruct Hq as [He Hk]. cbn [run].
  destruct (h X e w) as [x w1]. specialize (IH x (Hk x) w1).
  destruct (run h (k x) w1) as [[a w2] tr].
  cbn [calls_of snd forallb is_write] in *. rewrite He, IH. reflexivity.
Qed.

Lemma no_write_app (a b : list event) :
  no_write a -> no_write b -> no_write (a ++ b).
Proof.
  unfold no_write. intros Ha Hb. rewrite forallb_app, Ha, Hb. reflexivity.
Qed.

Ltac quiet_call :=
  unfold call; cbn [emits bind];
  split; [reflexivity|]; intros ?.

Lemma quiet_translate_text (client : LLMClient) (text target : str) :
  quiet (translate_text client text target).
Proof.
  unfold quiet, translate_text. quiet_call.
  destruct x as [[c|]|e]; exact I.
Qed.

Lemma quiet_add_code_comments (client : LLMClient) (code target : str) :
  quiet (add_code_comments client code target).
Proof.
  unfold quiet, add_code_comments. quiet_call.
  destruct x as [[c|]|e]; exact I.
Qed.

Lemma quiet_describe_image (py : PyLib) (client : LLMClient)
      (image_data : bytes) (target : str) :
  quiet (describe_image py client image_data target).
Proof.
  unfold quiet, describe_image. quiet_call.
  destruct x as [[c|]|e]; exact I.
Qed.

Lemma quiet_get_image_data (py : PyLib) (src : str) (input_path : option str) :
  quiet (get_image_data py src input_path).
Proof.
  unfold quiet, get_image_data.
  destruct (startswith (lit "data:image/") src).
  { destruct (nth_error (split 44%N src) 1); exact I. }
  destruct (startswith (lit "http://") src || startswith (lit "https://") src).
  { quiet_call. destruct x as [response | e]; [|exact I].
    destruct (raise_for_status response); exact I. }
  quiet_call. destruct x.
  { quiet_call. exact I. }
  destruct input_path as [document|]; [|exact I].
  quiet_call. quiet_call. destruct x0; [|exact I].
  quiet_call. exact I.
Qed.

Lemma quiet_describe_images (py : PyLib) (client : LLMClient)
      (image_matches : list (str * str)) (input_path : option str)
      (target : str) :
  forall acc,
    quiet (describe_images py client image_matches input_path target acc).
Proof.
  induction image_matches as [|[alt_text src] rest IH]; intros acc;
    [exact I|].
  cbn [describe_images]. apply emits_bind; [apply quiet_get_image_data|].
  intros [image_data | e]; [|apply IH].
  apply emits_bind; [apply quiet_describe_image|].
  intros description. apply IH.
Qed.

Lemma quiet_process_sections (py : PyLib) (client : LLMClient)
      (sections : list (list str)) (input_path : option str) (target : str) :
  forall acc,
    quiet (process_sections py client sections input_path target acc).
Proof.
  induction sections as [|section rest IH]; intros acc; [exact I|].
  cbn [process_sections]. destruct section as [|first others]; [apply IH|].
  apply emits_bind; [apply quiet_describe_images|]. intros lines1.
  apply emits_bind; [|intros lines2; apply IH].
  destruct (has_text (first :: others)); [|exact I].
  apply emits_bind; [apply quiet_translate_text|]. intros t. exact I.
Qed.

Lemma quiet_process_markdown_cell (py : PyLib) (client : LLMClient)
      (s : AgentState) :
  quiet (process_markdown_cell py client s).
Proof.
  unfold process_markdown_cell.
  destruct (state_cells s) as [cs | e]; [|exact I].
  destruct (current_cell_index s >=? Z.of_nat (length cs))%Z; [exact I|].
  destruct (cell_at cs (current_cell_index s)) as [cell | e]; [|exact I].
  destruct (negb (str_eqb (cell_type cell) (lit "markdown"))); [exact I|].
  apply emits_bind; [apply quiet_process_sections|]. intros lines. exact I.
Qed.

Lemma quiet_process_code_cell (client : LLMClient) (s : AgentState) :
  quiet (process_code_cell client s).
Proof.
  unfold process_code_cell, process_code_cell_with.
  destruct (state_cells s) as [cs | e]; [|exact I].
  destruct (current_cell_index s >=? Z.of_nat (length cs))%Z; [exact I|].
  destruct (cell_at cs (current_cell_index s)) as [cell | e]; [|exact I].
  destruct (negb (str_eqb (cell_type cell) (lit "code"))); [exact I|].
  apply emits_bind; [|intros src; exact I].
  unfold code_new_source.
  apply emits_bind; [apply quiet_add_code_comments|].
  intros [c | e]; exact I.
Qed.

Lemma quiet_load (pl : PathLib) (s : AgentState) :
  quiet (load_and_parse_notebook pl s).
Proof.
  unfold quiet, load_and_parse_notebook. quiet_call.
  destruct x; cbn [negb]; [|exact I].
  quiet_call. destruct x as [nb | e]; exact I.
Qed.

(** Errors recorded by the nodes and the router are never empty. *)

Lemma tidy_error (s : AgentState) (m : str) :
  truthy m = true -> tidy (set_error_message s (Some m)).
Proof. intros H. right. unfold error_recorded. cbn. exact H. Qed.

Lemma tidy_append (s : AgentState) (c : Cell) :
  tidy s -> tidy (append_and_advance s c).
Proof. intros H. exact H. Qed.

Lemma tidy_process_markdown_cell (py : PyLib) (client : LLMClient)
      (s : AgentState) :
  tidy s -> always tidy (process_markdown_cell py client s).
Proof.
  intros Ht. unfold process_markdown_cell.
  destruct (state_cells s) as [cs | e]; [|apply tidy_error; reflexivity].
  destruct (current_cell_index s >=? Z.of_nat (length cs))%Z;
    [apply tidy_error; reflexivity|].
  destruct (cell_at cs (current_cell_index s)) as [cell | e];
    [|apply tidy_error; reflexivity].
  destruct (negb (str_eqb (cell_type cell) (lit "markdown")));
    [apply tidy_error; reflexivity|].
  apply always_bind. eapply always_weaken; [|apply always_trivial].
  intros lines _. exact Ht.
Qed.

Lemma tidy_process_code_cell (client : LLMClient) (s : AgentState) :
  tidy s -> always tidy (process_code_cell client s).
Proof.
  intros Ht. unfold process_code_cell, process_code_cell_with.
  destruct (state_cells s) as [cs | e]; [|apply tidy_error; reflexivity].
  destruct (current_cell_index s >=? Z.of_nat (length cs))%Z;
    [apply tidy_error; reflexivity|].
  destruct (cell_at cs (current_cell_index s)) as [cell | e];
    [|apply tidy_error; reflexivity].
  destruct (negb (str_eqb (cell_type cell) (lit "code")));
    [apply tidy_error; reflexivity|].
  apply always_bind. eapply always_weaken; [|apply always_trivial].
  intros src _. exact Ht.
Qed.

Lemma tidy_skip (s : AgentState) : tidy s -> tidy (skip_unsupported_cell s).
Proof.
  intros Ht. unfold skip_unsupported_cell.
  destruct (state_cells s) as [cs | e]; [|apply tidy_error; reflexivity].
  destruct (current_cell_index s >=? Z.of_nat (length cs))%Z; [exact Ht|].
  destruct (cell_at cs (current_cell_index s)) as [cell | e];
    [exact Ht | apply tidy_error; reflexivity].
Qed.

Lemma tidy_load (pl : PathLib) (s : AgentState) :
  always tidy (load_and_parse_notebook pl s).
Proof.
  unfold load_and_parse_notebook, call. cbn [bind always].
  intros [|]; cbn [negb]; [|apply tidy_error; reflexivity].
  cbn [bind always]. intros [nb | e]; [left; reflexivity|].
  apply tidy_error. reflexivity.
Qed.

Lemma cell_at_in_range (cs : list Cell) (i : Z) :
  (0 <= i < Z.of_nat (length cs))%Z -> exists c, cell_at cs i = Ok c.
Proof.
  intros Hi. unfold cell_at, getitem.
  destruct (i <? 0)%Z eqn:E; [apply Z.ltb_lt in E; lia|].
  destruct (nth_error cs (Z.to_nat i)) as [c|] eqn:Hn;
    [exists c; reflexivity|].
  apply nth_error_None in Hn. lia.
Qed.

Lemma tidy_after_routing (s s' : AgentState) :
  tidy s -> tidy (after_routing s s').
Proof. intros H. exact H. Qed.

(** With the index in bounds the router raises nothing: it answers [END]
    only at a recorded error, leaving the state as it is, and the name of a
    node otherwise. *)
Lemma route_in_bounds (s : AgentState) :
  in_bounds s -> total_cells s = cell_count s ->
  (error_recorded s = true /\ route_cell_processing s = (s, lit "END"))
  \/ (error_recorded s = false
      /\ exists n, conditional_edges (snd (route_cell_processing s))
                   = Some (inl n)).
Proof.
  intros [[Hlo Hhi] _] Htot.
  destruct edges_of_answers as (E1 & E2 & E3 & E4 & E5).
  unfold route_cell_processing.
  destruct (error_recorded s); [left; split; reflexivity|].
  right. split; [reflexivity|].
  destruct (current_cell_index s >=? total_cells s)%Z eqn:Hg;
    [eexists; exact E2|].
  rewrite Z.geb_leb in Hg. apply Z.leb_gt in Hg.
  unfold state_cells. unfold cell_count in Htot.
  destruct (notebook_content s) as [nb|]; [|lia].
  destruct (cell_at_in_range (cells nb) (current_cell_index s)) as [c ->];
    [lia|].
  destruct (str_eqb (cell_type c) (lit "markdown")); [eexists; exact E3|].
  destruct (str_eqb (cell_type c) (lit "code")); [eexists; exact E4|].
  cbn [current_cell_index append_and_advance].
  destruct (current_cell_index s + 1 >=? total_cells s)%Z eqn:Hg2;
    [eexists; exact E2|].
  rewrite Z.geb_leb in Hg2. apply Z.leb_gt in Hg2.
  destruct (cell_at_in_range (cells nb) (current_cell_index s + 1))
    as [c2 ->]; [lia|].
  destruct (str_eqb (cell_type c2) (lit "markdown")); [eexists; exact E3|].
  destruct (str_eqb (cell_type c2) (lit "code")); eexists; [exact E4|exact E5].
Qed.

Lemma recorded_not_none (s : AgentState) :
  error_recorded s = true -> error_message s <> None.
Proof. unfold error_recorded. destruct (error_message s); discriminate. Qed.

Lemma tidy_clean (s : AgentState) :
  tidy s -> error_recorded s = false -> error_message s = None.
Proof. intros [H | H] Hr; [exact H | congruence]. Qed.

Section Discipline.

Variable py : PyLib.
Variable pl : PathLib.
Variable client : LLMClient.
Context {W : Type}.
Variable h : handler W.

Lemma node_write_discipline (m : IO AgentState) (w : W)
      (calls : list event) :
  no_write calls -> quiet m -> always tidy m ->
  write_discipline
    (value_of (run h (bind m (fun s' => Ret (Routing s'))) w))
    (calls ++ calls_of (run h (bind m (fun s' => Ret (Routing s'))) w)).
Proof.
  intros Hc Hq Ht. rewrite run_then_ret. cbn [value_of calls_of fst snd].
  split.
  - apply no_write_app; [exact Hc | apply quiet_run; exact Hq].
  - apply (always_run _ h _ Ht w).
Qed.

Lemma step_write_discipline (c : config) (w : W) (calls : list event) :
  sound c ->
  write_discipline c calls ->
  write_discipline (value_of (run h (step py pl client c) w))
                   (calls ++ calls_of (run h (step py pl client c) w)).
Proof.
  intros Hs Hd. destruct c as [n s | s | s | e].
  - destruct Hd as [Hc Ht]. destruct n; cbn [step run_node].
    + apply node_write_discipline;
        [exact Hc | apply quiet_load | apply tidy_load].
    + apply node_write_discipline;
        [exact Hc | apply quiet_process_markdown_cell
         | apply tidy_process_markdown_cell; exact Ht].
    + apply node_write_discipline;
        [exact Hc | apply quiet_process_code_cell
         | apply tidy_process_code_cell; exact Ht].
    + apply node_write_discipline;
        [exact Hc | exact I | apply tidy_skip; exact Ht].
    + unfold rebuild_notebook, call.
      destruct (error_recorded s) eqn:Hr.
      * cbn. rewrite app_nil_r. left.
        split; [exact Hc | apply recorded_not_none; exact Hr].
      * pose proof (tidy_clean s Ht Hr) as Hnone.
        cbn [bind run].
        destruct (h _ (MkdirParent (output_path s)) w) as [r1 w1].
        destruct r1 as [u1 | e1].
        -- cbn [bind run].
           destruct (h _ (NbformatWrite (output_notebook s) (output_path s))
                       w1) as [r2 w2].
           destruct r2 as [u2 | e2]; cbn [run value_of calls_of fst snd];
             right;
             exists (calls ++ [Event (MkdirParent (output_path s)) (Ok u1)]),
                    (output_notebook s), (output_path s).
           ++ exists (Ok u2). rewrite <- app_assoc.
              split; [reflexivity|].
              split; [apply no_write_app; [exact Hc | reflexivity]|].
              destruct u2. split; [intros _; exact Hnone | reflexivity].
           ++ exists (Raise e2). rewrite <- app_assoc.
              split; [reflexivity|].
              split; [apply no_write_app; [exact Hc | reflexivity]|].
              split; [discriminate | cbn; discriminate].
        -- cbn [run value_of calls_of fst snd]. left.
           split; [apply no_write_app; [exact Hc | reflexivity]|].
           cbn. discriminate.
  - destruct Hd as [Hc Ht]. destruct Hs as [Hb Htot]. cbn [step].
    destruct (route_in_bounds s Hb Htot) as [[Hr ->] | [_ [n Hedge]]].
    + destruct edges_of_answers as (E1 & _). rewrite E1.
      rewrite after_routing_same. cbn. rewrite app_nil_r. left.
      split; [exact Hc | apply recorded_not_none; exact Hr].
    + destruct (route_cell_processing s) as [s' answer].
      cbn [snd] in Hedge. rewrite Hedge. cbn. rewrite app_nil_r.
      split; [exact Hc | exact Ht].
  - cbn. rewrite app_nil_r. exact Hd.
  - cbn. rewrite app_nil_r. exact Hd.
Qed.

Lemma steps_write_discipline (n : nat) :
  forall (c : config) (w : W) (calls : list event),
    sound c ->
    write_discipline c calls ->
    write_discipline (value_of (run h (steps py pl client n c) w))
                     (calls ++ calls_of (run h (steps py pl client n c) w)).
Proof.
  induction n as [|n IH]; intros c w calls Hs Hd.
  - cbn. rewrite app_nil_r. exact Hd.
  - cbn [steps]. rewrite run_bind.
    pose proof (step_write_discipline c w calls Hs Hd) as H1.
    destruct (always_run _ h _ (step_sound py pl client c Hs) w) as [Hs1 _].
    destruct (run h (step py pl client c) w) as [[c1 w1] t1].
    cbn [value_of calls_of fst snd] in H1, Hs1.
    specialize (IH c1 w1 (calls ++ t1) Hs1 H1).
    destruct (run h (steps py pl client n c1) w1) as [[c2 w2] t2].
    cbn [value_of calls_of fst snd] in *.
    rewrite app_assoc. exact IH.
Qed.

End Discipline.

Lemma initial_sound (input target : str) :
  sound (Pending load_and_parse_notebook_node (initial_state input target)).
Proof. cbn. unfold in_bounds, cell_count. cbn. repeat split; lia. Qed.

(** X14.  In every environment, and however many node executions the
    scheduler allows, a run writes a notebook at most once, and only as its
    very last call.  It ends without error exactly when that
    write was made and succeeded; otherwise an error is reported, after a
    write that failed or with no write at all. *)
Theorem notebook_written_once_at_the_end :
  forall (py : PyLib) (pl : PathLib) (client : LLMClient) (rounds : nat)
         (W : Type) (h : handler W) (w : W) (input target : str),
    let r := run h (run_notebook_translation_with py pl client rounds
                                                  input target) w in
    (result_error_message (value_of r) = None
     /\ exists earlier nb p,
         calls_of r = earlier ++ [Event (NbformatWrite nb p) (Ok tt)]
         /\ no_write earlier)
    \/ (result_error_message (value_of r) <> None
        /\ exists earlier nb p e,
            calls_of r = earlier ++ [Event (NbformatWrite nb p) (Raise e)]
            /\ no_write earlier)
    \/ (result_error_message (value_of r) <> None
        /\ no_write (calls_of r)).
Proof.
  intros py pl client rounds W h w input target r. subst r.
  unfold run_notebook_translation_with, invoke.
  rewrite !run_bind.
  pose proof (steps_write_discipline
                py pl client h (2 * rounds)
                (Pending load_and_parse_notebook_node
                         (initial_state input target)) w []
                (initial_sound input target)
                (conj eq_refl (or_introl eq_refl))) as Hd.
  destruct (run h (steps py pl client (2 * rounds)
                         (Pending load_and_parse_notebook_node
                                  (initial_state input target))) w)
    as [[c w1] t1].
  cbn [value_of calls_of fst snd app] in Hd.
  destruct c as [n s | s | s | e]; cbn; rewrite !app_nil_r.
  - right. right. split; [discriminate | apply Hd].
  - right. right. split; [discriminate | apply Hd].
  - destruct Hd as [[Hn He] | (earlier & nb & p & answer & Hc & Hn & Hiff)].
    + right. right. split; assumption.
    + destruct answer as [u | e].
      * left. destruct u. split; [apply Hiff; reflexivity|].
        exists earlier, nb, p. split; assumption.
      * right. left. split.
        -- intros Hnone. apply Hiff in Hnone. discriminate.
        -- exists earlier, nb, p, e. split; assumption.
  - right. right. split; [discriminate | exact Hd].
Qed.

End Writes.

Section Termination.

Import llm_client cell_processors notebook_io workflow Props Run More.

Lemma positioned_advance_any (state : AgentState) (nb : Notebook)
      (before : list Cell) (c : Cell) (more : list Cell) (out : Cell) :
  positioned state nb before (c :: more) ->
  positioned (append_and_advance state out) nb (before ++ [c]) more.
Proof.
  intros (Hnb & Hcells & Htotal & Hidx & Herr).
  unfold positioned. cbn.
  split; [exact Hnb|]. split; [rewrite Hcells, <- app_assoc; reflexivity|].
  split; [exact Htotal|]. split; [|exact Herr].
  rewrite Hidx, length_app. simpl. lia.
Qed.

Lemma process_markdown_cell_moves (py : PyLib) (client : LLMClient)
      (s : AgentState) (nb : Notebook) (done : list Cell) (c : Cell)
      (more : list Cell) :
  positioned s nb done (c :: more) ->
  always (moved_on s) (process_markdown_cell py client s).
Proof.
  intros (Hnb & Hcells & Htotal & Hidx & Herr).
  unfold process_markdown_cell, state_cells. rewrite Hnb, Hidx, Hcells.
  destruct (Z.of_nat (length done)
            >=? Z.of_nat (length (done ++ c :: more)))%Z;
    [left; reflexivity|].
  rewrite cell_at_app.
  destruct (negb (str_eqb (cell_type c) (lit "markdown")));
    [left; reflexivity|].
  apply always_bind. eapply always_weaken; [|apply always_trivial].
  intros lines _. right. eexists. reflexivity.
Qed.

Lemma process_code_cell_moves (client : LLMClient)
      (s : AgentState) (nb : Notebook) (done : list Cell) (c : Cell)
      (more : list Cell) :
  positioned s nb done (c :: more) ->
  always (moved_on s) (process_code_cell client s).
Proof.
  intros (Hnb & Hcells & Htotal & Hidx & Herr).
  unfold process_code_cell, process_code_cell_with, state_cells.
  rewrite Hnb, Hidx, Hcells.
  destruct (Z.of_nat (length done)
            >=? Z.of_nat (length (done ++ c :: more)))%Z;
    [left; reflexivity|].
  rewrite cell_at_app.
  destruct (negb (str_eqb (cell_type c) (lit "code")));
    [left; reflexivity|].
  apply always_bind. eapply always_weaken; [|apply always_trivial].
  intros src _. right. eexists. reflexivity.
Qed.

Lemma within_mono (nb : Notebook) (c : config) (k k' : nat) :
  within nb c k -> k <= k' -> within nb c k'.
Proof.
  intros H Hk. destruct c as [n s | s | s | e]; cbn in *; try exact H.
  - destruct n; try exact H; try lia;
      destruct H as (done & c & more & Hp & Hb);
      exists done, c, more; (split; [exact Hp | cbn in *; lia]).
  - destruct H as [[He H1] | (done & rest & Hp & Hb)].
    + left. split; [exact He | lia].
    + right. exists done, rest. split; [exact Hp | lia].
Qed.

Section Bound.

Variable py : PyLib.
Variable pl : PathLib.
Variable client : LLMClient.
Context {W : Type}.
Variable h : handler W.
Variable nb : Notebook.

Lemma within_node_for (s : AgentState) (done rest : list Cell) (k : nat) :
  positioned s nb done rest ->
  at_supported rest = true ->
  2 * length rest + 1 <= k ->
  within nb (Pending (node_for rest) s) k.
Proof.
  intros Hp Hs Hk. destruct rest as [|c more]; cbn [node_for].
  - cbn in *. lia.
  - destruct (str_eqb (cell_type c) (lit "markdown"));
      cbn [within]; exists done, c, more; split; assumption.
Qed.

Lemma moved_on_within (s s' : AgentState) (done : list Cell) (c : Cell)
      (more : list Cell) (k : nat) :
  positioned s nb done (c :: more) ->
  2 * length (c :: more) + 1 <= S k ->
  moved_on s s' ->
  within nb (Routing s') k.
Proof.
  intros Hp Hk [He | [out ->]]; cbn [within length] in *.
  - left. split; [exact He | lia].
  - right. exists (done ++ [c]), more.
    split; [eapply positioned_advance_any; exact Hp | lia].
Qed.

Lemma step_within (c : config) (w : W) (k : nat) :
  within nb c (S k) ->
  within nb (value_of (run h (step py pl client c) w)) k.
Proof.
  intros Hw. destruct c as [n s | s | s | e];
    [| | exact I | destruct Hw].
  - destruct n; cbn [within] in Hw; [destruct Hw | | | |].
    + destruct Hw as (done & c & more & Hp & Hk).
      cbn [step run_node]. rewrite run_then_ret. cbn [value_of fst].
      apply (moved_on_within s _ done c more k Hp Hk).
      apply (always_run _ h _
               (process_markdown_cell_moves py client s nb done c more Hp) w).
    + destruct Hw as (done & c & more & Hp & Hk).
      cbn [step run_node]. rewrite run_then_ret. cbn [value_of fst].
      apply (moved_on_within s _ done c more k Hp Hk).
      apply (always_run _ h _
               (process_code_cell_moves client s nb done c more Hp) w).
    + destruct Hw as (done & c & more & Hp & Hk).
      cbn [step run_node bind run value_of fst].
      apply (moved_on_within s _ done c more k Hp Hk).
      right. exists c. apply (skip_at_cell s nb done c more Hp).
    + cbn [step run_node]. rewrite run_then_ret. exact I.
  - destruct Hw as [[He _] | (done & rest & Hp & Hk)].
    + rewrite (step_routing_errored py pl client s He). exact I.
    + cbn [step]. destruct (at_supported rest) eqn:Hs.
      * rewrite (route_at_supported s nb done rest Hp Hs), edges_answer_for.
        rewrite after_routing_same. cbn [run value_of fst].
        apply (within_node_for s done rest); [assumption.. | lia].
      * destruct rest as [|c more]; [discriminate|].
        cbn [at_supported] in Hs. apply negb_false_iff in Hs.
        rewrite (route_at_unsupported s nb done c more Hp Hs).
        assert (Hp' : positioned
                        (after_routing s (append_and_advance s c)) nb
                        done (c :: more)) by exact Hp.
        cbn [length] in Hk.
        destruct (at_supported more) eqn:Hs2.
        -- rewrite edges_answer_for. cbn [run value_of fst].
           destruct more as [|c' more']; cbn [node_for within]; [lia|].
           destruct (str_eqb (cell_type c') (lit "markdown"));
             exists done, c, (c' :: more');
             (split; [exact Hp' | cbn [length] in *; lia]).
        -- change (conditional_edges (lit "skip_unsupported_cell"))
             with (Some (@inl node unit skip_unsupported_cell_node)).
           cbn [run value_of fst within].
           exists done, c, more.
           split; [exact Hp' | cbn [length] in *; lia].
Qed.

Lemma steps_within (k : nat) :
  forall (c : config) (w : W),
    within nb c k ->
    halted (value_of (run h (steps py pl client k c) w)) = true.
Proof.
  induction k as [|k IH]; intros c w Hw.
  - destruct c as [n s | s | s | e]; cbn [within] in Hw.
    + exfalso. destruct n; cbn in Hw;
        try (destruct Hw as (d & c & more & _ & Hk); cbn in Hk);
        try lia; try contradiction.
    + exfalso. destruct Hw as [[_ H] | (d & rest & _ & H)]; lia.
    + reflexivity.
    + destruct Hw.
  - cbn [steps]. rewrite run_bind.
    pose proof (step_within c w k Hw) as H1.
    destruct (run h (step py pl client c) w) as [[c1 w1] t1].
    cbn [value_of fst] in H1. specialize (IH c1 w1 H1).
    destruct (run h (steps py pl client k c1) w1) as [[c2 w2] t2].
    exact IH.
Qed.

End Bound.

(** The loader leaves the router with an error recorded, or with the
    notebook it read and the index before its first cell. *)
Lemma load_leads_to_routing {W} (h : handler W) (py : PyLib) (pl : PathLib)
      (client : LLMClient) (input target : str) (w : W) :
  let r := run h (step py pl client
                       (Pending load_and_parse_notebook_node
                                (initial_state input target))) w in
  exists s, value_of r = Routing s
            /\ (error_recorded s = true
                \/ exists nb,
                  In (Event (NbformatRead input) (Ok nb)) (calls_of r)
                  /\ positioned s nb [] (cells nb)).
Proof.
  cbn [step run_node]. unfold load_and_parse_notebook, call.
  cbn [bind run initial_state input_path].
  destruct (h _ (PathExists input) w) as [found w1].
  destruct found; cbn [negb bind run].
  - destruct (h _ (NbformatRead input) w1) as [r w2].
    destruct r as [nb | e]; cbn [bind run value_of calls_of fst snd].
    + eexists. split; [reflexivity|]. right. exists nb.
      split; [right; left; reflexivity|]. repeat split.
    + eexists. split; [reflexivity|]. left. reflexivity.
  - eexists. split; [reflexivity|]. left. reflexivity.
Qed.

(** X15.  The pipeline ends: when the scheduler allows one node execution
    at least, and as many as the notebook read has cells plus two (the
    loader, one node per cell at most, the rebuild), the run reaches [END]
    and returns the final state of the graph, in every environment. *)
Theorem run_ends_within_cells_plus_two :
  forall (py : PyLib) (pl : PathLib) (client : LLMClient) (rounds : nat)
         (W : Type) (h : handler W) (w : W) (input target : str),
    let r := run h (run_notebook_translation_with py pl client rounds
                                                  input target) w in
    1 <= rounds ->
    (forall nb, In (Event (NbformatRead input) (Ok nb)) (calls_of r) ->
                length (cells nb) + 2 <= rounds) ->
    exists final, value_of r = FinalState final.
Proof.
  intros py pl client rounds W h w input target r Hrounds Hbound. subst r.
  unfold run_notebook_translation_with, invoke in *.
  rewrite !run_bind in *.
  destruct rounds as [|rounds]; [lia|].
  replace (2 * S rounds) with (S (S (2 * rounds))) in * by lia.
  cbn [steps] in *. rewrite run_bind in *.
  destruct (load_leads_to_routing h py pl client input target w)
    as (s1 & Hc1 & Hs1).
  destruct (run h (step py pl client
                        (Pending load_and_parse_notebook_node
                                 (initial_state input target))) w)
    as [[c1 w1] t1].
  cbn [value_of calls_of fst snd] in Hc1, Hs1. subst c1.
  change (c' <- step py pl client (Routing s1);;
          steps py pl client (2 * rounds) c')
    with (steps py pl client (S (2 * rounds)) (Routing s1)) in *.
  assert (Hw : exists nb, within nb (Routing s1) (S (2 * rounds))).
  { destruct Hs1 as [He | (nb & Hread & Hp)].
    - exists {| cells := []; nb_rest := [] |}. left. split; [exact He | lia].
    - exists nb. right. exists [], (cells nb). split; [exact Hp|].
      assert (Hb : length (cells nb) + 2 <= S rounds).
      { apply Hbound.
        destruct (run h (steps py pl client (S (2 * rounds)) (Routing s1)) w1)
          as [[c2 w2] t2].
        destruct c2; cbn; rewrite !app_nil_r; apply in_or_app; left;
          exact Hread. }
      lia. }
  destruct Hw as [nb Hw].
  pose proof (steps_within py pl client h nb (S (2 * rounds)) (Routing s1) w1
                           Hw) as Hh.
  destruct (run h (steps py pl client (S (2 * rounds)) (Routing s1)) w1)
    as [[c2 w2] t2].
  cbn [value_of fst] in Hh.
  destruct c2 as [n s | s | s | e]; try discriminate.
  exists s. reflexivity.
Qed.

Lemma run_ends_within_cells_plus_two_witness :
  exists final,
    value_of
      (run Sim.answer
           (run_notebook_translation_with
              Sim.py Sim.pl Sim.client 4
              (lit "/work/nb.ipynb") (lit "Chinese"))
           (Sim.replying
              (lit "Hola")
              [(lit "/work/nb.ipynb",
                Sim.notebook_of [Sim.raw_cell (SrcStr (lit "x"));
                                 Sim.code_cell (SrcStr (lit "y"))])] []))
    = FinalState final.
Proof.
  apply (run_ends_within_cells_plus_two
           Sim.py Sim.pl Sim.client 4 Sim.World Sim.answer
           (Sim.replying
              (lit "Hola")
              [(lit "/work/nb.ipynb",
                Sim.notebook_of [Sim.raw_cell (SrcStr (lit "x"));
                                 Sim.code_cell (SrcStr (lit "y"))])] [])
           (lit "/work/nb.ipynb") (lit "Chinese")).
  - lia.
  - intros nb Hin. apply (in_map notebook_read) in Hin.
    vm_compute in Hin.
    repeat (destruct Hin as [Hin | Hin];
            [try discriminate Hin;
             try (injection Hin as <-; vm_compute; lia)|]).
    contradiction.
Defined.

End Termination.

Section PassThrough.

Import llm_client cell_processors notebook_io workflow Props Run More.

Lemma produced_from_kept {W} (h : handler W) (py : PyLib)
      (client : LLMClient) (input target : str) (c out : Cell) :
  produced_from h py client input target c out -> kept c out.
Proof.
  intros [w <-]. unfold process_cell, kept.
  destruct (str_eqb (cell_type c) (lit "markdown")).
  - rewrite run_bind.
    destruct (run h (markdown_new_source py client (source c) (Some input)
                                         target) w) as [[l w1] t1].
    split; reflexivity.
  - destruct (str_eqb (cell_type c) (lit "code")).
    + rewrite run_bind.
      destruct (run h (code_new_source (add_code_comments client) (source c)
                                       target) w) as [[l w1] t1].
      split; reflexivity.
    + split; reflexivity.
Qed.

Lemma produced_from_all_kept {W} (h : handler W) (py : PyLib)
      (client : LLMClient) (input target : str) (cs outs : list Cell) :
  Forall2 (produced_from h py client input target) cs outs ->
  Forall2 kept cs outs.
Proof.
  intros H. induction H as [|c out cs outs Hc _ IH]; constructor;
    [exact (produced_from_kept h py client input target c out Hc) | exact IH].
Qed.

(** X16.  For a notebook of markdown and code cells only, in every
    environment and however many node executions the scheduler allows: a
    run that ends with no error recorded returned the final state of the
    graph and wrote, as its last call, the notebook it read with its cells
    replaced by the output sequence, which has as many cells; the cell at
    each position was produced from the input cell at that position, and
    has its cell type and its fields other than the source (metadata,
    outputs, execution count). *)
Theorem supported_cells_preserved_in_order :
  forall (py : PyLib) (pl : PathLib) (client : LLMClient) (rounds : nat)
         (W : Type) (h : handler W) (w : W) (input target : str),
    let r := run h (run_notebook_translation_with py pl client rounds
                                                  input target) w in
    result_error_message (value_of r) = None ->
    (forall nb, In (Event (NbformatRead input) (Ok nb)) (calls_of r) ->
                Forall (fun c => unsupported c = false) (cells nb)) ->
    exists (final : AgentState) (nb out : Notebook) (earlier : list event),
      value_of r = FinalState final
      /\ In (Event (NbformatRead input) (Ok nb)) (calls_of r)
      /\ calls_of r
         = earlier ++ [Event (NbformatWrite out (output_path final)) (Ok tt)]
      /\ nb_rest out = nb_rest nb
      /\ cells out = processed_cells final
      /\ length (cells out) = length (cells nb)
      /\ Forall2 (produced_from h py client input target)
                 (cells nb) (cells out)
      /\ Forall2 kept (cells nb) (cells out).
Proof.
  intros py pl client rounds W h w input target r Herr Hall. subst r.
  unfold run_notebook_translation_with, invoke in *.
  rewrite !run_bind in *.
  destruct rounds as [|rounds]; [cbn in Herr; discriminate|].
  replace (2 * S rounds) with (S (S (2 * rounds))) in * by lia.
  cbn [steps] in *. rewrite run_bind in *.
  destruct (load_on_track h py pl client input target w) as (nb & H1 & Hnb).
  destruct (run h (step py pl client
                        (Pending load_and_parse_notebook_node
                                 (initial_state input target))) w)
    as [[c1 w1] t1].
  cbn [value_of calls_of fst snd] in H1, Hnb.
  change (c' <- step py pl client c1;; steps py pl client (2 * rounds) c')
    with (steps py pl client (S (2 * rounds)) c1) in *.
  assert (Hsup : Forall (fun c => unsupported c = false) (cells nb)).
  { destruct Hnb as [Hin | ->]; [|constructor].
    apply Hall.
    destruct (run h (steps py pl client (S (2 * rounds)) c1) w1)
      as [[c2 w2] t2].
    destruct c2; cbn; rewrite !app_nil_r; apply in_or_app; left; exact Hin. }
  pose proof (steps_on_track h py pl client input target nb Hsup
                             (S (2 * rounds)) c1 w1 t1 H1) as H2.
  destruct (run h (steps py pl client (S (2 * rounds)) c1) w1)
    as [[c2 w2] t2].
  cbn [value_of calls_of fst snd] in H2.
  destruct c2 as [n s | s | s | e]; cbn in Herr; try discriminate.
  cbn. rewrite !app_nil_r.
  destruct H2 as [Hdirty | (Hread & Hprog & earlier & Hcalls)];
    [contradiction|].
  destruct Hprog as (_ & _ & _ & _ & Hprod).
  exists s, nb, (set_cells nb (processed_cells s)), earlier.
  split; [reflexivity|]. split; [exact Hread|]. split; [exact Hcalls|].
  split; [reflexivity|]. split; [reflexivity|].
  cbn [set_cells cells].
  split; [symmetry; eapply Forall2_length; exact Hprod|].
  split; [exact Hprod|].
  apply (produced_from_all_kept h py client input target). exact Hprod.
Qed.

Lemma supported_cells_preserved_witness :
  let r := run Sim.answer
               (run_notebook_translation_with
                  Sim.py Sim.pl Sim.client 100
                  (lit "/work/nb.ipynb") (lit "Spanish"))
               (Sim.replying
                  (lit "Hola")
                  [(lit "/work/nb.ipynb",
                    Sim.notebook_of
                      [Sim.markdown_cell (SrcStr (lit "# Title"));
                       Sim.code_cell (SrcStr (lit "x = 1"))])] []) in
  map (fun written => (fst written, map source (cells (snd written))))
      (Sim.written (world_of r))
  = [(lit "/work/nb_translated.ipynb",
      [SrcList [lit "# Title"; []; lit "**Traducción：**"; lit "Hola"; []];
       SrcStr (lit "Hola")])]
  /\ exists (final : AgentState) (nb out : Notebook) (earlier : list event),
      value_of r = FinalState final
      /\ In (Event (NbformatRead (lit "/work/nb.ipynb")) (Ok nb)) (calls_of r)
      /\ calls_of r
         = earlier ++ [Event (NbformatWrite out (output_path final)) (Ok tt)]
      /\ nb_rest out = nb_rest nb
      /\ cells out = processed_cells final
      /\ length (cells out) = length (cells nb)
      /\ Forall2 (produced_from Sim.answer Sim.py Sim.client
                                (lit "/work/nb.ipynb") (lit "Spanish"))
                 (cells nb) (cells out)
      /\ Forall2 kept (cells nb) (cells out).
Proof.
  split; [vm_compute; reflexivity|].
  apply (supported_cells_preserved_in_order
           Sim.py Sim.pl Sim.client 100 Sim.World Sim.answer
           (Sim.replying
              (lit "Hola")
              [(lit "/work/nb.ipynb",
                Sim.notebook_of
                  [Sim.markdown_cell (SrcStr (lit "# Title"));
                   Sim.code_cell (SrcStr (lit "x = 1"))])] [])
           (lit "/work/nb.ipynb") (lit "Spanish")).
  - vm_compute. reflexivity.
  - intros nb Hin. apply (in_map notebook_read) in Hin.
    vm_compute in Hin.
    repeat (destruct Hin as [Hin | Hin];
            [try discriminate Hin;
             try (injection Hin as <-; repeat constructor)|]).
    contradiction.
Defined.

End PassThrough.
